(** * Verification of the NATS pub/sub service of the notifier

    This development embeds [PubSubServiceImpl] (stream and consumer
    reconciliation, the bounded subscribe retry loop and the delivery
    callback) and proves the properties its specification states.

    Conventions of the embedding:
    - JavaScript numbers that hold counts and durations are integers ([Z]);
      the retry counter and its bound are naturals;
    - text is [string]; a payload is a [list byte];
    - an array slot that may hold [undefined] is an [option];
    - a [Map] is a [gmap];
    - asynchronous calls are sequenced as the [await]s sequence them: a
      computation takes the world and gives a result (a value or a thrown
      error) and the next world. *)

From Stdlib Require Import ZArith List Ascii String Lia.
From Stdlib Require Strings.Byte.
From stdpp Require Import base option list strings gmap pretty.
From Equations Require Import Equations.

Local Open Scope string_scope.
Local Open Scope list_scope.
Local Open Scope Z_scope.

(** ** Errors and results *)

(** The errors the code tells apart: [err instanceof NatsError], with its
    optional [api_error] whose [err_code] is read, a [TypeError] raised by
    reading a property of [undefined] or [null], and any other error. *)
Inductive JsError : Type :=
| NatsError (api_error : option Z)
| TypeError
| OtherError (message : string).

(** What an expression evaluates to: a value, or a thrown error. *)
Inductive Res (A : Type) : Type :=
| Return (a : A)
| Throw (e : JsError).
Arguments Return {A} a.
Arguments Throw {A} e.

Definition is_Return {A} (r : Res A) : bool :=
  match r with Return _ => true | Throw _ => false end.

(** ** Broker data *)

Inductive AckPolicy : Type :=
| AckNone | AckAll | AckExplicit | AckNotSet.

Inductive DeliverPolicy : Type :=
| DeliverAll | DeliverLast | DeliverNew | DeliverStartSequence
| DeliverStartTime | DeliverLastPerSubject.

Module StreamConfig.
(** [name] is unset in the object [getStreamConfig] builds; an element of
    [subjects] is [None] where the array holds [undefined]. *)
Record t : Type := mk {
  name : option string;
  max_age : Z;
  subjects : list (option string);
  num_replicas : Z
}.
Definition set_name (v : option string) (c : t) : t :=
  mk v (max_age c) (subjects c) (num_replicas c).
Definition set_max_age (v : Z) (c : t) : t :=
  mk (name c) v (subjects c) (num_replicas c).
Definition set_subjects (v : list (option string)) (c : t) : t :=
  mk (name c) (max_age c) v (num_replicas c).
End StreamConfig.

Module StreamInfo.
Record t : Type := mk { config : StreamConfig.t }.
End StreamInfo.

Module ConsumerConfig.
Record t : Type := mk {
  name : string;
  deliver_subject : string;
  durable_name : string;
  ack_wait : Z;
  num_replicas : Z;
  filter_subject : string;
  deliver_group : string;
  ack_policy : AckPolicy;
  deliver_policy : DeliverPolicy
}.
Definition set_ack_wait (v : Z) (c : t) : t :=
  mk (name c) (deliver_subject c) (durable_name c) v (num_replicas c)
     (filter_subject c) (deliver_group c) (ack_policy c) (deliver_policy c).
Definition set_num_replicas (v : Z) (c : t) : t :=
  mk (name c) (deliver_subject c) (durable_name c) (ack_wait c) v
     (filter_subject c) (deliver_group c) (ack_policy c) (deliver_policy c).
End ConsumerConfig.

Module ConsumerInfo.
Record t : Type := mk { config : ConsumerConfig.t }.
End ConsumerInfo.

(** ** Configuration tables of [./utils] *)

Module NatsTopic.
Record t : Type := mk {
  streamName : string;
  queueName : string;
  consumerName : string
}.
End NatsTopic.

Module NatsConsumerConfig.
Record t : Type := mk { ack_wait : Z; num_replicas : Z }.
Definition set_num_replicas (v : Z) (c : t) : t := mk (ack_wait c) v.
End NatsConsumerConfig.

Module NatsStreamConfig.
Record t : Type := mk { max_age : Z; num_replicas : Z }.
End NatsStreamConfig.

(** ** The config differ *)

(** [existingStreamInfo.subjects.includes(x)]: membership by equality
    ([undefined] is found when the array holds [undefined]). *)
Definition includes (l : list (option string)) (x : option string) : bool :=
  bool_decide (x ∈ l).

(** [checkConfigChangeReqd(existingStreamInfo, toUpdateConfig)]. The source
    mutates [existingStreamInfo] in place and returns the flag; the embedding
    returns the flag together with the object as the call leaves it.
    [toUpdateConfig.subjects[0]] is [undefined] when the array is empty. *)
Definition checkConfigChangeReqd
  (existingStreamInfo toUpdateConfig : StreamConfig.t)
  : bool * StreamConfig.t :=
  let '(configChanged, existingStreamInfo) :=
    if negb (StreamConfig.max_age toUpdateConfig =? 0)
       && negb (StreamConfig.max_age toUpdateConfig
                =? StreamConfig.max_age existingStreamInfo)
    then (true, StreamConfig.set_max_age
                  (StreamConfig.max_age toUpdateConfig) existingStreamInfo)
    else (false, existingStreamInfo) in
  let subject0 := default None (StreamConfig.subjects toUpdateConfig !! 0%nat) in
  if negb (includes (StreamConfig.subjects existingStreamInfo) subject0)
  then (true, StreamConfig.set_subjects
                (StreamConfig.subjects existingStreamInfo ++ [subject0])
                existingStreamInfo)
  else (configChanged, existingStreamInfo).

(** [getStreamConfig(streamConfig, streamName)]: [name] is left unset and
    [subjects] is the value of [GetStreamSubjects(streamName)], a [string[]].
    The replica count of the table entry is not copied: the object has no
    [num_replicas] field, which the embedding writes as 0, the value the
    broker reads an omitted count as. *)
Definition getStreamConfig (GetStreamSubjects : string -> list string)
  (streamConfig : NatsStreamConfig.t) (streamName : string) : StreamConfig.t :=
  StreamConfig.mk None (NatsStreamConfig.max_age streamConfig)
    (Some <$> GetStreamSubjects streamName) 0.

(** ** Text *)

(** A text is held as the characters of its UTF-8 encoding. The decoder of
    the payload is [StringCodec().decode] of the NATS client; the delivery
    callback takes it as a parameter, together with the possibility that
    decoding throws. *)
Definition quote : ascii := "034"%char.
Definition backslash : ascii := "092"%char.

Definition hex_digit (n : nat) : ascii :=
  default "0"%char (list_ascii_of_string "0123456789abcdef" !! n).

(** One character of [JSON.stringify] on a string: the two-character
    escapes, [\u00xx] for the other control characters, the character itself
    otherwise. *)
Definition json_escape (c : ascii) : string :=
  match nat_of_ascii c with
  | 8%nat => "\b"
  | 9%nat => "\t"
  | 10%nat => "\n"
  | 12%nat => "\f"
  | 13%nat => "\r"
  | 34%nat => String backslash (String quote EmptyString)
  | 92%nat => String backslash (String backslash EmptyString)
  | n =>
      if (n <? 32)%nat
      then "\u00" +:+ String (hex_digit (n / 16))
                             (String (hex_digit (n mod 16)) EmptyString)
      else String c EmptyString
  end.

Fixpoint json_escape_all (s : string) : string :=
  match s with
  | EmptyString => EmptyString
  | String c rest => json_escape c +:+ json_escape_all rest
  end.

(** [JSON.stringify(s)] for a string [s]: the escaped characters between
    double quotes. *)
Definition JSON_stringify (s : string) : string :=
  String quote (json_escape_all s +:+ String quote EmptyString).

(** [getJsonString(bytes)]. *)
Definition getJsonString (decode : list Byte.byte -> Res string)
  (bytes : list Byte.byte) : Res string :=
  match decode bytes with
  | Return text => Return (JSON_stringify text)
  | Throw e => Throw e
  end.

(** ** Computations: state and exceptions *)

Definition M (S A : Type) : Type := S -> Res A * S.

Definition ret {S A} (a : A) : M S A := fun s => (Return a, s).

Definition throw {S A} (e : JsError) : M S A := fun s => (Throw e, s).

Definition bind {S A B} (m : M S A) (k : A -> M S B) : M S B :=
  fun s =>
    match m s with
    | (Return a, s') => k a s'
    | (Throw e, s') => (Throw e, s')
    end.

(** [try { m } catch (err) { handler }]: what [m] did to the state before it
    threw stays done. *)
Definition try_catch {S A} (m : M S A) (handler : JsError -> M S A) : M S A :=
  fun s =>
    match m s with
    | (Return a, s') => (Return a, s')
    | (Throw e, s') => handler e s'
    end.

(** An expression that may throw, evaluated without touching the state. *)
Definition lift {S A} (r : Res A) : M S A := fun s => (r, s).

Notation "'do' x <- c1 ; c2" := (bind c1 (fun x => c2))
  (at level 10, x name, c1 at level 100, c2 at level 200).
Notation "'do' ' pat <- c1 ; c2" :=
  (bind c1 (fun x => match x with pat => c2 end))
  (at level 10, pat pattern, c1 at level 100, c2 at level 200).

(** ** The delivery callback *)

Module Msg.
Record t : Type := mk { data : list Byte.byte }.
End Msg.

(** What a run of the delivery callback does that can be observed: the call
    of the caller's handler with its argument, an error log, and the
    operations of a JetStream message ([ack], [nak], [working], [term]). *)
Inductive DeliveryEvent : Type :=
| CallbackInvoked (msgString : string)
| LoggedError (data : list Byte.byte) (err : JsError)
| MsgAck
| MsgNak
| MsgWorking
| MsgTerm.

(** Appends an event to the log. *)
Definition emit {E} (e : E) : M (list E) unit :=
  fun log => (Return tt, log ++ [e]).

Section Delivery.

(** [decode] is [StringCodec().decode]; [callback] is the handler given to
    [Subscribe], which returns or throws. *)
Variable decode : list Byte.byte -> Res string.
Variable callback : string -> Res unit.

(** The callback wired into the consumer options: decode and call the
    handler inside the [try], log in the [catch], then acknowledge. *)
Definition deliveryCallback (msg : Msg.t) : M (list DeliveryEvent) unit :=
  do _ <- try_catch
      (do msgString <- lift (getJsonString decode (Msg.data msg));
       do _ <- emit (CallbackInvoked msgString);
       lift (callback msgString))
      (fun err => emit (LoggedError (Msg.data msg) err));
  emit MsgAck.




End Delivery.

(** The callback of [src/pubSub/pubSub.ts]: the acknowledgment is the last
    statement inside the [try]. *)
Module PubSubTs.
Section Delivery.
Variable decode : list Byte.byte -> Res string.
Variable callback : string -> Res unit.

Definition deliveryCallback (msg : Msg.t) : M (list DeliveryEvent) unit :=
  try_catch
    (do msgString <- lift (getJsonString decode (Msg.data msg));
     do _ <- emit (CallbackInvoked msgString);
     do _ <- lift (callback msgString);
     emit MsgAck)
    (fun err => emit (LoggedError (Msg.data msg) err)).

End Delivery.
End PubSubTs.

(** ** The broker, the log and the world *)

Module ConsumerOpts.
(** What [new ConsumerOptsBuilderImpl(config).bindStream(stream)
    .callback(callback).queue(queue)] holds. *)
Record t : Type := mk {
  config : ConsumerConfig.t;
  stream : string;
  callback : Msg.t -> M (list DeliveryEvent) unit;
  queue : string
}.
End ConsumerOpts.

(** ** The client's side of a delivery *)

(** The [nats] package is not part of the repository. Two things it does
    decide how many acknowledgments reach the broker for a message, and this
    module states them as the package has them ([JsMsgImpl.doAck],
    [JetStreamClientImpl._buildTypedSubscriptionOpts] and the callback of
    [TypedSubscription]):
    - [msg.ack()], [msg.nak()] and [msg.term()] send their reply only while
      no final reply has been sent for the message; [msg.working()] sends
      its reply each time until then and is not final;
    - a subscription whose options were built without [manualAck()] and
      whose ack policy is not [None] calls [msg.ack()] itself each time the
      callback has returned for a message. *)
Module NatsClient.



(** The delivery of [msg] to a subscription with the given callback;
    [manualAck] tells whether its options were built with [manualAck()]. *)
Definition dispatch (manualAck : bool) (ack_policy : AckPolicy)
  (callback : Msg.t -> M (list DeliveryEvent) unit) (msg : Msg.t)
  : M (list DeliveryEvent) unit :=
  do _ <- callback msg;
  if manualAck then ret tt
  else
    match ack_policy with
    | AckNone => ret tt
    | _ => emit MsgAck
    end.

End NatsClient.


(** The round trips to the broker: [jsm.streams.*], [jsm.consumers.*] and
    [js.subscribe]. *)
Inductive BrokerCall : Type :=
| StreamsInfo (streamName : string)
| StreamsUpdate (streamName : string) (config : StreamConfig.t)
| StreamsAdd (config : StreamConfig.t)
| ConsumersInfo (streamName consumerName : string)
| ConsumersUpdate (streamName consumerName : string) (config : ConsumerConfig.t)
| ConsumersAdd (streamName : string) (config : ConsumerConfig.t)
| JsSubscribe (topic : string) (opts : ConsumerOpts.t).

(** The value a call resolves to when it does not throw. The code declares
    both [info] results as possibly [null]. *)
Definition reply (c : BrokerCall) : Type :=
  match c with
  | StreamsInfo _ => option StreamInfo.t
  | ConsumersInfo _ _ => option ConsumerInfo.t
  | _ => unit
  end.

Inductive LogLevel : Type := LInfo | LWarn | LError.

(** What a run of [Subscribe] does that can be observed, in order. *)
Inductive Event : Type :=
| Broker (c : BrokerCall)
| Log (level : LogLevel) (message : string) (err : option JsError)
| Sleep (ms : Z).

(** The NATS side, over a state [B] of its own: how it answers a call,
    whether the connection reports cluster information
    ([nc.info.cluster]), and the next inbox name of [createInbox()]. *)
Record Nats (B : Type) : Type := mkNats {
  respond : forall c : BrokerCall, B -> Res (reply c) * B;
  info_cluster : B -> option string;
  nextInbox : B -> string * B
}.
Arguments respond {B} _ _ _.
Arguments info_cluster {B} _ _.
Arguments nextInbox {B} _ _.

(** The world a run works on. [NatsConsumerWiseConfigMapping] is the map of
    [./utils]: its entries are objects shared by every [Subscribe] call, and
    the creation path writes into one of them. *)
Record World (B : Type) : Type := mkWorld {
  broker : B;
  NatsConsumerWiseConfigMapping : gmap string NatsConsumerConfig.t;
  trace : list Event
}.
Arguments mkWorld {B} _ _ _.
Arguments broker {B} _.
Arguments NatsConsumerWiseConfigMapping {B} _.
Arguments trace {B} _.

(** The broker calls of a trace, in order. *)
Definition broker_calls (tr : list Event) : list BrokerCall :=
  omap (fun e => match e with Broker c => Some c | _ => None end) tr.

Section PubSubService.

Context {B : Type} (nats : Nats B).

(** The read-only part of [./utils]. *)
Variable NatsTopicMapping : gmap string NatsTopic.t.
Variable NatsStreamWiseConfigMapping : gmap string NatsStreamConfig.t.
Variable GetStreamSubjects : string -> list string.
Variable numberOfRetries : nat.

(** [StringCodec().decode]. *)
Variable decode : list Byte.byte -> Res string.

Definition record (e : Event) : M (World B) unit :=
  fun w => (Return tt,
            mkWorld (broker w) (NatsConsumerWiseConfigMapping w)
                    (trace w ++ [e])%list).

(** [await] of a broker call. *)
Definition call (c : BrokerCall) : M (World B) (reply c) :=
  fun w =>
    let '(r, b) := respond nats c (broker w) in
    (r, mkWorld b (NatsConsumerWiseConfigMapping w)
                (trace w ++ [Broker c])%list).

Definition logger_info (message : string) : M (World B) unit :=
  record (Log LInfo message None).
Definition logger_warn (message : string) : M (World B) unit :=
  record (Log LWarn message None).
Definition logger_error (message : string) (err : option JsError)
  : M (World B) unit :=
  record (Log LError message err).

(** [await new Promise(resolve => setTimeout(resolve, ms))]. *)
Definition sleep (ms : Z) : M (World B) unit := record (Sleep ms).

(** [this.nc.info.cluster]. *)
Definition nc_info_cluster : M (World B) (option string) :=
  fun w => (Return (info_cluster nats (broker w)), w).

Definition createInbox : M (World B) string :=
  fun w =>
    let '(inbox, b) := nextInbox nats (broker w) in
    (Return inbox, mkWorld b (NatsConsumerWiseConfigMapping w) (trace w)).

(** A read of the object [NatsConsumerWiseConfigMapping.get(consumerName)]:
    reading a property of [undefined] throws. *)
Definition consumerConfiguration (consumerName : string)
  : M (World B) NatsConsumerConfig.t :=
  fun w =>
    match NatsConsumerWiseConfigMapping w !! consumerName with
    | Some c => (Return c, w)
    | None => (Throw TypeError, w)
    end.

(** [consumerConfiguration.num_replicas = v], a write into the shared
    object. *)
Definition set_consumerConfiguration_num_replicas
  (consumerName : string) (v : Z) : M (World B) unit :=
  fun w =>
    (Return tt,
     mkWorld (broker w)
       (alter (NatsConsumerConfig.set_num_replicas v) consumerName
              (NatsConsumerWiseConfigMapping w))
       (trace w)).

(** *** [addOrUpdateStream] *)

(** [Info.config] is the object [checkConfigChangeReqd] has patched when it
    is sent back. A failed update is logged by the [.catch] of the promise
    and the success line is logged all the same. [streamConfig.name] is
    written only on the creation path. *)
Definition addOrUpdateStream (streamName : string)
  (streamConfig : StreamConfig.t) : M (World B) unit :=
  try_catch
    (do Info <- call (StreamsInfo streamName);
     match Info with
     | Some Info =>
         let '(changed, config) :=
           checkConfigChangeReqd (StreamInfo.config Info) streamConfig in
         if changed
         then
           do _ <- try_catch (call (StreamsUpdate streamName config))
                     (fun err =>
                        logger_error "error occurred during updating streams"
                                     (Some err));
           logger_info "streams updated successfully"
         else ret tt
     | None => ret tt
     end)
    (fun err =>
       match err with
       | NatsError api_error =>
           match api_error with
           | Some err_code =>
               if err_code =? 10059
               then
                 let streamConfig :=
                   StreamConfig.set_name (Some streamName) streamConfig in
                 try_catch
                   (do _ <- call (StreamsAdd streamConfig);
                    logger_info "stream added successfully")
                   (fun err =>
                      logger_error "error occurred during adding streams"
                                   (Some err))
               else logger_error "error occurred due to :" (Some err)
           | None => throw TypeError
           end
       | _ => ret tt
       end).

(** *** [updateConsumer] *)

(** The third argument is the object of the table as it is when the call
    starts; [updateConsumer] only reads it. The result is [true] exactly
    when the [catch] returns it. *)
Definition updateConsumer (streamName consumerName : string)
  (consumerConfiguration : NatsConsumerConfig.t) : M (World B) bool :=
  try_catch
    (do info <- call (ConsumersInfo streamName consumerName);
     match info with
     | Some info =>
         let config := ConsumerInfo.config info in
         let '(config, updatesDetected) :=
           if (NatsConsumerConfig.ack_wait consumerConfiguration >? 0)
              && negb (ConsumerConfig.ack_wait config
                       =? NatsConsumerConfig.ack_wait consumerConfiguration)
           then (ConsumerConfig.set_ack_wait
                   (NatsConsumerConfig.ack_wait consumerConfiguration) config,
                 true)
           else (config, false) in
         do streamInfo <- call (StreamsInfo streamName);
         do config <-
           (if NatsConsumerConfig.num_replicas consumerConfiguration =? 0
            then
              match streamInfo with
              | Some streamInfo =>
                  ret (ConsumerConfig.set_num_replicas
                         (StreamConfig.num_replicas
                            (StreamInfo.config streamInfo)) config)
              | None => throw TypeError
              end
            else ret config);
         do '(config, updatesDetected) <-
           (if (NatsConsumerConfig.num_replicas consumerConfiguration >? 0)
               && negb (ConsumerConfig.num_replicas config
                        =? NatsConsumerConfig.num_replicas
                             consumerConfiguration)
            then
              do cluster <- nc_info_cluster;
              if (NatsConsumerConfig.num_replicas consumerConfiguration >? 1)
                 && bool_decide (cluster = None)
              then
                do _ <- logger_warn
                          "replicas > 1 is not possible in non clustered mode";
                ret (config, updatesDetected)
              else
                ret (ConsumerConfig.set_num_replicas
                       (NatsConsumerConfig.num_replicas consumerConfiguration)
                       config,
                     true)
            else ret (config, updatesDetected));
         do _ <-
           (if updatesDetected
            then
              do _ <- call (ConsumersUpdate streamName consumerName config);
              logger_info
                ("consumer updated successfully, consumerName: "
                 +:+ consumerName)
            else ret tt);
         ret false
     | None => ret false
     end)
    (fun err =>
       match err with
       | NatsError api_error =>
           do _ <- logger_error "error occurred due to :" (Some err);
           match api_error with
           | Some err_code => if err_code =? 10014 then ret true else ret false
           | None => throw TypeError
           end
       | _ => ret false
       end).

(** *** [Subscribe] *)

(** The object literal of the consumer, written twice in [Subscribe]: for
    the consumer options and for the creation call. *)
Definition consumerObject (topic inbox consumerName queueName : string)
  (consumerConfiguration : NatsConsumerConfig.t) : ConsumerConfig.t :=
  ConsumerConfig.mk consumerName inbox consumerName
    (NatsConsumerConfig.ack_wait consumerConfiguration)
    (NatsConsumerConfig.num_replicas consumerConfiguration)
    topic queueName AckExplicit DeliverLast.

Section Topic.

Variable topic : string.
Variable natsTopicConfig : NatsTopic.t.
Variable inbox : string.

Let streamName := NatsTopic.streamName natsTopicConfig.
Let consumerName := NatsTopic.consumerName natsTopicConfig.
Let queueName := NatsTopic.queueName natsTopicConfig.

(** The block under [if (createNewConsumer)], with its own [try]/[catch]. *)
Definition createConsumer : M (World B) unit :=
  try_catch
    (do desired <- consumerConfiguration consumerName;
     do cluster <- nc_info_cluster;
     do _ <-
       (if (NatsConsumerConfig.num_replicas desired >? 1)
           && bool_decide (cluster = None)
        then
          do _ <- logger_warn
                    "replicas > 1 is not possible in non clustered mode";
          do streamInfo <- call (StreamsInfo streamName);
          match streamInfo with
          | Some streamInfo =>
              set_consumerConfiguration_num_replicas consumerName
                (StreamConfig.num_replicas (StreamInfo.config streamInfo))
          | None => ret tt
          end
        else ret tt);
     do desired <- consumerConfiguration consumerName;
     do _ <- call (ConsumersAdd streamName
                     (consumerObject topic inbox consumerName queueName
                                     desired));
     logger_info "consumer added successfully")
    (fun err =>
       logger_error "error occurred while adding consumer" (Some err)).

(** The body of the [try] of one iteration of the retry loop; it ends in
    the [break]. *)
Definition attempt (streamConfigParsed : StreamConfig.t)
  (consumerOptsDetails : ConsumerOpts.t) : M (World B) unit :=
  do _ <- addOrUpdateStream streamName streamConfigParsed;
  do desired <- consumerConfiguration consumerName;
  do createNewConsumer <- updateConsumer streamName consumerName desired;
  do _ <- (if createNewConsumer then createConsumer else ret tt);
  do _ <- call (JsSubscribe topic consumerOptsDetails);
  logger_info "subscribed to nats successfully".

Definition maxAttempts : nat := numberOfRetries.

(** [while (attempts < maxAttempts) { try { ...; break } catch { ... } }].
    Leaving the [try] normally is the [break]; the [catch] counts the
    attempt, logs or sleeps, and the loop goes on from there. *)
Equations? Subscribe_loop (streamConfigParsed : StreamConfig.t)
  (consumerOptsDetails : ConsumerOpts.t) (attempts : nat)
  : M (World B) unit by wf (maxAttempts - attempts)%nat lt :=
  Subscribe_loop streamConfigParsed consumerOptsDetails attempts
    with lt_dec attempts maxAttempts => {
    | right _ := ret tt;
    | left _ :=
        try_catch (attempt streamConfigParsed consumerOptsDetails)
          (fun err =>
             do _ <- logger_error "unsuccessful in subscribing to NATS"
                                  (Some err);
             let attempts := S attempts in
             do _ <-
               (if (attempts =? maxAttempts)%nat
                then logger_error
                       "Maximum restart attempts reached. Exiting loop." None
                else
                  let delayInMilliseconds := 5000 in
                  sleep delayInMilliseconds);
             Subscribe_loop streamConfigParsed consumerOptsDetails attempts)
    }.
Proof. lia. Qed.

End Topic.

(** [Subscribe(topic, callback)]. The three reads that can meet
    [undefined] are the property reads on the topic entry, on the consumer
    entry (in the object literal of the consumer options) and on the stream
    entry (inside [getStreamConfig]). *)
Definition Subscribe (topic : string) (callback : string -> Res unit)
  : M (World B) unit :=
  match NatsTopicMapping !! topic with
  | None => throw TypeError
  | Some natsTopicConfig =>
      let streamName := NatsTopic.streamName natsTopicConfig in
      let consumerName := NatsTopic.consumerName natsTopicConfig in
      let queueName := NatsTopic.queueName natsTopicConfig in
      do inbox <- createInbox;
      do desired <- consumerConfiguration consumerName;
      let consumerOptsDetails :=
        ConsumerOpts.mk
          (consumerObject topic inbox consumerName queueName desired)
          streamName (deliveryCallback decode callback) queueName in
      match NatsStreamWiseConfigMapping !! streamName with
      | None => throw TypeError
      | Some streamConfiguration =>
          let streamConfigParsed :=
            getStreamConfig GetStreamSubjects streamConfiguration streamName in
          Subscribe_loop topic natsTopicConfig inbox
            streamConfigParsed consumerOptsDetails 0
      end
  end.

End PubSubService.

(** ** The service of [src/pubSub/pubSub.ts] *)

(** The stream and consumer reconcilers of the other file, over the same
    broker and world. They differ from the ones above in three places: the
    update of a stream has no [.catch] of its own, [updateConsumer]
    reconciles [ack_wait] only, and [getStreamConfig] copies the replica
    count. [updateConsumer] is given the table entry as [Subscribe] got it,
    [undefined] when the table has none. *)
Module PubSubTsService.
Section Service.

Context {B : Type} (nats : Nats B).

Definition getStreamConfig (GetStreamSubjects : string -> list string)
  (streamConfig : NatsStreamConfig.t) (streamName : string) : StreamConfig.t :=
  StreamConfig.mk None (NatsStreamConfig.max_age streamConfig)
    (Some <$> GetStreamSubjects streamName)
    (NatsStreamConfig.num_replicas streamConfig).

Definition addOrUpdateStream (streamName : string)
  (streamConfig : StreamConfig.t) : M (World B) unit :=
  try_catch
    (do Info <- call nats (StreamsInfo streamName);
     match Info with
     | Some Info =>
         let '(changed, config) :=
           checkConfigChangeReqd (StreamInfo.config Info) streamConfig in
         if changed
         then
           do _ <- call nats (StreamsUpdate streamName config);
           logger_info "streams updated successfully"
         else ret tt
     | None => ret tt
     end)
    (fun err =>
       match err with
       | NatsError api_error =>
           match api_error with
           | Some err_code =>
               if err_code =? 10059
               then
                 let streamConfig :=
                   StreamConfig.set_name (Some streamName) streamConfig in
                 try_catch
                   (do _ <- call nats (StreamsAdd streamConfig);
                    logger_info " stream added successfully")
                   (fun err =>
                      logger_error "error occurred during adding streams"
                                   (Some err))
               else logger_error "error occurred due to :" (Some err)
           | None => throw TypeError
           end
       | _ => ret tt
       end).

Definition updateConsumer (streamName consumerName : string)
  (consumerConfiguration : option NatsConsumerConfig.t) : M (World B) bool :=
  try_catch
    (do info <- call nats (ConsumersInfo streamName consumerName);
     match info with
     | Some info =>
         let config := ConsumerInfo.config info in
         do consumerConfiguration <-
           match consumerConfiguration with
           | Some c => ret c
           | None => throw TypeError
           end;
         let '(config, updatesDetected) :=
           if (NatsConsumerConfig.ack_wait consumerConfiguration >? 0)
              && negb (ConsumerConfig.ack_wait config
                       =? NatsConsumerConfig.ack_wait consumerConfiguration)
           then (ConsumerConfig.set_ack_wait
                   (NatsConsumerConfig.ack_wait consumerConfiguration) config,
                 true)
           else (config, false) in
         do _ <-
           (if updatesDetected
            then
              do _ <- call nats
                        (ConsumersUpdate streamName consumerName config);
              logger_info "consumer updated successfully, consumerName: "
            else ret tt);
         ret false
     | None => ret false
     end)
    (fun err =>
       match err with
       | NatsError api_error =>
           do _ <- logger_error "error occurred due to reason:" (Some err);
           match api_error with
           | Some err_code => if err_code =? 10014 then ret true else ret false
           | None => throw TypeError
           end
       | _ => ret false
       end).

End Service.
End PubSubTsService.

(** ** The SES handler *)

(** [src/destination/destinationHandlers/sesHandler.ts]: the choice of the
    providers to notify in [getDefaultConfig], the callback of the user
    lookup in [processNotification], [preparePaylodAndSend] and the
    rendering of the mail in [sendNotification]. The repositories, the
    rules engine, the template renderer and the mail provider are outside:
    a call to one of them is an event of the trace. The callbacks the code
    registers on promises run later, one at a time, in an order the code
    does not fix: a schedule lists them in the order they run. *)
Module SesHandler.

Module Provider.
(** An element of [setting.config]: [p['dest']], [p['configId']] and
    [p['rule']['conditions']]; [rule] is [None] when [p] has no [rule] and
    [Some None] when the rule has no [conditions]. *)
Record t : Type := mk {
  dest : string;
  configId : Z;
  rule : option (option string)
}.
End Provider.

Module SESConfig.
(** The row [findDefaultSESConfig] resolves to; a column may be missing. *)
Record t : Type := mk {
  region : option string;
  access_key : option string;
  secret_access_key : option string;
  from_email : option string
}.
End SESConfig.

Module User.
Record t : Type := mk { email_id : string }.
End User.

Inductive SesEvent : Type :=
| FindDefaultSESConfig
| FindByUserId (userId : Z) (p : Provider.t)
| LogInfo (message : string)
| LogError (message : string) (err : option JsError)
| EngineRun (conditions : string)
| EngineResolved
| Render (template : string) (toEmail fromEmail : option string).

(** The handler's [sesConfig], the two maps handed to [handle], the two
    fields of [event.payload] the handler writes, and the trace. [R] is the
    state of the repositories. *)
Record World (R : Type) : Type := mkWorld {
  repo : R;
  sesConfig : option SESConfig.t;
  configsMap : gmap string bool;
  emailMap : gmap string bool;
  toEmail : option string;
  fromEmail : option string;
  trace : list SesEvent
}.
Arguments mkWorld {R} _ _ _ _ _ _ _.
Arguments repo {R} _.
Arguments sesConfig {R} _.
Arguments configsMap {R} _.
Arguments emailMap {R} _.
Arguments toEmail {R} _.
Arguments fromEmail {R} _.
Arguments trace {R} _.

(** A string value in a condition: [undefined] and the empty string are
    falsy. *)
Definition truthy (v : option string) : bool :=
  match v with
  | Some s => negb (String.eqb s EmptyString)
  | None => false
  end.

(** [!map.get(key)] on a [Map<string, boolean>]. *)
Definition not_set (map : gmap string bool) (key : string) : bool :=
  negb (default false (map !! key)).

(** [array.forEach(body)], and [set.forEach(body)] over a set of distinct
    objects in insertion order. *)
Fixpoint forEach {S A} (body : A -> M S unit) (l : list A) : M S unit :=
  match l with
  | [] => ret tt
  | x :: rest => do _ <- body x; forEach body rest
  end.

(** What can happen next while an event is handled, once its lookups are
    started: a user lookup of [processNotification] resolves and its
    callback runs; an engine run started by [preparePaylodAndSend] resolves
    and its callback runs; the handling of another event writes
    [this.sesConfig], a field of the handler that all events share. *)
Inductive Step : Type :=
| UserResolved (p : Provider.t) (user : option User.t)
| EngineRunResolved
| SesConfigWritten (config : option SESConfig.t).

(** The number of engine runs of a trace that are started and not yet
    resolved. *)
Definition pending (tr : list SesEvent) : nat :=
  fold_left (fun n e =>
               match e with
               | EngineRun _ => S n
               | EngineResolved => Nat.pred n
               | _ => n
               end) tr 0%nat.

Section Handler.

Context {R : Type}.

(** [sesConfigRepository.findDefaultSESConfig()]: it throws, or resolves
    to a row or to nothing. *)
Variable findDefaultSESConfig : R -> Res (option SESConfig.t) * R.

(** [engine.addRule({conditions, event})] of the rules engine: it returns,
    or throws on conditions it does not accept. *)
Variable addRule : string -> Res unit.

Definition emit (e : SesEvent) : M (World R) unit :=
  fun w =>
    (Return tt,
     mkWorld (repo w) (sesConfig w) (configsMap w) (emailMap w) (toEmail w)
             (fromEmail w) (trace w ++ [e])).

Definition await_findDefaultSESConfig : M (World R) (option SESConfig.t) :=
  fun w =>
    let '(r, repo') := findDefaultSESConfig (repo w) in
    (r, mkWorld repo' (sesConfig w) (configsMap w) (emailMap w) (toEmail w)
                (fromEmail w) (trace w ++ [FindDefaultSESConfig])).

Definition set_sesConfig (v : option SESConfig.t) : M (World R) unit :=
  fun w =>
    (Return tt,
     mkWorld (repo w) v (configsMap w) (emailMap w) (toEmail w) (fromEmail w)
             (trace w)).

Definition get_sesConfig : M (World R) (option SESConfig.t) :=
  fun w => (Return (sesConfig w), w).

Definition configsMap_not_set (key : string) : M (World R) bool :=
  fun w => (Return (not_set (configsMap w) key), w).

Definition configsMap_set (key : string) (v : bool) : M (World R) unit :=
  fun w =>
    (Return tt,
     mkWorld (repo w) (sesConfig w) (<[key := v]> (configsMap w)) (emailMap w)
             (toEmail w) (fromEmail w) (trace w)).

Definition emailMap_not_set (key : string) : M (World R) bool :=
  fun w => (Return (not_set (emailMap w) key), w).

Definition emailMap_set (key : string) (v : bool) : M (World R) unit :=
  fun w =>
    (Return tt,
     mkWorld (repo w) (sesConfig w) (configsMap w) (<[key := v]> (emailMap w))
             (toEmail w) (fromEmail w) (trace w)).

Definition set_toEmail (v : option string) : M (World R) unit :=
  fun w =>
    (Return tt,
     mkWorld (repo w) (sesConfig w) (configsMap w) (emailMap w) v
             (fromEmail w) (trace w)).

Definition set_fromEmail (v : option string) : M (World R) unit :=
  fun w =>
    (Return tt,
     mkWorld (repo w) (sesConfig w) (configsMap w) (emailMap w) (toEmail w) v
             (trace w)).

Definition payload_emails : M (World R) (option string * option string) :=
  fun w => (Return (toEmail w, fromEmail w), w).

(** [processNotification(userId, ..., p, emailMap)] up to its return: the
    user lookup is started and its callback registered. *)
Definition processNotification (userId : Z) (p : Provider.t)
  : M (World R) unit :=
  emit (FindByUserId userId p).

(** [p['dest'] + '-' + userId], for an integer [userId]. *)
Definition configKey (p : Provider.t) : string :=
  Provider.dest p +:+ "-" +:+ pretty (Provider.configId p).

(** [getDefaultConfig(providersSet, ...)]. *)
Definition getDefaultConfig (providersSet : list Provider.t)
  : M (World R) unit :=
  try_catch
    (do config <- await_findDefaultSESConfig;
     match config with
     | None => throw TypeError
     | Some config =>
         do _ <- set_sesConfig
                   (Some (SESConfig.mk (SESConfig.region config)
                            (SESConfig.access_key config)
                            (SESConfig.secret_access_key config)
                            (SESConfig.from_email config)));
         if truthy (SESConfig.from_email config)
         then
           forEach
             (fun p =>
                if String.eqb (Provider.dest p) "ses"
                then
                  let userId := Provider.configId p in
                  do fresh <- configsMap_not_set (configKey p);
                  if fresh
                  then
                    do _ <- processNotification userId p;
                    configsMap_set (configKey p) true
                  else ret tt
                else ret tt)
             providersSet
         else ret tt
     end)
    (fun error =>
       do _ <- emit (LogError "getDefaultConfig" (Some error));
       throw (OtherError "Unable to get default SES config")).

(** [sendNotification(event, sdk, template)] up to its first [await]: the
    template is rendered from [event.payload] as it is when the call is
    made. What the rendering, the parsing of its result or the provider
    throws rejects the promise of the call and does not reach the caller. *)
Definition sendNotification (template : string) : M (World R) unit :=
  do '(to, from) <- payload_emails;
  emit (Render template to from).

(** [preparePaylodAndSend(event, sesTemplate, setting, p)] up to its
    return. With conditions, the rule is added and the engine run is
    started: the mail is rendered by the callback of that run, not here.
    Without conditions the mail is rendered at once. The constructors of
    the SDK and of the engine, and the start of the engine run, are taken
    to return; reading [this.sesConfig] when it is [null] and [p['rule']]
    when [p] has none throws. *)
Definition preparePaylodAndSend (template : string) (p : Provider.t)
  : M (World R) unit :=
  do config <- get_sesConfig;
  match config with
  | None => throw TypeError
  | Some config =>
      do _ <- set_fromEmail (SESConfig.from_email config);
      match Provider.rule p with
      | None => throw TypeError
      | Some conditions =>
          if truthy conditions
          then
            let conditions := default EmptyString conditions in
            do _ <- lift (addRule conditions);
            emit (EngineRun conditions)
          else sendNotification template
      end
  end.

(** The callback [preparePaylodAndSend] registers on [engine.run(event)]:
    it runs when the engine run has resolved. *)
Definition engine_run_then (template : string) : M (World R) unit :=
  sendNotification template.

(** The callback [processNotification] registers on the user lookup. *)
Definition processNotification_then (correlationId template : string)
  (p : Provider.t) (user : option User.t) : M (World R) unit :=
  match user with
  | None =>
      do _ <- emit (LogInfo "no user found for id");
      emit (LogInfo correlationId)
  | Some user =>
      do fresh <- emailMap_not_set (User.email_id user);
      if fresh
      then
        do _ <- emailMap_set (User.email_id user) true;
        do _ <- set_toEmail (Some (User.email_id user));
        preparePaylodAndSend template p
      else emit (LogInfo "duplicate email filtered out")
  end.

(** One step of the handling of an event. A callback runs to its end
    before the next one starts. An engine run that resolves is one that was
    started and has not resolved yet: when there is none the step does
    nothing. *)
Definition step (correlationId template : string) (s : Step)
  : M (World R) unit :=
  match s with
  | UserResolved p user => processNotification_then correlationId template p user
  | EngineRunResolved =>
      fun w =>
        if (0 <? pending (trace w))%nat
        then (do _ <- emit EngineResolved; engine_run_then template) w
        else (Return tt, w)
  | SesConfigWritten config => set_sesConfig config
  end.

(** The steps of a schedule, one after the other. What a callback throws
    rejects its own promise: it does not undo what the callback did and
    does not reach the callbacks that run after it. *)
Fixpoint run (correlationId template : string) (steps : list Step)
  (w : World R) : World R :=
  match steps with
  | [] => w
  | s :: rest =>
      run correlationId template rest (step correlationId template s w).2
  end.

End Handler.

(** The user lookups started in a trace, by user id. *)
Definition lookups (tr : list SesEvent) : list Z :=
  omap (fun e => match e with FindByUserId id _ => Some id | _ => None end) tr.

(** The mails rendered in a trace, each by the [toEmail] of the payload it
    was rendered from. *)
Definition recipients (tr : list SesEvent) : list (option string) :=
  omap (fun e => match e with Render _ to _ => Some to | _ => None end) tr.

End SesHandler.

(** ** Reading a delivery log *)

(** The arguments the handler was called with, in order. *)
Definition callback_args (events : list DeliveryEvent) : list string :=
  omap (fun e => match e with CallbackInvoked s => Some s | _ => None end)
       events.

(** The message operations of a run: acknowledgments and the requests that
    would make the broker deliver again or stop delivering. *)
Definition msg_ops (events : list DeliveryEvent) : list DeliveryEvent :=
  omap (fun e => match e with
                 | MsgAck | MsgNak | MsgWorking | MsgTerm => Some e
                 | _ => None
                 end) events.

(** ** Reading the trace of the retry loop *)

(** The events of the trace that are the retry loop's own: the error line
    of a failed attempt, the backoff sleep, and the line of the last failed
    attempt. *)
Inductive RetryStep : Type :=
| AttemptFailed
| Slept (ms : Z)
| GaveUp.

Definition retry_step (e : Event) : option RetryStep :=
  match e with
  | Sleep ms => Some (Slept ms)
  | Log LError message _ =>
      if String.eqb message "unsuccessful in subscribing to NATS"
      then Some AttemptFailed
      else if String.eqb message
                "Maximum restart attempts reached. Exiting loop."
      then Some GaveUp
      else None
  | _ => None
  end.

Definition retry_steps (tr : list Event) : list RetryStep :=
  omap retry_step tr.

(** What [n] attempts that all fail leave in the trace: each one fails,
    a sleep of 5000 ms separates it from the next one, and the last one is
    followed by the closing line instead. *)
Fixpoint failed_attempts (n : nat) : list RetryStep :=
  match n with
  | O => []
  | S O => [AttemptFailed; GaveUp]
  | S n => AttemptFailed :: Slept 5000 :: failed_attempts n
  end.

Definition count_failed (steps : list RetryStep) : nat :=
  length (omap (fun s => match s with AttemptFailed => Some s | _ => None end)
               steps).

Definition count_slept (steps : list RetryStep) : nat :=
  length (omap (fun s => match s with Slept _ => Some s | _ => None end)
               steps).

(** A computation that adds nothing of the retry loop's own to the trace. *)
Definition quiet {B A} (m : M (World B) A) : Prop :=
  forall w, retry_steps (trace (m w).2) = retry_steps (trace w).

(** ** What the consumer reconciler aims at *)

(** A consumer configuration that [updateConsumer] finds nothing to change
    in, for a desired entry and the cluster information of the connection:
    its [ack_wait] is the desired one unless that is not positive, and its
    replica count is the desired one unless that is not positive or is
    above 1 on a connection without cluster information. *)
Definition conforms (desired : NatsConsumerConfig.t) (cluster : option string)
  (config : ConsumerConfig.t) : Prop :=
  (NatsConsumerConfig.ack_wait desired > 0 ->
   ConsumerConfig.ack_wait config = NatsConsumerConfig.ack_wait desired)
  /\ (NatsConsumerConfig.num_replicas desired > 0 ->
      ConsumerConfig.num_replicas config
      <> NatsConsumerConfig.num_replicas desired ->
      NatsConsumerConfig.num_replicas desired > 1 /\ cluster = None).

(** The configurations of the update calls among broker calls. *)
Definition consumer_updates (calls : list BrokerCall)
  : list (string * string * ConsumerConfig.t) :=
  omap (fun c => match c with
                 | ConsumersUpdate s n config => Some (s, n, config)
                 | _ => None
                 end) calls.

(** [k] attempts that fail and are each followed by the backoff sleep. *)
Fixpoint retried (k : nat) : list RetryStep :=
  match k with
  | O => []
  | S k => AttemptFailed :: Slept 5000 :: retried k
  end.

(** A computation that leaves the shared table of desired consumer entries
    related by [R] to what it was. *)
Definition keeps {B A}
  (R : relation (gmap string NatsConsumerConfig.t))
  (m : M (World B) A) : Prop :=
  forall w,
    R (NatsConsumerWiseConfigMapping w) (NatsConsumerWiseConfigMapping (m w).2).

(** Two tables that differ at most in the [num_replicas] of the entry of
    [consumerName]. *)
Definition same_but_replicas_of (consumerName : string)
  : relation (gmap string NatsConsumerConfig.t) :=
  fun table table' =>
    forall name,
      (name <> consumerName -> table' !! name = table !! name)
      /\ NatsConsumerConfig.ack_wait <$> table' !! name
         = NatsConsumerConfig.ack_wait <$> table !! name.

(** ** Reading a JSON string back *)

Definition hex_value (c : ascii) : nat :=
  let n := nat_of_ascii c in
  if (n <? 58)%nat then (n - 48)%nat else (n - 87)%nat.

(** The text between the quotes of a JSON string, with its escapes
    undone: the inverse of [json_escape_all], used to show that
    [JSON.stringify] loses nothing. A malformed escape ends the reading. *)
Fixpoint json_unescape (s : string) : string :=
  match s with
  | EmptyString => EmptyString
  | String c rest =>
      if Ascii.eqb c backslash
      then
        match rest with
        | String d rest' =>
            match nat_of_ascii d with
            | 98%nat => String "008"%char (json_unescape rest')
            | 116%nat => String "009"%char (json_unescape rest')
            | 110%nat => String "010"%char (json_unescape rest')
            | 102%nat => String "012"%char (json_unescape rest')
            | 114%nat => String "013"%char (json_unescape rest')
            | 34%nat => String quote (json_unescape rest')
            | 92%nat => String backslash (json_unescape rest')
            | 117%nat =>
                match rest' with
                | String _ (String _ (String h (String l rest''))) =>
                    String (ascii_of_nat (16 * hex_value h + hex_value l))
                           (json_unescape rest'')
                | _ => EmptyString
                end
            | _ => EmptyString
            end
        | EmptyString => EmptyString
        end
      else String c (json_unescape rest)
  end.

(** A computation whose events all satisfy [P]. *)
Definition emits {B A} (P : Event -> Prop) (m : M (World B) A) : Prop :=
  forall w, exists new, trace (m w).2 = trace w ++ new /\ Forall P new.

(** A broker call that is about the stream and the consumer of a binding,
    and, for the subscribe call, that carries the given options. *)
Definition addresses (topic : string) (binding : NatsTopic.t)
  (opts : ConsumerOpts.t) (e : Event) : Prop :=
  match e with
  | Broker c =>
      match c with
      | StreamsInfo s => s = NatsTopic.streamName binding
      | StreamsUpdate s _ => s = NatsTopic.streamName binding
      | StreamsAdd config =>
          StreamConfig.name config = Some (NatsTopic.streamName binding)
      | ConsumersInfo s n =>
          s = NatsTopic.streamName binding
          /\ n = NatsTopic.consumerName binding
      | ConsumersUpdate s n _ =>
          s = NatsTopic.streamName binding
          /\ n = NatsTopic.consumerName binding
      | ConsumersAdd s config =>
          s = NatsTopic.streamName binding
          /\ ConsumerConfig.name config = NatsTopic.consumerName binding
          /\ ConsumerConfig.durable_name config = NatsTopic.consumerName binding
          /\ ConsumerConfig.filter_subject config = topic
          /\ ConsumerConfig.deliver_group config = NatsTopic.queueName binding
          /\ ConsumerConfig.deliver_subject config
             = ConsumerConfig.deliver_subject (ConsumerOpts.config opts)
      | JsSubscribe t o => t = topic /\ o = opts
      end
  | _ => True
  end.

(** ** Worlds used in the examples *)

(** [StringCodec().decode] on a payload of 7-bit characters: each byte is
    its character. *)
Definition decode_ascii (bytes : list Byte.byte) : Res string :=
  Return (string_of_list_byte bytes).

(** A broker without state of its own: it reports the stream and the
    consumer it is given, or that they are not there (API errors 10059 and
    10014), and accepts every other call. *)
Definition fixed_respond (stream : option StreamConfig.t)
  (consumer : option ConsumerConfig.t) (c : BrokerCall) (b : unit)
  : Res (reply c) * unit :=
  match c return Res (reply c) * unit with
  | StreamsInfo _ =>
      match stream with
      | Some config => (Return (Some (StreamInfo.mk config)), b)
      | None => (Throw (NatsError (Some 10059)), b)
      end
  | ConsumersInfo _ _ =>
      match consumer with
      | Some config => (Return (Some (ConsumerInfo.mk config)), b)
      | None => (Throw (NatsError (Some 10014)), b)
      end
  | _ => (Return tt, b)
  end.

Definition fixed_broker (stream : option StreamConfig.t)
  (consumer : option ConsumerConfig.t) (cluster : option string) : Nats unit :=
  mkNats unit (fixed_respond stream consumer) (fun _ => cluster)
         (fun b => ("_INBOX.1", b)).

(** A broker that keeps the stream configurations it is given: [info] of
    an unknown stream throws the API error 10059, [update] and [add] store
    the configuration; it knows no consumer and accepts the other calls. *)
Definition stream_store_respond (c : BrokerCall)
  (b : gmap string StreamConfig.t)
  : Res (reply c) * gmap string StreamConfig.t :=
  match c return Res (reply c) * gmap string StreamConfig.t with
  | StreamsInfo streamName =>
      match b !! streamName with
      | Some config => (Return (Some (StreamInfo.mk config)), b)
      | None => (Throw (NatsError (Some 10059)), b)
      end
  | StreamsUpdate streamName config => (Return tt, <[streamName := config]> b)
  | StreamsAdd config =>
      (Return tt,
       <[default EmptyString (StreamConfig.name config) := config]> b)
  | ConsumersInfo _ _ => (Throw (NatsError (Some 10014)), b)
  | _ => (Return tt, b)
  end.

Definition stream_store : Nats (gmap string StreamConfig.t) :=
  mkNats _ stream_store_respond (fun _ => None) (fun b => ("_INBOX.1", b)).

(** A broker that keeps the configuration of one consumer: it reports it,
    an update replaces it; it reports the stream it is given and accepts
    the other calls. *)
Definition consumer_store_respond (stream : StreamConfig.t) (c : BrokerCall)
  (b : ConsumerConfig.t) : Res (reply c) * ConsumerConfig.t :=
  match c return Res (reply c) * ConsumerConfig.t with
  | StreamsInfo _ => (Return (Some (StreamInfo.mk stream)), b)
  | ConsumersInfo _ _ => (Return (Some (ConsumerInfo.mk b)), b)
  | ConsumersUpdate _ _ config => (Return tt, config)
  | _ => (Return tt, b)
  end.

Definition consumer_store (stream : StreamConfig.t) (cluster : option string)
  : Nats ConsumerConfig.t :=
  mkNats _ (consumer_store_respond stream) (fun _ => cluster)
         (fun b => ("_INBOX.1", b)).

(** A broker with room for one consumer: it reports the consumer it holds,
    or that there is none (API error 10014); an add or an update puts the
    configuration in. It reports the stream it is given and accepts the
    other calls. *)
Definition consumer_slot_respond (stream : StreamConfig.t) (c : BrokerCall)
  (b : option ConsumerConfig.t) : Res (reply c) * option ConsumerConfig.t :=
  match c return Res (reply c) * option ConsumerConfig.t with
  | StreamsInfo _ => (Return (Some (StreamInfo.mk stream)), b)
  | ConsumersInfo _ _ =>
      match b with
      | Some config => (Return (Some (ConsumerInfo.mk config)), b)
      | None => (Throw (NatsError (Some 10014)), b)
      end
  | ConsumersUpdate _ _ config => (Return tt, Some config)
  | ConsumersAdd _ config => (Return tt, Some config)
  | _ => (Return tt, b)
  end.

Definition consumer_slot (stream : StreamConfig.t) (cluster : option string)
  : Nats (option ConsumerConfig.t) :=
  mkNats _ (consumer_slot_respond stream) (fun _ => cluster)
         (fun b => ("_INBOX.1", b)).

(** The same broker with its subscribe call failing with [e]. *)
Definition subscribe_down {B} (e : JsError) (nats : Nats B) : Nats B :=
  mkNats B
    (fun c b =>
       match c return Res (reply c) * B with
       | JsSubscribe _ _ => (Throw e, b)
       | c' => respond nats c' b
       end)
    (info_cluster nats) (nextInbox nats).

(** A broker without state that answers every call by throwing [e]. *)
Definition failing (e : JsError) : Nats unit :=
  mkNats unit (fun c b => (Throw e, b)) (fun _ => None)
         (fun b => ("_INBOX.1", b)).

Definition topics_ex : gmap string NatsTopic.t :=
  {[ "T" := NatsTopic.mk "S" "Q" "C" ]}.
Definition streams_ex : gmap string NatsStreamConfig.t :=
  {[ "S" := NatsStreamConfig.mk 200 1 ]}.
Definition consumers_ex (ack_wait num_replicas : Z)
  : gmap string NatsConsumerConfig.t :=
  {[ "C" := NatsConsumerConfig.mk ack_wait num_replicas ]}.

(** * Properties *)

(** ** The config differ *)

Example checkConfigChangeReqd_ex1 :
  checkConfigChangeReqd (StreamConfig.mk (Some "S") 100 [Some "a"] 1)
                        (StreamConfig.mk None 200 [Some "b"] 0)
  = (true, StreamConfig.mk (Some "S") 200 [Some "a"; Some "b"] 1).
Proof. reflexivity. Qed.

(** With an empty desired array the subject compared and appended is
    [undefined]. *)
Example checkConfigChangeReqd_no_subject :
  checkConfigChangeReqd (StreamConfig.mk (Some "S") 100 [Some "a"] 1)
                        (StreamConfig.mk None 0 [] 0)
  = (true, StreamConfig.mk (Some "S") 100 [Some "a"; None] 1).
Proof. reflexivity. Qed.

Lemma includes_true l x : includes l x = true <-> x ∈ l.
Proof. unfold includes. apply bool_decide_eq_true. Qed.

Lemma includes_pushed l x : includes (l ++ [x]) x = true.
Proof. apply includes_true, elem_of_app. right. apply list_elem_of_singleton. reflexivity. Qed.

(** C6: on actual [{max_age: 100, subjects: ["a"]}], the desired
    [{max_age: 200, subjects: ["b"]}] gives [{max_age: 200, subjects:
    ["a","b"]}] and [true]; the desired [{max_age: 0, subjects: ["a"]}]
    leaves the actual configuration as it is and gives [false]. The other
    fields of both objects are arbitrary. *)
Theorem C6_checkConfigChangeReqd_examples
  (name name' : option string) (replicas replicas' : Z) :
  let actual := StreamConfig.mk name 100 [Some "a"] replicas in
  checkConfigChangeReqd actual (StreamConfig.mk name' 200 [Some "b"] replicas')
  = (true, StreamConfig.mk name 200 [Some "a"; Some "b"] replicas)
  /\ checkConfigChangeReqd actual (StreamConfig.mk name' 0 [Some "a"] replicas')
     = (false, actual).
Proof. split; reflexivity. Qed.

(** The differ reaches its fixed point in one call: on the object it has
    patched it changes nothing and answers [false]. *)
Lemma checkConfigChangeReqd_fixed (actual desired : StreamConfig.t) :
  let patched := (checkConfigChangeReqd actual desired).2 in
  checkConfigChangeReqd patched desired = (false, patched).
Proof.
  destruct actual as [n a subj r], desired as [n' a' subj' r'].
  unfold checkConfigChangeReqd; simpl.
  set (x := default None (subj' !! 0%nat)).
  destruct (negb (a' =? 0) && negb (a' =? a)) eqn:Hage; simpl;
    destruct (includes subj x) eqn:Hin; simpl.
  - rewrite Z.eqb_refl, andb_false_r. simpl. rewrite Hin. reflexivity.
  - rewrite Z.eqb_refl, andb_false_r. simpl. rewrite includes_pushed. reflexivity.
  - rewrite Hage. simpl. rewrite Hin. reflexivity.
  - rewrite Hage. simpl. rewrite includes_pushed. reflexivity.
Qed.

(** ** The stream reconciler *)

(** C7: a second call of [checkConfigChangeReqd] on the configuration the
    first call left, with the same desired configuration, returns [false];
    and a reconciliation that is told this configuration by the broker makes
    the info call and nothing else: no update request. An empty desired
    subject array is not excluded: the property holds for it as well. *)
Theorem C7_second_reconciliation_issues_no_update {B} (nats : Nats B)
  (actual desired : StreamConfig.t) (streamName : string)
  (w : World B) (b' : B) :
  let patched := (checkConfigChangeReqd actual desired).2 in
  respond nats (StreamsInfo streamName) (broker w)
  = (Return (Some (StreamInfo.mk patched)), b') ->
  (checkConfigChangeReqd patched desired).1 = false
  /\ addOrUpdateStream nats streamName desired w
     = (Return tt,
        mkWorld b' (NatsConsumerWiseConfigMapping w)
                (trace w ++ [Broker (StreamsInfo streamName)])).
Proof.
  intros patched Hinfo.
  pose proof (checkConfigChangeReqd_fixed actual desired) as Hfix.
  fold patched in Hfix. cbv zeta in Hfix.
  split; [rewrite Hfix; reflexivity|].
  unfold addOrUpdateStream, try_catch, bind, call.
  rewrite Hinfo. simpl. rewrite Hfix. reflexivity.
Qed.

Lemma C7_second_reconciliation_issues_no_update_witness :
  let desired := StreamConfig.mk None 200 [Some "b"] 0 in
  let actual := StreamConfig.mk (Some "S") 100 [Some "a"] 1 in
  let patched := StreamConfig.mk (Some "S") 200 [Some "a"; Some "b"] 1 in
  let w := mkWorld tt ∅ [] in
  (checkConfigChangeReqd patched desired).1 = false
  /\ addOrUpdateStream (fixed_broker (Some patched) None None) "S" desired w
     = (Return tt, mkWorld tt ∅ [Broker (StreamsInfo "S")]).
Proof.
  intros desired actual patched w.
  apply (C7_second_reconciliation_issues_no_update
           (fixed_broker (Some patched) None None) actual desired "S" w tt).
  reflexivity.
Defined.

(** Two reconciliations in a row against a broker that keeps what it is
    sent: the first one patches the stream, the second one only reads it. *)
Example addOrUpdateStream_twice :
  let desired := StreamConfig.mk None 200 [Some "b"] 0 in
  let actual := StreamConfig.mk (Some "S") 100 [Some "a"] 1 in
  let w0 := mkWorld ({[ "S" := actual ]} : gmap string StreamConfig.t) ∅ [] in
  let w1 := (addOrUpdateStream stream_store "S" desired w0).2 in
  let w2 := (addOrUpdateStream stream_store "S" desired w1).2 in
  broker_calls (trace w1)
  = [StreamsInfo "S";
     StreamsUpdate "S" (StreamConfig.mk (Some "S") 200 [Some "a"; Some "b"] 1)]
  /\ broker_calls (trace w2) = broker_calls (trace w1) ++ [StreamsInfo "S"].
Proof. vm_compute. split; reflexivity. Qed.

(** C8: when the stream-info fetch throws the API error 10059,
    [addOrUpdateStream] on the configuration [getStreamConfig] built asks
    the broker to add a stream named [streamName] with all the desired
    subjects and the desired [max_age], and makes no update call: the info
    call and the add call are its only broker calls. *)
Theorem C8_stream_created_when_not_found {B} (nats : Nats B)
  (GetStreamSubjects : string -> list string)
  (streamConfiguration : NatsStreamConfig.t) (streamName : string)
  (w : World B) (b' : B) :
  respond nats (StreamsInfo streamName) (broker w)
  = (Throw (NatsError (Some 10059)), b') ->
  let streamConfig :=
    getStreamConfig GetStreamSubjects streamConfiguration streamName in
  let created :=
    StreamConfig.mk (Some streamName)
      (NatsStreamConfig.max_age streamConfiguration)
      (Some <$> GetStreamSubjects streamName) 0 in
  let '(r, w') := addOrUpdateStream nats streamName streamConfig w in
  r = Return tt
  /\ broker_calls (trace w')
     = broker_calls (trace w) ++ [StreamsInfo streamName; StreamsAdd created].
Proof.
  intros Hinfo. cbv zeta.
  unfold addOrUpdateStream, try_catch, bind, call, logger_info, logger_error, record.
  rewrite Hinfo. simpl.
  destruct (respond nats (StreamsAdd _) b') as [[[]|e] b''] eqn:Hadd; simpl;
    (split; [reflexivity|]);
    unfold broker_calls; rewrite !omap_app; simpl;
    rewrite <- !app_assoc, ?app_nil_r; reflexivity.
Qed.

Lemma C8_stream_created_when_not_found_witness :
  let '(r, w') :=
    addOrUpdateStream (fixed_broker None None None) "S"
      (getStreamConfig (fun _ => ["a"; "b"]) (NatsStreamConfig.mk 200 3) "S")
      (mkWorld tt ∅ []) in
  r = Return tt
  /\ broker_calls (trace w')
     = [StreamsInfo "S";
        StreamsAdd (StreamConfig.mk (Some "S") 200 [Some "a"; Some "b"] 0)].
Proof.
  apply (C8_stream_created_when_not_found (fixed_broker None None None)
           (fun _ => ["a"; "b"]) (NatsStreamConfig.mk 200 3) "S"
           (mkWorld tt ∅ []) tt).
  reflexivity.
Defined.

(** ** Unknown topic *)

(** C10: for a topic that the topic mapping does not hold, [Subscribe]
    throws a [TypeError] and leaves the world as it found it: no broker
    call, no inbox, no log line, no sleep; the retry loop is not entered. *)
Theorem C10_unknown_topic_throws {B} (nats : Nats B)
  (NatsTopicMapping : gmap string NatsTopic.t)
  (NatsStreamWiseConfigMapping : gmap string NatsStreamConfig.t)
  (GetStreamSubjects : string -> list string) (numberOfRetries : nat)
  (decode : list Byte.byte -> Res string)
  (topic : string) (callback : string -> Res unit) (w : World B) :
  NatsTopicMapping !! topic = None ->
  Subscribe nats NatsTopicMapping NatsStreamWiseConfigMapping
            GetStreamSubjects numberOfRetries decode topic callback w
  = (Throw TypeError, w).
Proof. intros Hnone. unfold Subscribe. rewrite Hnone. reflexivity. Qed.

Lemma C10_unknown_topic_throws_witness :
  Subscribe (fixed_broker None None None) topics_ex streams_ex
            (fun _ => ["T"]) 3 decode_ascii "unknown" (fun _ => Return tt)
            (mkWorld tt ∅ [])
  = (Throw TypeError, mkWorld tt ∅ []).
Proof.
  apply (C10_unknown_topic_throws (fixed_broker None None None) topics_ex
           streams_ex (fun _ => ["T"]) 3 decode_ascii "unknown"
           (fun _ => Return tt) (mkWorld tt ∅ [])).
  reflexivity.
Defined.

(** ** The delivery callback *)

Lemma string_length_app (s1 s2 : string) :
  String.length (s1 +:+ s2) = (String.length s1 + String.length s2)%nat.
Proof.
  induction s1 as [|c s1 IH]; [reflexivity|].
  change (S (String.length (s1 +:+ s2))
          = S (String.length s1 + String.length s2)).
  rewrite IH. reflexivity.
Qed.

Lemma json_escape_length (c : ascii) : (1 <= String.length (json_escape c))%nat.
Proof.
  destruct c as [[] [] [] [] [] [] [] []]; vm_compute; lia.
Qed.

Lemma json_escape_all_length (s : string) :
  (String.length s <= String.length (json_escape_all s))%nat.
Proof.
  induction s as [|c s IH]; simpl; [lia|].
  rewrite string_length_app.
  pose proof (json_escape_length c). lia.
Qed.

(** [JSON.stringify] of a text is never that text: it is longer by the two
    quotes at least. *)
Lemma JSON_stringify_neq (s : string) : JSON_stringify s <> s.
Proof.
  intros Heq. apply (f_equal String.length) in Heq.
  unfold JSON_stringify in Heq. simpl in Heq.
  rewrite string_length_app in Heq. simpl in Heq.
  pose proof (json_escape_all_length s). lia.
Qed.






(** The two runs of that example: in [part_000] the callback acknowledges
    and the client's own acknowledgment is not sent a second time; in
    [pubSub.ts] the callback does not acknowledge and the client does. *)
Example delivery_of_a_failing_handler :
  let handler := fun _ : string => Throw (OtherError "handler failed") in
  let msg := Msg.mk [Byte.x61] in
  let failure := LoggedError [Byte.x61] (OtherError "handler failed") in
  (NatsClient.dispatch false AckExplicit
     (deliveryCallback decode_ascii handler) msg []).2
  = [CallbackInvoked (JSON_stringify "a"); failure; MsgAck; MsgAck]
  /\ (NatsClient.dispatch false AckExplicit
        (PubSubTs.deliveryCallback decode_ascii handler) msg []).2
     = [CallbackInvoked (JSON_stringify "a"); failure; MsgAck]
  /\ (NatsClient.dispatch true AckExplicit
        (PubSubTs.deliveryCallback decode_ascii handler) msg []).2
     = [CallbackInvoked (JSON_stringify "a"); failure].
Proof. repeat split. Qed.

(** C9 as stated fails: the handler is not called with the decoded text. On
    the one-byte payload [a] the decoded text is [a] and the handler gets
    the three characters of its JSON form. *)
Lemma C9_counterexample_handler_argument_is_not_the_text :
  ~ (forall (decode : list Byte.byte -> Res string)
            (callback : string -> Res unit) (msg : Msg.t) (text : string),
        decode (Msg.data msg) = Return text ->
        CallbackInvoked text ∈ (deliveryCallback decode callback msg []).2).
Proof.
  intros Hclaim.
  specialize (Hclaim decode_ascii (fun _ => Return tt) (Msg.mk [Byte.x61]) "a"
                     eq_refl).
  vm_compute in Hclaim.
  apply elem_of_cons in Hclaim as [Heq|Hin]; [discriminate Heq|].
  apply elem_of_cons in Hin as [Heq|Hin]; [discriminate Heq|].
  apply elem_of_nil in Hin. exact Hin.
Qed.

(** C9, amended: when the payload decodes to [text], the handler is called
    once, with [JSON.stringify(text)], which is the text escaped and put
    between double quotes and so differs from the text. *)
Theorem C9_handler_gets_JSON_string (decode : list Byte.byte -> Res string)
  (callback : string -> Res unit) (msg : Msg.t) (text : string)
  (log : list DeliveryEvent) :
  decode (Msg.data msg) = Return text ->
  callback_args (deliveryCallback decode callback msg log).2
  = callback_args log ++ [JSON_stringify text]
  /\ JSON_stringify text <> text.
Proof.
  intros Hdecode. split; [|apply JSON_stringify_neq].
  unfold deliveryCallback, try_catch, bind, lift, emit, getJsonString.
  rewrite Hdecode. simpl.
  destruct (callback (JSON_stringify text)) as [[]|e]; simpl;
    unfold callback_args; rewrite !omap_app; simpl;
    rewrite ?app_nil_r; reflexivity.
Qed.

Lemma C9_handler_gets_JSON_string_witness :
  callback_args
    (deliveryCallback decode_ascii (fun _ => Return tt)
                      (Msg.mk [Byte.x61]) []).2
  = [] ++ [JSON_stringify "a"]
  /\ JSON_stringify "a" <> "a".
Proof.
  apply (C9_handler_gets_JSON_string decode_ascii (fun _ => Return tt)
           (Msg.mk [Byte.x61]) "a" []).
  reflexivity.
Defined.

(** ** The consumer reconciler *)

(** C3: with the desired [num_replicas] 0 and a stream that reports 3
    replicas, the creation block sends the consumer with [num_replicas] 0
    and does not fetch the stream; and on an existing consumer with one
    replica and the desired [ack_wait], [updateConsumer] fetches the stream
    and sends no update. *)
Theorem C3_zero_replicas_not_inherited :
  let stream := StreamConfig.mk (Some "S") 200 [Some "T"] 3 in
  let binding := NatsTopic.mk "S" "Q" "C" in
  let w := mkWorld tt (consumers_ex 30 0) [] in
  let existing :=
    ConsumerConfig.mk "C" "_INBOX.0" "C" 30 1 "T" "Q" AckExplicit DeliverLast in
  broker_calls
    (trace (createConsumer (fixed_broker (Some stream) None (Some "c1"))
                           "T" binding "_INBOX.1" w).2)
  = [ConsumersAdd "S"
       (ConsumerConfig.mk "C" "_INBOX.1" "C" 30 0 "T" "Q"
                          AckExplicit DeliverLast)]
  /\ updateConsumer (fixed_broker (Some stream) (Some existing) (Some "c1"))
                    "S" "C" (NatsConsumerConfig.mk 30 0) w
     = (Return false,
        mkWorld tt (consumers_ex 30 0)
                [Broker (ConsumersInfo "S" "C"); Broker (StreamsInfo "S")]).
Proof. split; reflexivity. Qed.

(** What [updateConsumer] sends when it does send an update with the desired
    [num_replicas] 0: the replica count the stream has just reported. *)
Lemma updateConsumer_zero_replicas_update {B} (nats : Nats B)
  (streamName consumerName : string) (desired : NatsConsumerConfig.t)
  (info : ConsumerInfo.t) (streamInfo : StreamInfo.t) (w : World B)
  (b1 b2 : B) :
  NatsConsumerConfig.num_replicas desired = 0 ->
  respond nats (ConsumersInfo streamName consumerName) (broker w)
  = (Return (Some info), b1) ->
  respond nats (StreamsInfo streamName) b1 = (Return (Some streamInfo), b2) ->
  forall config,
    ConsumersUpdate streamName consumerName config
    ∈ broker_calls (trace (updateConsumer nats streamName consumerName
                                          desired w).2) ->
    ConsumersUpdate streamName consumerName config ∉ broker_calls (trace w) ->
    ConsumerConfig.num_replicas config
    = StreamConfig.num_replicas (StreamInfo.config streamInfo).
Proof.
  intros Hzero Hinfo Hstream config Hin Hfresh.
  revert Hin.
  unfold updateConsumer, try_catch, bind, call, ret, throw, nc_info_cluster,
    logger_info, logger_warn, logger_error, record.
  rewrite Hinfo. cbn [broker trace NatsConsumerWiseConfigMapping].
  destruct (_ && _) eqn:Hack; cbn [broker trace NatsConsumerWiseConfigMapping];
    rewrite Hstream, Hzero; cbn;
    try (destruct (respond nats (ConsumersUpdate _ _ _) b2) as [[[]|[[code|]| |]] b3];
         cbn; try destruct (code =? 10014); cbn);
    unfold broker_calls; rewrite ?omap_app; cbn; rewrite ?app_nil_r;
    rewrite ?elem_of_app, ?list_elem_of_singleton;
    intros Hin; decompose [or] Hin; try discriminate;
    try (exfalso; apply Hfresh; assumption);
    match goal with H : ConsumersUpdate _ _ _ = ConsumersUpdate _ _ _ |- _ =>
      injection H as -> end; reflexivity.
Qed.

(** The run of the creation block is fixed by the desired entry, the
    cluster information and, when the guard on the replicas holds, by the
    answer to the stream-info fetch. *)
Lemma createConsumer_calls {B} (nats : Nats B) (topic : string)
  (binding : NatsTopic.t) (inbox : string) (desired : NatsConsumerConfig.t)
  (w : World B) :
  let streamName := NatsTopic.streamName binding in
  let consumerName := NatsTopic.consumerName binding in
  let queueName := NatsTopic.queueName binding in
  NatsConsumerWiseConfigMapping w !! consumerName = Some desired ->
  let '(r, w') := createConsumer nats topic binding inbox w in
  r = Return tt
  /\ broker_calls (trace w')
     = broker_calls (trace w) ++
       if (NatsConsumerConfig.num_replicas desired >? 1)
          && bool_decide (info_cluster nats (broker w) = None)
       then
         StreamsInfo streamName ::
         match (respond nats (StreamsInfo streamName) (broker w)).1 with
         | Return (Some streamInfo) =>
             [ConsumersAdd streamName
                (consumerObject topic inbox consumerName queueName
                   (NatsConsumerConfig.set_num_replicas
                      (StreamConfig.num_replicas (StreamInfo.config streamInfo))
                      desired))]
         | Return None =>
             [ConsumersAdd streamName
                (consumerObject topic inbox consumerName queueName desired)]
         | Throw _ => []
         end
       else
         [ConsumersAdd streamName
            (consumerObject topic inbox consumerName queueName desired)].
Proof.
  intros streamName consumerName queueName Hdesired.
  unfold createConsumer, try_catch, bind, call, ret, throw, nc_info_cluster,
    consumerConfiguration, set_consumerConfiguration_num_replicas,
    logger_info, logger_warn, logger_error, record.
  fold streamName consumerName queueName.
  rewrite Hdesired. cbn [broker trace NatsConsumerWiseConfigMapping].
  destruct (_ && _) eqn:Hguard; cbn [broker trace NatsConsumerWiseConfigMapping].
  - destruct (respond nats (StreamsInfo streamName) (broker w))
      as [[[streamInfo|]|e] b1]; cbn.
    + rewrite lookup_alter_eq, Hdesired. cbn.
      destruct (respond nats (ConsumersAdd _ _) b1) as [[[]|e] b2]; cbn;
        (split; [reflexivity|]);
        unfold broker_calls; rewrite !omap_app; cbn;
        rewrite <- ?app_assoc, ?app_nil_r; reflexivity.
    + rewrite Hdesired. cbn.
      destruct (respond nats (ConsumersAdd _ _) b1) as [[[]|e] b2]; cbn;
        (split; [reflexivity|]);
        unfold broker_calls; rewrite !omap_app; cbn;
        rewrite <- ?app_assoc, ?app_nil_r; reflexivity.
    + split; [reflexivity|].
      unfold broker_calls; rewrite !omap_app; cbn;
        rewrite <- ?app_assoc, ?app_nil_r; reflexivity.
  - rewrite Hdesired. cbn.
    destruct (respond nats (ConsumersAdd _ _) (broker w)) as [[[]|e] b2]; cbn;
      (split; [reflexivity|]);
      unfold broker_calls; rewrite !omap_app; cbn;
      rewrite <- ?app_assoc, ?app_nil_r; reflexivity.
Qed.

(** [addOrUpdateStream] does not write into the table of desired consumer
    entries. *)
Lemma addOrUpdateStream_table {B} (nats : Nats B) (streamName : string)
  (streamConfig : StreamConfig.t) (w : World B) :
  NatsConsumerWiseConfigMapping (addOrUpdateStream nats streamName streamConfig w).2
  = NatsConsumerWiseConfigMapping w.
Proof.
  unfold addOrUpdateStream, try_catch, bind, call, ret, throw, logger_info,
    logger_error, record.
  repeat (cbn;
          match goal with
          | |- context [respond ?n ?c ?b] =>
              destruct (respond n c b) as [[?|[[?|]| |?]] ?]
          | |- context [checkConfigChangeReqd ?x ?y] =>
              destruct (checkConfigChangeReqd x y) as [[] ?]
          | |- context [if ?c then _ else _] => destruct c
          | |- context [match ?x with Some _ => _ | None => _ end] =>
              destruct x
          end); reflexivity.
Qed.

(** An attempt in which the stream reconciliation returns and the
    consumer-info call throws the API error 10014: [updateConsumer] returns
    [true] and the attempt goes on with the creation block, then the
    subscribe call. *)
Lemma attempt_when_consumer_absent {B} (nats : Nats B) (topic : string)
  (binding : NatsTopic.t) (inbox : string) (streamConfigParsed : StreamConfig.t)
  (consumerOptsDetails : ConsumerOpts.t) (desired : NatsConsumerConfig.t)
  (w w1 : World B) (b2 : B) :
  let streamName := NatsTopic.streamName binding in
  let consumerName := NatsTopic.consumerName binding in
  addOrUpdateStream nats streamName streamConfigParsed w = (Return tt, w1) ->
  NatsConsumerWiseConfigMapping w !! consumerName = Some desired ->
  respond nats (ConsumersInfo streamName consumerName) (broker w1)
  = (Throw (NatsError (Some 10014)), b2) ->
  let w2 :=
    mkWorld b2 (NatsConsumerWiseConfigMapping w1)
      (trace w1 ++ [Broker (ConsumersInfo streamName consumerName);
                    Log LError "error occurred due to :"
                        (Some (NatsError (Some 10014)))]) in
  updateConsumer nats streamName consumerName desired w1 = (Return true, w2)
  /\ NatsConsumerWiseConfigMapping w2 !! consumerName = Some desired
  /\ attempt nats topic binding inbox streamConfigParsed consumerOptsDetails w
     = (do _ <- createConsumer nats topic binding inbox;
        do _ <- call nats (JsSubscribe topic consumerOptsDetails);
        logger_info "subscribed to nats successfully") w2.
Proof.
  intros streamName consumerName Hstream Hdesired Hinfo w2.
  assert (Htable : NatsConsumerWiseConfigMapping w1 !! consumerName
                   = Some desired).
  { pose proof (addOrUpdateStream_table nats streamName streamConfigParsed w)
      as Hkept.
    fold streamName in Hkept. rewrite Hstream in Hkept. cbn [snd] in Hkept.
    rewrite Hkept. exact Hdesired. }
  assert (Hupdate :
            updateConsumer nats streamName consumerName desired w1
            = (Return true, w2)).
  { unfold updateConsumer, try_catch, bind, call, ret, logger_error, record.
    rewrite Hinfo. cbn. rewrite <- app_assoc. reflexivity. }
  split; [exact Hupdate|]. split; [exact Htable|].
  unfold attempt. fold streamName consumerName.
  unfold bind at 1. rewrite Hstream.
  unfold bind at 1. unfold consumerConfiguration at 1. rewrite Htable.
  unfold bind at 1. rewrite Hupdate. reflexivity.
Qed.

(** The subscribe call and the line that follows it add one broker call to
    the trace and leave the table alone. *)
Lemma subscribe_tail {B} (nats : Nats B) (topic : string)
  (consumerOptsDetails : ConsumerOpts.t) (w : World B) :
  let w' :=
    ((do _ <- call nats (JsSubscribe topic consumerOptsDetails);
      logger_info "subscribed to nats successfully") w).2 in
  (exists tail,
      trace w' = trace w ++ Broker (JsSubscribe topic consumerOptsDetails) :: tail
      /\ broker_calls tail = [])
  /\ NatsConsumerWiseConfigMapping w' = NatsConsumerWiseConfigMapping w.
Proof.
  unfold bind, call, logger_info, record.
  destruct (respond nats (JsSubscribe topic consumerOptsDetails) (broker w))
    as [[[]|e] b]; cbn.
  - split; [|reflexivity].
    exists [Log LInfo "subscribed to nats successfully" None].
    rewrite <- app_assoc. split; reflexivity.
  - split; [|reflexivity]. exists []. split; reflexivity.
Qed.

(** The creation block when the desired [num_replicas] is above 1 and the
    connection reports no cluster information: the warning and the
    stream-info fetch come first, whatever the fetch answers. *)
Lemma createConsumer_guarded {B} (nats : Nats B) (topic : string)
  (binding : NatsTopic.t) (inbox : string) (desired : NatsConsumerConfig.t)
  (w : World B) :
  let streamName := NatsTopic.streamName binding in
  let consumerName := NatsTopic.consumerName binding in
  let queueName := NatsTopic.queueName binding in
  NatsConsumerWiseConfigMapping w !! consumerName = Some desired ->
  NatsConsumerConfig.num_replicas desired > 1 ->
  info_cluster nats (broker w) = None ->
  exists w' rest,
    createConsumer nats topic binding inbox w = (Return tt, w')
    /\ trace w'
       = trace w ++
         Log LWarn "replicas > 1 is not possible in non clustered mode" None ::
         Broker (StreamsInfo streamName) :: rest
    /\ match (respond nats (StreamsInfo streamName) (broker w)).1 with
       | Return (Some streamInfo) =>
           let inherited :=
             StreamConfig.num_replicas (StreamInfo.config streamInfo) in
           broker_calls rest
           = [ConsumersAdd streamName
                (consumerObject topic inbox consumerName queueName
                   (NatsConsumerConfig.set_num_replicas inherited desired))]
           /\ NatsConsumerWiseConfigMapping w'
              = alter (NatsConsumerConfig.set_num_replicas inherited)
                      consumerName (NatsConsumerWiseConfigMapping w)
       | Return None =>
           broker_calls rest
           = [ConsumersAdd streamName
                (consumerObject topic inbox consumerName queueName desired)]
           /\ NatsConsumerWiseConfigMapping w' = NatsConsumerWiseConfigMapping w
       | Throw _ =>
           broker_calls rest = []
           /\ NatsConsumerWiseConfigMapping w' = NatsConsumerWiseConfigMapping w
       end.
Proof.
  intros streamName consumerName queueName Hdesired Hmany Hcluster.
  assert (Hgt1 : (NatsConsumerConfig.num_replicas desired >? 1) = true)
    by (apply Z.gtb_lt; lia).
  unfold createConsumer, try_catch, bind, call, ret, throw, nc_info_cluster,
    consumerConfiguration, set_consumerConfiguration_num_replicas,
    logger_info, logger_warn, logger_error, record.
  fold streamName consumerName queueName.
  rewrite Hdesired. cbn [broker trace NatsConsumerWiseConfigMapping].
  rewrite Hgt1, Hcluster. cbn.
  destruct (respond nats (StreamsInfo streamName) (broker w))
    as [[[streamInfo|]|e] b1]; cbn.
  - rewrite lookup_alter_eq, Hdesired. cbn.
    destruct (respond nats (ConsumersAdd _ _) b1) as [[[]|e] b2]; cbn;
      eexists _, _; (split; [reflexivity|]);
      rewrite <- !app_assoc; cbn [app];
      (split; [reflexivity|]); split; reflexivity.
  - rewrite Hdesired. cbn.
    destruct (respond nats (ConsumersAdd _ _) b1) as [[[]|e] b2]; cbn;
      eexists _, _; (split; [reflexivity|]);
      rewrite <- !app_assoc; cbn [app];
      (split; [reflexivity|]); split; reflexivity.
  - eexists _, _. split; [reflexivity|].
    rewrite <- !app_assoc. cbn [app].
    split; [reflexivity|]. split; reflexivity.
Qed.

(** C5 as stated fails: with the desired [num_replicas] 2 on a connection
    without cluster information, the broker action of the attempt that
    follows the not-found answer is the stream-info fetch of the creation
    block; the creation call comes after it. *)
Lemma C5_counterexample_stream_fetch_precedes_creation :
  let stream := StreamConfig.mk (Some "S") 200 [Some "T"] 3 in
  let nats := fixed_broker (Some stream) None None in
  let binding := NatsTopic.mk "S" "Q" "C" in
  let w := mkWorld tt (consumers_ex 30 2) [] in
  let opts :=
    ConsumerOpts.mk
      (consumerObject "T" "_INBOX.1" "C" "Q" (NatsConsumerConfig.mk 30 2))
      "S" (deliveryCallback decode_ascii (fun _ => Return tt)) "Q" in
  let '(r, w1) := updateConsumer nats "S" "C" (NatsConsumerConfig.mk 30 2) w in
  let by_hand :=
    broker_calls (trace (createConsumer nats "T" binding "_INBOX.1" w1).2) in
  let calls :=
    broker_calls (trace (attempt nats "T" binding "_INBOX.1" stream opts w).2) in
  r = Return true
  /\ by_hand !! 0%nat = Some (ConsumersInfo "S" "C")
  /\ by_hand !! 1%nat = Some (StreamsInfo "S")
  /\ by_hand !! 2%nat
     = Some (ConsumersAdd "S"
               (ConsumerConfig.mk "C" "_INBOX.1" "C" 30 3 "T" "Q"
                                  AckExplicit DeliverLast))
  /\ calls
     = [StreamsInfo "S"; ConsumersInfo "S" "C"; StreamsInfo "S";
        ConsumersAdd "S"
          (ConsumerConfig.mk "C" "_INBOX.1" "C" 30 3 "T" "Q"
                             AckExplicit DeliverLast);
        JsSubscribe "T" opts].
Proof. repeat split. Qed.

(** C5, amended: in an attempt of [Subscribe] whose stream reconciliation
    returns and whose consumer-info call throws the API error 10014,
    [updateConsumer] returns [true] having made that call only, and the
    attempt then makes one creation call with ack policy Explicit, deliver
    policy Last, durable name the consumer name, filter subject the topic
    and delivery group the queue group of the binding, followed by the
    subscribe call. The creation call is the next broker action unless the
    desired [num_replicas] is above 1 and the connection reports no cluster
    information, where a stream-info fetch comes first and the creation
    call follows unless the fetch throws. *)
Theorem C5_creation_on_absence {B} (nats : Nats B) (topic : string)
  (binding : NatsTopic.t) (inbox : string) (streamConfigParsed : StreamConfig.t)
  (consumerOptsDetails : ConsumerOpts.t) (desired : NatsConsumerConfig.t)
  (w w1 : World B) (b2 : B) :
  let streamName := NatsTopic.streamName binding in
  let consumerName := NatsTopic.consumerName binding in
  let queueName := NatsTopic.queueName binding in
  addOrUpdateStream nats streamName streamConfigParsed w = (Return tt, w1) ->
  NatsConsumerWiseConfigMapping w !! consumerName = Some desired ->
  respond nats (ConsumersInfo streamName consumerName) (broker w1)
  = (Throw (NatsError (Some 10014)), b2) ->
  let w2 :=
    mkWorld b2 (NatsConsumerWiseConfigMapping w1)
      (trace w1 ++ [Broker (ConsumersInfo streamName consumerName);
                    Log LError "error occurred due to :"
                        (Some (NatsError (Some 10014)))]) in
  let created replicas :=
    ConsumersAdd streamName
      (ConsumerConfig.mk consumerName inbox consumerName
         (NatsConsumerConfig.ack_wait desired) replicas topic queueName
         AckExplicit DeliverLast) in
  updateConsumer nats streamName consumerName desired w1 = (Return true, w2)
  /\ broker_calls
       (trace (attempt nats topic binding inbox streamConfigParsed
                       consumerOptsDetails w).2)
     = broker_calls (trace w1) ++
       ConsumersInfo streamName consumerName ::
       (if (NatsConsumerConfig.num_replicas desired >? 1)
           && bool_decide (info_cluster nats b2 = None)
        then
          StreamsInfo streamName ::
          match (respond nats (StreamsInfo streamName) b2).1 with
          | Return (Some streamInfo) =>
              [created (StreamConfig.num_replicas (StreamInfo.config streamInfo))]
          | Return None => [created (NatsConsumerConfig.num_replicas desired)]
          | Throw _ => []
          end
        else [created (NatsConsumerConfig.num_replicas desired)])
       ++ [JsSubscribe topic consumerOptsDetails].
Proof.
  intros streamName consumerName queueName Hstream Hdesired Hinfo w2 created.
  destruct (attempt_when_consumer_absent nats topic binding inbox
              streamConfigParsed consumerOptsDetails desired w w1 b2
              Hstream Hdesired Hinfo) as (Hupdate & Htable & Hattempt).
  fold streamName consumerName w2 in Hupdate, Htable, Hattempt.
  split; [exact Hupdate|].
  rewrite Hattempt. unfold bind at 1.
  pose proof (createConsumer_calls nats topic binding inbox desired w2 Htable)
    as Hcreate.
  destruct (createConsumer nats topic binding inbox w2) as [r w3].
  destruct Hcreate as [-> Hcalls].
  destruct (subscribe_tail nats topic consumerOptsDetails w3)
    as [(tail & Htrace & Htail) _].
  rewrite Htrace.
  unfold broker_calls in *. rewrite omap_app. cbn [omap list_omap].
  rewrite Htail, Hcalls.
  replace (omap _ (trace w2))
    with (omap (fun e => match e with Broker c => Some c | _ => None end)
               (trace w1) ++ [ConsumersInfo streamName consumerName])
    by (unfold w2; cbn [trace]; rewrite omap_app; reflexivity).
  rewrite <- !app_assoc. reflexivity.
Qed.

Lemma C5_creation_on_absence_witness :
  let nats := fixed_broker None None None in
  let binding := NatsTopic.mk "S" "Q" "C" in
  let stream := StreamConfig.mk None 200 [Some "T"] 1 in
  let opts :=
    ConsumerOpts.mk
      (consumerObject "T" "_INBOX.1" "C" "Q" (NatsConsumerConfig.mk 30 0))
      "S" (deliveryCallback decode_ascii (fun _ => Return tt)) "Q" in
  let w := mkWorld tt (consumers_ex 30 0) [] in
  let w1 :=
    mkWorld tt (consumers_ex 30 0)
      [Broker (StreamsInfo "S");
       Broker (StreamsAdd (StreamConfig.mk (Some "S") 200 [Some "T"] 1));
       Log LInfo "stream added successfully" None] in
  let w2 :=
    mkWorld tt (consumers_ex 30 0)
      (trace w1 ++
       [Broker (ConsumersInfo "S" "C");
        Log LError "error occurred due to :" (Some (NatsError (Some 10014)))]) in
  updateConsumer nats "S" "C" (NatsConsumerConfig.mk 30 0) w1 = (Return true, w2)
  /\ broker_calls (trace (attempt nats "T" binding "_INBOX.1" stream opts w).2)
     = [StreamsInfo "S";
        StreamsAdd (StreamConfig.mk (Some "S") 200 [Some "T"] 1)] ++
       ConsumersInfo "S" "C" ::
       [ConsumersAdd "S"
          (ConsumerConfig.mk "C" "_INBOX.1" "C" 30 0 "T" "Q"
                             AckExplicit DeliverLast)] ++
       [JsSubscribe "T" opts].
Proof.
  intros nats binding stream opts w w1 w2.
  apply (C5_creation_on_absence nats "T" binding "_INBOX.1" stream opts
           (NatsConsumerConfig.mk 30 0) w w1 tt); reflexivity.
Defined.

(** C4 as stated fails on the update path: with the desired [num_replicas]
    2 and no cluster information, no warning is logged when the consumer
    already reports 2 replicas, nor when the stream-info fetch throws. *)
Lemma C4_counterexample_no_warning :
  let stream := StreamConfig.mk (Some "S") 200 [Some "T"] 1 in
  let existing replicas :=
    ConsumerConfig.mk "C" "_INBOX.0" "C" 30 replicas "T" "Q"
                      AckExplicit DeliverLast in
  let desired := NatsConsumerConfig.mk 30 2 in
  let w := mkWorld tt (consumers_ex 30 2) [] in
  let warning :=
    Log LWarn "replicas > 1 is not possible in non clustered mode" None in
  let same := fixed_broker (Some stream) (Some (existing 2)) None in
  let no_stream := fixed_broker None (Some (existing 1)) None in
  (NatsConsumerConfig.num_replicas desired > 1)
  /\ info_cluster same tt = None
  /\ info_cluster no_stream tt = None
  /\ updateConsumer same "S" "C" desired w
     = (Return false,
        mkWorld tt (consumers_ex 30 2)
                [Broker (ConsumersInfo "S" "C"); Broker (StreamsInfo "S")])
  /\ (warning ∉ trace (updateConsumer same "S" "C" desired w).2)
  /\ updateConsumer no_stream "S" "C" desired w
     = (Return false,
        mkWorld tt (consumers_ex 30 2)
                [Broker (ConsumersInfo "S" "C"); Broker (StreamsInfo "S");
                 Log LError "error occurred due to :"
                     (Some (NatsError (Some 10059)))])
  /\ (warning ∉ trace (updateConsumer no_stream "S" "C" desired w).2).
Proof.
  cbv zeta. repeat split; try reflexivity.
  - vm_compute. intros Hin.
    repeat (apply elem_of_cons in Hin as [Heq|Hin]; [discriminate Heq|]).
    apply elem_of_nil in Hin. exact Hin.
  - vm_compute. intros Hin.
    repeat (apply elem_of_cons in Hin as [Heq|Hin]; [discriminate Heq|]).
    apply elem_of_nil in Hin. exact Hin.
Qed.

(** C4, amended: with the desired [num_replicas] above 1 on a connection
    that reports no cluster information,
    - on the update path, when the consumer and the stream are reported and
      the consumer's replica count differs from the desired one, the warning
      is logged and the replica count is left as reported: the only update
      that can follow is the one for [ack_wait], and it carries the reported
      count;
    - on the creation path, that is in an attempt whose consumer-info call
      throws the API error 10014, the warning is logged before the
      stream-info fetch, whatever that fetch answers; when the stream is
      reported the consumer is created with the replica count of the
      stream, which is also written into the shared desired entry; when the
      fetch resolves to nothing the consumer is created with the desired
      count, and when it throws no consumer is created. *)
Theorem C4_non_clustered_guard {B} (nats : Nats B) (topic : string)
  (binding : NatsTopic.t) (inbox : string) (streamConfigParsed : StreamConfig.t)
  (consumerOptsDetails : ConsumerOpts.t) (desired : NatsConsumerConfig.t)
  (info : ConsumerInfo.t) (streamInfo : StreamInfo.t)
  (wu : World B) (bu1 bu2 : B) (wc wc1 : World B) (bc2 : B) :
  let streamName := NatsTopic.streamName binding in
  let consumerName := NatsTopic.consumerName binding in
  let queueName := NatsTopic.queueName binding in
  let warning :=
    Log LWarn "replicas > 1 is not possible in non clustered mode" None in
  let created replicas :=
    ConsumersAdd streamName
      (ConsumerConfig.mk consumerName inbox consumerName
         (NatsConsumerConfig.ack_wait desired) replicas topic queueName
         AckExplicit DeliverLast) in
  NatsConsumerConfig.num_replicas desired > 1 ->
  (forall b, info_cluster nats b = None) ->
  (respond nats (ConsumersInfo streamName consumerName) (broker wu)
   = (Return (Some info), bu1) ->
   respond nats (StreamsInfo streamName) bu1
   = (Return (Some streamInfo), bu2) ->
   ConsumerConfig.num_replicas (ConsumerInfo.config info)
   <> NatsConsumerConfig.num_replicas desired ->
   let ack_wait_differs :=
     (NatsConsumerConfig.ack_wait desired >? 0)
     && negb (ConsumerConfig.ack_wait (ConsumerInfo.config info)
              =? NatsConsumerConfig.ack_wait desired) in
   exists new,
     trace (updateConsumer nats streamName consumerName desired wu).2
     = trace wu ++ new
     /\ warning ∈ new
     /\ broker_calls new
        = [ConsumersInfo streamName consumerName; StreamsInfo streamName] ++
          if ack_wait_differs
          then [ConsumersUpdate streamName consumerName
                  (ConsumerConfig.set_ack_wait
                     (NatsConsumerConfig.ack_wait desired)
                     (ConsumerInfo.config info))]
          else [])
  /\ (addOrUpdateStream nats streamName streamConfigParsed wc
      = (Return tt, wc1) ->
      NatsConsumerWiseConfigMapping wc !! consumerName = Some desired ->
      respond nats (ConsumersInfo streamName consumerName) (broker wc1)
      = (Throw (NatsError (Some 10014)), bc2) ->
      let wc' :=
        (attempt nats topic binding inbox streamConfigParsed
                 consumerOptsDetails wc).2 in
      exists rest,
        trace wc'
        = trace wc1 ++
          Broker (ConsumersInfo streamName consumerName) ::
          Log LError "error occurred due to :" (Some (NatsError (Some 10014))) ::
          warning :: Broker (StreamsInfo streamName) :: rest
        /\ match (respond nats (StreamsInfo streamName) bc2).1 with
           | Return (Some streamInfo) =>
               let inherited :=
                 StreamConfig.num_replicas (StreamInfo.config streamInfo) in
               broker_calls rest
               = [created inherited; JsSubscribe topic consumerOptsDetails]
               /\ NatsConsumerWiseConfigMapping wc'
                  = <[consumerName :=
                        NatsConsumerConfig.set_num_replicas inherited desired]>
                    (NatsConsumerWiseConfigMapping wc)
           | Return None =>
               broker_calls rest
               = [created (NatsConsumerConfig.num_replicas desired);
                  JsSubscribe topic consumerOptsDetails]
               /\ NatsConsumerWiseConfigMapping wc'
                  = NatsConsumerWiseConfigMapping wc
           | Throw _ =>
               broker_calls rest = [JsSubscribe topic consumerOptsDetails]
               /\ NatsConsumerWiseConfigMapping wc'
                  = NatsConsumerWiseConfigMapping wc
           end).
Proof.
  intros streamName consumerName queueName warning created Hmany Hcluster.
  assert (Hgt1 : (NatsConsumerConfig.num_replicas desired >? 1) = true)
    by (apply Z.gtb_lt; lia).
  assert (Hgt0 : (NatsConsumerConfig.num_replicas desired >? 0) = true)
    by (apply Z.gtb_lt; lia).
  assert (Hne0 : (NatsConsumerConfig.num_replicas desired =? 0) = false)
    by (apply Z.eqb_neq; lia).
  split.
  - intros Hinfo Hstream Hdiffers ack_wait_differs.
    assert (Hne : (ConsumerConfig.num_replicas (ConsumerInfo.config info)
                   =? NatsConsumerConfig.num_replicas desired) = false)
      by (apply Z.eqb_neq; exact Hdiffers).
    unfold updateConsumer, try_catch, bind, call, ret, throw, nc_info_cluster,
      logger_info, logger_warn, logger_error, record.
    rewrite Hinfo. cbn [broker trace NatsConsumerWiseConfigMapping].
    fold ack_wait_differs.
    destruct ack_wait_differs; cbn [broker trace NatsConsumerWiseConfigMapping];
      rewrite Hstream, Hne0; cbn; rewrite Hgt0, Hne, Hgt1; cbn;
      rewrite Hcluster; cbn.
    + destruct (respond nats (ConsumersUpdate _ _ _) bu2)
        as [[[]|[[code|]| |]] b3]; cbn; try destruct (code =? 10014); cbn;
        rewrite <- !app_assoc; cbn [app];
        eexists; (split; [reflexivity|]);
        (split; [unfold warning; set_solver | reflexivity]).
    + rewrite <- !app_assoc. cbn [app].
      eexists. split; [reflexivity|].
      split; [unfold warning; set_solver | reflexivity].
  - intros Hstream Hdesired Hinfo wc'.
    destruct (attempt_when_consumer_absent nats topic binding inbox
                streamConfigParsed consumerOptsDetails desired wc wc1 bc2
                Hstream Hdesired Hinfo) as (_ & Htable & Hattempt).
    fold streamName consumerName in Htable, Hattempt.
    assert (Hkept : NatsConsumerWiseConfigMapping wc1
                    = NatsConsumerWiseConfigMapping wc).
    { pose proof (addOrUpdateStream_table nats streamName streamConfigParsed wc)
        as Hkept.
      rewrite Hstream in Hkept. exact Hkept. }
    edestruct (createConsumer_guarded nats topic binding inbox desired)
      as (w3 & rest & Hcreate & Htrace & Hrest);
      [exact Htable | exact Hmany | apply Hcluster |].
    fold streamName consumerName queueName in Hcreate, Htrace, Hrest.
    assert (Hrun :
              attempt nats topic binding inbox streamConfigParsed
                      consumerOptsDetails wc
              = (do _ <- call nats (JsSubscribe topic consumerOptsDetails);
                 logger_info "subscribed to nats successfully") w3).
    { rewrite Hattempt. unfold bind at 1. rewrite Hcreate. reflexivity. }
    subst wc'. rewrite Hrun.
    destruct (subscribe_tail nats topic consumerOptsDetails w3)
      as [(tail & Htrace' & Htail) Htable'].
    cbv zeta in Htrace', Htable'.
    exists (rest ++ Broker (JsSubscribe topic consumerOptsDetails) :: tail).
    split.
    + rewrite Htrace', Htrace. cbn [trace].
      rewrite <- !app_assoc. reflexivity.
    + rewrite Htable'. cbn [broker NatsConsumerWiseConfigMapping] in Hrest.
      unfold broker_calls in *. rewrite omap_app. cbn [omap list_omap].
      rewrite Htail.
      destruct (respond nats (StreamsInfo streamName) bc2)
        as [[[reported|]|e] b3]; cbn [fst] in *;
        destruct Hrest as [-> ->]; (split; [reflexivity|]);
        cbn [NatsConsumerWiseConfigMapping] in Htable |- *.
      * rewrite Hkept. apply map_eq. intros name.
        destruct (decide (name = consumerName)) as [->|Hother].
        -- rewrite lookup_alter_eq, lookup_insert_eq.
           rewrite <- Hkept, Htable. reflexivity.
        -- rewrite lookup_alter_ne, lookup_insert_ne by congruence.
           reflexivity.
      * exact Hkept.
      * exact Hkept.
Qed.

Lemma C4_non_clustered_guard_witness :
  let stream := StreamConfig.mk (Some "S") 200 [Some "T"] 1 in
  let existing :=
    ConsumerConfig.mk "C" "_INBOX.0" "C" 60 1 "T" "Q" AckExplicit DeliverLast in
  let nats := consumer_slot stream None in
  let binding := NatsTopic.mk "S" "Q" "C" in
  let desired := NatsConsumerConfig.mk 30 2 in
  let opts :=
    ConsumerOpts.mk (consumerObject "T" "_INBOX.1" "C" "Q" desired)
      "S" (deliveryCallback decode_ascii (fun _ => Return tt)) "Q" in
  let wu := mkWorld (Some existing) (consumers_ex 30 2) [] in
  let wc := mkWorld None (consumers_ex 30 2) [] in
  let warning :=
    Log LWarn "replicas > 1 is not possible in non clustered mode" None in
  (exists new,
      trace (updateConsumer nats "S" "C" desired wu).2 = [] ++ new
      /\ warning ∈ new
      /\ broker_calls new
         = [ConsumersInfo "S" "C"; StreamsInfo "S"] ++
           [ConsumersUpdate "S" "C"
              (ConsumerConfig.mk "C" "_INBOX.0" "C" 30 1 "T" "Q"
                                 AckExplicit DeliverLast)])
  /\ (exists rest,
         trace (attempt nats "T" binding "_INBOX.1" stream opts wc).2
         = [Broker (StreamsInfo "S")] ++
           Broker (ConsumersInfo "S" "C") ::
           Log LError "error occurred due to :"
               (Some (NatsError (Some 10014))) ::
           warning :: Broker (StreamsInfo "S") :: rest
         /\ broker_calls rest
            = [ConsumersAdd "S"
                 (ConsumerConfig.mk "C" "_INBOX.1" "C" 30 1 "T" "Q"
                                    AckExplicit DeliverLast);
               JsSubscribe "T" opts]
         /\ NatsConsumerWiseConfigMapping
              (attempt nats "T" binding "_INBOX.1" stream opts wc).2
            = <["C" := NatsConsumerConfig.mk 30 1]> (consumers_ex 30 2)).
Proof.
  intros stream existing nats binding desired opts wu wc warning.
  destruct (C4_non_clustered_guard nats "T" binding "_INBOX.1" stream opts
              desired (ConsumerInfo.mk existing) (StreamInfo.mk stream)
              wu (Some existing) (Some existing)
              wc (mkWorld None (consumers_ex 30 2) [Broker (StreamsInfo "S")])
              None)
    as [Hupdate Hcreate].
  - cbn. lia.
  - reflexivity.
  - split.
    + apply Hupdate; [reflexivity | reflexivity | cbn; lia].
    + apply Hcreate; reflexivity.
Defined.

(** ** The retry loop *)

Lemma failed_attempts_step (n : nat) :
  failed_attempts (S (S n)) = AttemptFailed :: Slept 5000 :: failed_attempts (S n).
Proof. reflexivity. Qed.

Lemma failed_attempts_counts (n : nat) :
  count_failed (failed_attempts n) = n
  /\ count_slept (failed_attempts n) = (n - 1)%nat.
Proof.
  induction n as [|[|n] IH]; [split; reflexivity ..|].
  rewrite failed_attempts_step. destruct IH as [IHf IHs].
  unfold count_failed, count_slept in *. cbn [omap list_omap length].
  cbn [omap list_omap length] in IHf, IHs.
  split; [rewrite IHf; reflexivity | rewrite IHs; lia].
Qed.

Section Quiet.

Context {B : Type} (nats : Nats B).

Lemma quiet_ret {A} (a : A) : @quiet B A (ret a).
Proof. intros w. reflexivity. Qed.

Lemma quiet_throw {A} (e : JsError) : @quiet B A (throw e).
Proof. intros w. reflexivity. Qed.

Lemma quiet_bind {A A'} (m : M (World B) A) (k : A -> M (World B) A') :
  quiet m -> (forall a, quiet (k a)) -> quiet (bind m k).
Proof.
  intros Hm Hk w. unfold bind. specialize (Hm w).
  destruct (m w) as [[a|e] w1]; cbn in *; [rewrite Hk|]; exact Hm.
Qed.

Lemma quiet_try_catch {A} (m : M (World B) A) (h : JsError -> M (World B) A) :
  quiet m -> (forall e, quiet (h e)) -> quiet (try_catch m h).
Proof.
  intros Hm Hh w. unfold try_catch. specialize (Hm w).
  destruct (m w) as [[a|e] w1]; cbn in *; [|rewrite Hh]; exact Hm.
Qed.

Lemma quiet_record (e : Event) : retry_step e = None -> quiet (B:=B) (record e).
Proof.
  intros He w. unfold record, retry_steps. cbn.
  rewrite omap_app. cbn. rewrite He. apply app_nil_r.
Qed.

Lemma quiet_call (c : BrokerCall) : quiet (call nats c).
Proof.
  intros w. unfold call, retry_steps.
  destruct (respond nats c (broker w)) as [r b]. cbn.
  rewrite omap_app. apply app_nil_r.
Qed.

Lemma quiet_nc_info_cluster : quiet (nc_info_cluster nats).
Proof. intros w. reflexivity. Qed.

Lemma quiet_consumerConfiguration (consumerName : string) :
  quiet (B:=B) (consumerConfiguration consumerName).
Proof.
  intros w. unfold consumerConfiguration.
  destruct (_ !! _); reflexivity.
Qed.

Lemma quiet_set_consumerConfiguration_num_replicas (consumerName : string)
  (v : Z) :
  quiet (B:=B) (set_consumerConfiguration_num_replicas consumerName v).
Proof. intros w. reflexivity. Qed.

(** Steps through a computation built from the pieces above. *)
Ltac quiet_step :=
  first
    [ apply quiet_ret
    | apply quiet_throw
    | apply quiet_call
    | apply quiet_nc_info_cluster
    | apply quiet_consumerConfiguration
    | apply quiet_set_consumerConfiguration_num_replicas
    | apply quiet_record; reflexivity
    | apply quiet_bind; [|intros ?]
    | apply quiet_try_catch; [|intros ?]
    | match goal with
      | |- quiet (if ?c then _ else _) => destruct c
      | |- quiet (match ?x with _ => _ end) => destruct x
      | |- quiet (let '(_, _) := ?x in _) => destruct x
      end ].

Lemma quiet_addOrUpdateStream (streamName : string)
  (streamConfig : StreamConfig.t) :
  quiet (addOrUpdateStream nats streamName streamConfig).
Proof.
  unfold addOrUpdateStream, logger_info, logger_error. repeat quiet_step.
Qed.

Lemma quiet_updateConsumer (streamName consumerName : string)
  (desired : NatsConsumerConfig.t) :
  quiet (updateConsumer nats streamName consumerName desired).
Proof.
  unfold updateConsumer, logger_info, logger_warn, logger_error.
  repeat quiet_step.
Qed.

Lemma quiet_createConsumer (topic : string) (binding : NatsTopic.t)
  (inbox : string) : quiet (createConsumer nats topic binding inbox).
Proof.
  unfold createConsumer, logger_info, logger_warn, logger_error.
  repeat quiet_step.
Qed.

Lemma quiet_attempt (topic : string) (binding : NatsTopic.t) (inbox : string)
  (streamConfigParsed : StreamConfig.t) (consumerOptsDetails : ConsumerOpts.t) :
  quiet (attempt nats topic binding inbox streamConfigParsed
                 consumerOptsDetails).
Proof.
  unfold attempt, logger_info.
  repeat first [ apply quiet_addOrUpdateStream | apply quiet_updateConsumer
               | apply quiet_createConsumer | quiet_step ].
Qed.

End Quiet.

Section RetryBound.

Context {B : Type} (nats : Nats B).
Variable numberOfRetries : nat.
Variables (topic : string) (binding : NatsTopic.t) (inbox : string).
Variables (streamConfigParsed : StreamConfig.t)
          (consumerOptsDetails : ConsumerOpts.t).

(** Every subscribe call throws. *)
Hypothesis subscribe_fails :
  forall topic opts b,
    is_Return (respond nats (JsSubscribe topic opts) b).1 = false.

Lemma subscribe_then_throws {A} (k : unit -> M (World B) A) (w : World B) :
  is_Return
    (bind (call nats (JsSubscribe topic consumerOptsDetails)) k w).1 = false.
Proof.
  unfold bind, call.
  pose proof (subscribe_fails topic consumerOptsDetails (broker w)) as Hfail.
  destruct (respond nats (JsSubscribe topic consumerOptsDetails) (broker w))
    as [[[]|e] b]; [discriminate Hfail | reflexivity].
Qed.

(** Then every attempt throws, at the subscribe call at the latest. *)
Lemma attempt_throws (w : World B) :
  is_Return (attempt nats topic binding inbox streamConfigParsed
                     consumerOptsDetails w).1 = false.
Proof.
  unfold attempt.
  unfold bind at 1.
  destruct (addOrUpdateStream _ _ _ w) as [[[]|e] w1]; [|reflexivity].
  unfold bind at 1.
  destruct (consumerConfiguration _ w1) as [[desired|e] w2]; [|reflexivity].
  unfold bind at 1.
  destruct (updateConsumer _ _ _ _ w2) as [[create|e] w3]; [|reflexivity].
  unfold bind at 1.
  destruct create.
  - destruct (createConsumer _ _ _ _ w3) as [[[]|e] w4]; [|reflexivity].
    apply subscribe_then_throws.
  - cbn [ret]. apply subscribe_then_throws.
Qed.

(** The loop from [attempts] on: it returns, and leaves in the trace what
    the attempts that were left leave when they all fail. *)
Lemma Subscribe_loop_exhausts (left : nat) :
  forall (attempts : nat) (w : World B),
    (maxAttempts numberOfRetries - attempts)%nat = left ->
    exists w',
      Subscribe_loop nats numberOfRetries topic binding inbox
                     streamConfigParsed consumerOptsDetails attempts w
      = (Return tt, w')
      /\ retry_steps (trace w')
         = retry_steps (trace w) ++ failed_attempts left.
Proof.
  induction left as [|left IH]; intros attempts w Hleft;
    rewrite Subscribe_loop_equation_1;
    destruct (lt_dec attempts (maxAttempts numberOfRetries)) as [Hlt|Hge];
    try lia.
  - exists w. split; [reflexivity|]. cbn. rewrite app_nil_r. reflexivity.
  - rewrite Subscribe_loop_clause_1_equation_1.
    unfold try_catch.
    pose proof (attempt_throws w) as Hthrows.
    pose proof (quiet_attempt nats topic binding inbox streamConfigParsed
                              consumerOptsDetails w) as Hquiet.
    destruct (attempt _ _ _ _ _ _ w) as [[[]|e] w1];
      [discriminate Hthrows|]. cbn [snd] in Hquiet.
    unfold bind, logger_error, sleep, record.
    cbn [broker trace NatsConsumerWiseConfigMapping].
    destruct (S attempts =? maxAttempts numberOfRetries)%nat eqn:Hlast;
      cbn [broker trace NatsConsumerWiseConfigMapping].
    + apply Nat.eqb_eq in Hlast.
      edestruct (IH (S attempts)) as (w' & Hrun & Hsteps);
        [lia | rewrite Hrun].
      exists w'. split; [reflexivity|].
      rewrite Hsteps. cbn [trace]. unfold retry_steps.
      rewrite !omap_app. fold (retry_steps (trace w1)). rewrite Hquiet.
      assert (left = 0%nat) as -> by lia. cbn.
      rewrite <- !app_assoc. reflexivity.
    + apply Nat.eqb_neq in Hlast.
      edestruct (IH (S attempts)) as (w' & Hrun & Hsteps);
        [lia | rewrite Hrun].
      exists w'. split; [reflexivity|].
      rewrite Hsteps. cbn [trace]. unfold retry_steps.
      rewrite !omap_app. fold (retry_steps (trace w1)). rewrite Hquiet.
      destruct left as [|left]; [lia|].
      rewrite failed_attempts_step. cbn.
      rewrite <- !app_assoc. reflexivity.
Qed.

End RetryBound.

(** C1: for a topic of the topic mapping whose consumer and stream have
    their entries in the configuration tables, when every subscribe call
    throws, [Subscribe] returns without throwing after exactly
    [numberOfRetries] attempts: the trace gains [numberOfRetries] failed
    attempts with a sleep of 5000 ms between consecutive ones and none
    after the last, which is followed by the closing error line. *)
Theorem C1_retry_bound {B} (nats : Nats B)
  (NatsTopicMapping : gmap string NatsTopic.t)
  (NatsStreamWiseConfigMapping : gmap string NatsStreamConfig.t)
  (GetStreamSubjects : string -> list string) (numberOfRetries : nat)
  (decode : list Byte.byte -> Res string)
  (topic : string) (callback : string -> Res unit) (w : World B)
  (binding : NatsTopic.t) (desired : NatsConsumerConfig.t)
  (streamConfiguration : NatsStreamConfig.t) :
  NatsTopicMapping !! topic = Some binding ->
  NatsConsumerWiseConfigMapping w !! NatsTopic.consumerName binding
  = Some desired ->
  NatsStreamWiseConfigMapping !! NatsTopic.streamName binding
  = Some streamConfiguration ->
  (forall topic opts b,
      is_Return (respond nats (JsSubscribe topic opts) b).1 = false) ->
  exists w',
    Subscribe nats NatsTopicMapping NatsStreamWiseConfigMapping
              GetStreamSubjects numberOfRetries decode topic callback w
    = (Return tt, w')
    /\ retry_steps (trace w')
       = retry_steps (trace w) ++ failed_attempts numberOfRetries
    /\ count_failed (failed_attempts numberOfRetries) = numberOfRetries
    /\ count_slept (failed_attempts numberOfRetries)
       = (numberOfRetries - 1)%nat.
Proof.
  intros Htopic Hconsumer Hstream Hfails.
  unfold Subscribe. rewrite Htopic.
  unfold bind at 1. unfold createInbox at 1.
  destruct (nextInbox nats (broker w)) as [inbox b0].
  unfold bind at 1. unfold consumerConfiguration at 1.
  cbn [broker trace NatsConsumerWiseConfigMapping].
  rewrite Hconsumer, Hstream.
  edestruct (Subscribe_loop_exhausts nats numberOfRetries topic binding inbox)
    as (w' & Hrun & Hsteps); [exact Hfails | | rewrite Hrun].
  { unfold maxAttempts. rewrite Nat.sub_0_r. reflexivity. }
  exists w'. split; [reflexivity|].
  split; [exact Hsteps|]. apply failed_attempts_counts.
Qed.

Lemma C1_retry_bound_witness :
  exists w',
    Subscribe (subscribe_down (OtherError "timeout")
                              (fixed_broker None None None))
              topics_ex streams_ex (fun _ => ["T"]) 3 decode_ascii "T"
              (fun _ => Return tt) (mkWorld tt (consumers_ex 30 0) [])
    = (Return tt, w')
    /\ retry_steps (trace w') = retry_steps [] ++ failed_attempts 3
    /\ count_failed (failed_attempts 3) = 3%nat
    /\ count_slept (failed_attempts 3) = (3 - 1)%nat.
Proof.
  apply (C1_retry_bound
           (subscribe_down (OtherError "timeout") (fixed_broker None None None))
           topics_ex streams_ex (fun _ => ["T"]) 3 decode_ascii "T"
           (fun _ => Return tt) (mkWorld tt (consumers_ex 30 0) [])
           (NatsTopic.mk "S" "Q" "C") (NatsConsumerConfig.mk 30 0)
           (NatsStreamConfig.mk 200 1)).
  - reflexivity.
  - reflexivity.
  - reflexivity.
  - intros topic opts b. reflexivity.
Defined.

(** The run of that example in full: three attempts, each one creating the
    stream and the consumer and failing at the subscribe call. *)
Example Subscribe_three_failed_attempts :
  let '(r, w') :=
    Subscribe (subscribe_down (OtherError "timeout")
                              (fixed_broker None None None))
              topics_ex streams_ex (fun _ => ["T"]) 3 decode_ascii "T"
              (fun _ => Return tt) (mkWorld tt (consumers_ex 30 0) []) in
  r = Return tt
  /\ retry_steps (trace w')
     = [AttemptFailed; Slept 5000; AttemptFailed; Slept 5000;
        AttemptFailed; GaveUp]
  /\ length (broker_calls (trace w')) = 15%nat.
Proof. vm_compute. repeat split. Qed.

(** * Further properties of the code *)

(** ** The config differ *)

(** The flag of [checkConfigChangeReqd] is [true] exactly when the call has
    modified the object it was given. *)
Theorem checkConfigChangeReqd_flag_iff_modified
  (existing desired : StreamConfig.t) :
  (checkConfigChangeReqd existing desired).1 = true
  <-> (checkConfigChangeReqd existing desired).2 <> existing.
Proof.
  destruct existing as [n a subj r], desired as [n' a' subj' r'].
  unfold checkConfigChangeReqd; simpl.
  set (x := default None (subj' !! 0%nat)).
  destruct (negb (a' =? 0) && negb (a' =? a)) eqn:Hage; simpl;
    destruct (includes subj x) eqn:Hin; simpl.
  - apply andb_true_iff in Hage as [_ Hne].
    apply negb_true_iff, Z.eqb_neq in Hne.
    split; [intros _ [=]; contradiction | reflexivity].
  - split; [intros _ [= _ Hsubj] | reflexivity].
    apply (f_equal length) in Hsubj. rewrite length_app in Hsubj.
    simpl in Hsubj. lia.
  - split; [discriminate | intros Hne; contradiction Hne; reflexivity].
  - split; [intros _ [= Hsubj] | reflexivity].
    apply (f_equal length) in Hsubj. rewrite length_app in Hsubj.
    simpl in Hsubj. lia.
Qed.

(** What the patched object satisfies: the first desired subject is among
    its subjects, the subjects it had are kept in place in front, no subject
    is duplicated by the call, a desired [max_age] other than 0 is taken
    over and 0 leaves it alone, and [name] and [num_replicas] are kept. *)
Theorem checkConfigChangeReqd_patched (existing desired : StreamConfig.t) :
  let patched := (checkConfigChangeReqd existing desired).2 in
  default None (StreamConfig.subjects desired !! 0%nat)
    ∈ StreamConfig.subjects patched
  /\ StreamConfig.subjects existing `prefix_of` StreamConfig.subjects patched
  /\ (NoDup (StreamConfig.subjects existing) ->
      NoDup (StreamConfig.subjects patched))
  /\ StreamConfig.max_age patched
     = (if StreamConfig.max_age desired =? 0
        then StreamConfig.max_age existing
        else StreamConfig.max_age desired)
  /\ StreamConfig.name patched = StreamConfig.name existing
  /\ StreamConfig.num_replicas patched = StreamConfig.num_replicas existing.
Proof.
  destruct existing as [n a subj r], desired as [n' a' subj' r'].
  unfold checkConfigChangeReqd; simpl.
  set (x := default None (subj' !! 0%nat)).
  assert (Hage : (if negb (a' =? 0) && negb (a' =? a) then a' else a)
                 = (if a' =? 0 then a else a')).
  { destruct (Z.eqb_spec a' 0), (Z.eqb_spec a' a); simpl; congruence. }
  destruct (negb (a' =? 0) && negb (a' =? a)); simpl in *;
    destruct (includes subj x) eqn:Hin; simpl;
    repeat split; try assumption; try reflexivity;
    try (apply includes_true; assumption);
    try (apply elem_of_app; right; apply list_elem_of_singleton; reflexivity);
    try (apply prefix_app_r; reflexivity);
    intros Hnodup; try assumption;
    apply NoDup_app; (split; [assumption|]);
    (split; [|apply NoDup_singleton]);
    intros y Hy Hx; apply list_elem_of_singleton in Hx; subst y;
    apply includes_true in Hy; congruence.
Qed.

(** ** The stream reconciler *)

(** [addOrUpdateStream] lets one error out: the [TypeError] of reading
    [err_code] when the stream-info call threw a [NatsError] without
    [api_error]. Every other failure of the broker is swallowed, and a run
    makes two broker calls at most. *)
Theorem addOrUpdateStream_throws_only_TypeError {B} (nats : Nats B)
  (streamName : string) (streamConfig : StreamConfig.t) (w : World B) :
  let '(r, w') := addOrUpdateStream nats streamName streamConfig w in
  match (respond nats (StreamsInfo streamName) (broker w)).1 with
  | Throw (NatsError None) => r = Throw TypeError
  | _ => r = Return tt
  end
  /\ (length (broker_calls (trace w'))
      <= length (broker_calls (trace w)) + 2)%nat.
Proof.
  unfold addOrUpdateStream, try_catch, bind, call, ret, throw,
    logger_info, logger_error, record.
  destruct (respond nats (StreamsInfo streamName) (broker w))
    as [[[Info|]|[[code|]| |m]] b1]; cbn.
  - destruct (checkConfigChangeReqd _ _) as [[] config]; cbn.
    + destruct (respond nats (StreamsUpdate _ _) b1) as [[[]|e] b2]; cbn;
        (split; [reflexivity|]);
        unfold broker_calls; rewrite ?omap_app, ?length_app; cbn; lia.
    + split; [reflexivity|].
      unfold broker_calls; rewrite ?omap_app, ?length_app; cbn; lia.
  - split; [reflexivity|].
    unfold broker_calls; rewrite ?omap_app, ?length_app; cbn; lia.
  - destruct (code =? 10059); cbn.
    + destruct (respond nats (StreamsAdd _) b1) as [[[]|e] b2]; cbn;
        (split; [reflexivity|]);
        unfold broker_calls; rewrite ?omap_app, ?length_app; cbn; lia.
    + split; [reflexivity|].
      unfold broker_calls; rewrite ?omap_app, ?length_app; cbn; lia.
  - split; [reflexivity|].
    unfold broker_calls; rewrite ?omap_app, ?length_app; cbn; lia.
  - split; [reflexivity|].
    unfold broker_calls; rewrite ?omap_app, ?length_app; cbn; lia.
  - split; [reflexivity|].
    unfold broker_calls; rewrite ?omap_app, ?length_app; cbn; lia.
Qed.

(** When the stream is reported and differs from the desired
    configuration, [addOrUpdateStream] sends the patched configuration as
    one update and makes no add call; it returns and logs the success line
    last whether the update went through or threw, and in the second case
    the error line comes just before it. *)
Theorem addOrUpdateStream_patches_existing {B} (nats : Nats B)
  (streamName : string) (streamConfig : StreamConfig.t)
  (Info : StreamInfo.t) (w : World B) (b1 : B) :
  respond nats (StreamsInfo streamName) (broker w) = (Return (Some Info), b1) ->
  (checkConfigChangeReqd (StreamInfo.config Info) streamConfig).1 = true ->
  let patched := (checkConfigChangeReqd (StreamInfo.config Info) streamConfig).2 in
  let update := StreamsUpdate streamName patched in
  let success := Log LInfo "streams updated successfully" None in
  let '(r, w') := addOrUpdateStream nats streamName streamConfig w in
  r = Return tt
  /\ trace w'
     = trace w ++
       [Broker (StreamsInfo streamName); Broker update] ++
       match (respond nats update b1).1 with
       | Return _ => [success]
       | Throw e =>
           [Log LError "error occurred during updating streams" (Some e);
            success]
       end.
Proof.
  intros Hinfo Hchanged patched update success.
  unfold addOrUpdateStream, try_catch, bind, call, ret, throw,
    logger_info, logger_error, record.
  rewrite Hinfo. cbn.
  subst update patched.
  destruct (checkConfigChangeReqd _ _) as [changed config].
  cbn in Hchanged. subst changed. cbn.
  destruct (respond nats (StreamsUpdate streamName config) b1)
    as [[[]|e] b2]; cbn;
    (split; [reflexivity|]); rewrite <- ?app_assoc; reflexivity.
Qed.

Lemma addOrUpdateStream_patches_existing_witness :
  let existing := StreamConfig.mk (Some "S") 100 [Some "a"] 1 in
  let desired := StreamConfig.mk None 200 [Some "b"] 0 in
  let '(r, w') :=
    addOrUpdateStream (fixed_broker (Some existing) None None) "S" desired
                      (mkWorld tt ∅ []) in
  r = Return tt
  /\ trace w'
     = [] ++
       [Broker (StreamsInfo "S");
        Broker (StreamsUpdate "S"
                  (StreamConfig.mk (Some "S") 200 [Some "a"; Some "b"] 1))] ++
       [Log LInfo "streams updated successfully" None].
Proof.
  intros existing desired.
  exact (addOrUpdateStream_patches_existing
           (fixed_broker (Some existing) None None) "S" desired
           (StreamInfo.mk existing) (mkWorld tt ∅ []) tt eq_refl eq_refl).
Defined.

(** When the stream-info call throws anything but the API error 10059, the
    stream is neither created nor updated: the info call is the only broker
    call of the run. *)
Theorem addOrUpdateStream_other_error_no_creation {B} (nats : Nats B)
  (streamName : string) (streamConfig : StreamConfig.t)
  (w : World B) (e : JsError) (b1 : B) :
  respond nats (StreamsInfo streamName) (broker w) = (Throw e, b1) ->
  e <> NatsError (Some 10059) ->
  broker_calls (trace (addOrUpdateStream nats streamName streamConfig w).2)
  = broker_calls (trace w) ++ [StreamsInfo streamName].
Proof.
  intros Hinfo Hne.
  unfold addOrUpdateStream, try_catch, bind, call, ret, throw,
    logger_info, logger_error, record.
  rewrite Hinfo. cbn.
  destruct e as [[code|]| |m]; cbn;
    try (destruct (Z.eqb_spec code 10059) as [->|Hcode];
         [contradiction Hne; reflexivity|]; cbn);
    unfold broker_calls; rewrite ?omap_app; cbn;
    rewrite ?app_nil_r; reflexivity.
Qed.

Lemma addOrUpdateStream_other_error_no_creation_witness :
  broker_calls
    (trace (addOrUpdateStream (failing (NatsError (Some 10003))) "S"
              (StreamConfig.mk None 200 [Some "b"] 0) (mkWorld tt ∅ [])).2)
  = [] ++ [StreamsInfo "S"].
Proof.
  apply (addOrUpdateStream_other_error_no_creation
           (failing (NatsError (Some 10003))) "S"
           (StreamConfig.mk None 200 [Some "b"] 0) (mkWorld tt ∅ [])
           (NatsError (Some 10003)) tt).
  - reflexivity.
  - discriminate.
Defined.

(** ** The consumer reconciler *)

(** Runs a reconciliation function symbolically: one case for each answer
    of the broker and each test of the code. *)
Ltac run_cases :=
  repeat (cbn;
          match goal with
          | |- context [respond ?n ?c ?b] =>
              let r := fresh "r" in
              let b' := fresh "b" in
              let code := fresh "code" in
              let m := fresh "m" in
              let Hr := fresh "Hrespond" in
              destruct (respond n c b) as [[r|[[code|]| |m]] b'] eqn:Hr
          | |- context [checkConfigChangeReqd ?x ?y] =>
              let Hd := fresh "Hdiff" in
              destruct (checkConfigChangeReqd x y) as [[] ?] eqn:Hd
          | |- context [if ?c then _ else _] =>
              let Hc := fresh "Htest" in destruct c eqn:Hc
          | |- context [match ?x with Some _ => _ | None => _ end] =>
              let Hx := fresh "Hopt" in destruct x eqn:Hx
          end).

Ltac unfold_run :=
  unfold updateConsumer, addOrUpdateStream, try_catch, bind, call, ret, throw,
    nc_info_cluster, logger_info, logger_warn, logger_error, record.

(** Turns the tests a case was split on into facts about integers. *)
Ltac bools_to_Z :=
  repeat match goal with
         | H : (_ && _) = true |- _ => apply andb_true_iff in H as [? ?]
         | H : (_ && _) = false |- _ => apply andb_false_iff in H as [?|?]
         | H : negb _ = true |- _ => apply negb_true_iff in H
         | H : negb _ = false |- _ => apply negb_false_iff in H
         | H : (_ =? _) = true |- _ => apply Z.eqb_eq in H
         | H : (_ =? _) = false |- _ => apply Z.eqb_neq in H
         | H : (_ >? _) = true |- _ => apply Z.gtb_lt in H
         | H : (_ >? _) = false |- _ => rewrite Z.gtb_ltb, Z.ltb_ge in H
         | H : bool_decide _ = true |- _ => apply bool_decide_eq_true in H
         | H : bool_decide _ = false |- _ => apply bool_decide_eq_false in H
         end.

(** The new broker calls of a leaf, as a list. *)
Ltac calls_of_trace :=
  unfold broker_calls; rewrite ?omap_app; cbn [omap list_omap];
  rewrite <- ?app_assoc, ?app_nil_r; cbn [app].

(** The outcomes of [updateConsumer]: it returns a boolean or throws a
    [TypeError]; it returns [true] only when one of the broker calls it made
    threw the API error 10014, and it throws only when one of them threw a
    [NatsError] without [api_error]. *)
Theorem updateConsumer_outcomes {B} (nats : Nats B)
  (streamName consumerName : string) (desired : NatsConsumerConfig.t)
  (w : World B) :
  let '(r, w') := updateConsumer nats streamName consumerName desired w in
  exists new,
    trace w' = trace w ++ new
    /\ let threw e :=
         exists c b,
           Broker c ∈ new /\ (respond nats c b).1 = Throw e in
       match r with
       | Return true => threw (NatsError (Some 10014))
       | Return false => True
       | Throw e => e = TypeError /\ threw (NatsError None)
       end.
Proof.
  unfold_run. run_cases; cbn [trace];
    (eexists; split; [rewrite <- ?app_assoc; reflexivity|]);
    try exact I;
    try (split; [reflexivity|]);
    match goal with
    | H : respond nats ?c ?b = (Throw (NatsError ?a), _) |- _ =>
        exists c, b; rewrite H;
        split; [set_solver|];
        try match goal with
            | Hc : (_ =? 10014) = true |- _ => apply Z.eqb_eq in Hc; subst
            end;
        reflexivity
    end.
Qed.

(** The update [updateConsumer] sends, when it sends one: it comes after
    the two info calls, there is one at most, it is addressed to the
    consumer at hand, and its configuration is the reported one in every
    field but [ack_wait] and [num_replicas]; its [ack_wait] is the desired
    one when that is positive and the reported one otherwise. *)
Theorem updateConsumer_update_shape {B} (nats : Nats B)
  (streamName consumerName : string) (desired : NatsConsumerConfig.t)
  (info : ConsumerInfo.t) (w : World B) (b1 : B) :
  respond nats (ConsumersInfo streamName consumerName) (broker w)
  = (Return (Some info), b1) ->
  let reported := ConsumerInfo.config info in
  let w' := (updateConsumer nats streamName consumerName desired w).2 in
  exists updates,
    broker_calls (trace w')
    = broker_calls (trace w) ++
      [ConsumersInfo streamName consumerName; StreamsInfo streamName] ++
      updates
    /\ (length updates <= 1)%nat
    /\ forall u, u ∈ updates ->
       exists config,
         u = ConsumersUpdate streamName consumerName config
         /\ ConsumerConfig.set_ack_wait 0
              (ConsumerConfig.set_num_replicas 0 config)
            = ConsumerConfig.set_ack_wait 0
                (ConsumerConfig.set_num_replicas 0 reported)
         /\ ConsumerConfig.ack_wait config
            = if NatsConsumerConfig.ack_wait desired >? 0
              then NatsConsumerConfig.ack_wait desired
              else ConsumerConfig.ack_wait reported.
Proof.
  intros Hinfo reported w'. subst w' reported.
  unfold_run. rewrite Hinfo.
  destruct info as [[n ds dn aw nr fs dg ap dp]].
  destruct desired as [daw dnr]. cbn.
  run_cases; cbn [snd trace]; calls_of_trace;
    (eexists; split; [reflexivity|]); cbn [length];
    (split; [lia|]); intros u Hu;
    try (apply elem_of_nil in Hu; contradiction);
    apply list_elem_of_singleton in Hu; subst u;
    eexists; (split; [reflexivity|]); cbn;
    (split; [reflexivity|]); try reflexivity; bools_to_Z; lia.
Qed.

Lemma updateConsumer_update_shape_witness :
  let reported :=
    ConsumerConfig.mk "C" "_INBOX.0" "C" 60 1 "T" "Q" AckExplicit DeliverLast in
  let stream := StreamConfig.mk (Some "S") 200 [Some "T"] 3 in
  let nats := fixed_broker (Some stream) (Some reported) (Some "c1") in
  exists updates,
    broker_calls
      (trace (updateConsumer nats "S" "C" (NatsConsumerConfig.mk 30 3)
                             (mkWorld tt ∅ [])).2)
    = [] ++ [ConsumersInfo "S" "C"; StreamsInfo "S"] ++ updates
    /\ (length updates <= 1)%nat
    /\ forall u, u ∈ updates ->
       exists config,
         u = ConsumersUpdate "S" "C" config
         /\ ConsumerConfig.set_ack_wait 0
              (ConsumerConfig.set_num_replicas 0 config)
            = ConsumerConfig.set_ack_wait 0
                (ConsumerConfig.set_num_replicas 0 reported)
         /\ ConsumerConfig.ack_wait config = 30.
Proof.
  intros reported stream nats.
  exact (updateConsumer_update_shape nats "S" "C" (NatsConsumerConfig.mk 30 3)
           (ConsumerInfo.mk reported) (mkWorld tt ∅ []) tt eq_refl).
Defined.

Lemma sent_update_conforms {B} (nats : Nats B)
  (cluster : option string) (streamName consumerName : string)
  (desired : NatsConsumerConfig.t) (info : ConsumerInfo.t)
  (w : World B) (b1 : B) (config : ConsumerConfig.t) :
  (forall b, info_cluster nats b = cluster) ->
  respond nats (ConsumersInfo streamName consumerName) (broker w)
  = (Return (Some info), b1) ->
  ConsumersUpdate streamName consumerName config
  ∈ broker_calls (trace (updateConsumer nats streamName consumerName
                                        desired w).2) ->
  ConsumersUpdate streamName consumerName config ∉ broker_calls (trace w) ->
  conforms desired cluster config.
Proof.
  intros Hcluster Hinfo Hin Hfresh. revert Hin.
  unfold_run. rewrite Hinfo.
  destruct info as [[n ds dn aw nr fs dg ap dp]].
  destruct desired as [daw dnr]. unfold conforms. cbn.
  run_cases; cbn [snd trace]; calls_of_trace;
    rewrite ?elem_of_app, ?elem_of_cons, ?elem_of_nil;
    intros Hin; decompose [or] Hin; try discriminate; try contradiction;
    match goal with
    | H : ConsumersUpdate _ _ _ = ConsumersUpdate _ _ _ |- _ =>
        injection H as ->
    end; cbn;
    repeat match goal with
           | H : context [info_cluster nats _] |- _ => rewrite Hcluster in H
           end;
    bools_to_Z; (split; [lia|]); intros; try lia; try (split; [lia|congruence]).
Qed.


(** On a connection whose cluster information does not change, the
    configuration of an update [updateConsumer] sends conforms to the
    desired entry: a later run finds nothing to change in it. *)
Theorem updateConsumer_sends_conforming {B} (nats : Nats B)
  (cluster : option string) (streamName consumerName : string)
  (desired : NatsConsumerConfig.t) (info : ConsumerInfo.t)
  (w : World B) (b1 : B) (config : ConsumerConfig.t) :
  (forall b, info_cluster nats b = cluster) ->
  respond nats (ConsumersInfo streamName consumerName) (broker w)
  = (Return (Some info), b1) ->
  ConsumersUpdate streamName consumerName config
  ∈ broker_calls (trace (updateConsumer nats streamName consumerName
                                        desired w).2) ->
  ConsumersUpdate streamName consumerName config ∉ broker_calls (trace w) ->
  conforms desired cluster config.
Proof.
  apply sent_update_conforms.
Qed.

Lemma conforming_gets_no_update {B} (nats : Nats B)
  (cluster : option string) (streamName consumerName : string)
  (desired : NatsConsumerConfig.t) (info : ConsumerInfo.t)
  (w : World B) (b1 : B) :
  (forall b, info_cluster nats b = cluster) ->
  respond nats (ConsumersInfo streamName consumerName) (broker w)
  = (Return (Some info), b1) ->
  conforms desired cluster (ConsumerInfo.config info) ->
  consumer_updates
    (broker_calls (trace (updateConsumer nats streamName consumerName
                                         desired w).2))
  = consumer_updates (broker_calls (trace w)).
Proof.
  intros Hcluster Hinfo [Hack Hreplicas].
  unfold_run. rewrite Hinfo.
  destruct info as [[n ds dn aw nr fs dg ap dp]].
  destruct desired as [daw dnr]. cbn in Hack, Hreplicas. cbn.
  run_cases; cbn [snd trace]; calls_of_trace;
    unfold consumer_updates; rewrite ?omap_app; cbn [omap list_omap];
    rewrite ?app_nil_r; try reflexivity; exfalso;
    repeat match goal with
           | H : context [info_cluster nats _] |- _ => rewrite Hcluster in H
           end;
    bools_to_Z; try lia;
    try (destruct Hreplicas as [? ?]; [lia|lia|]; congruence);
    try (destruct Hreplicas as [? ?]; [lia|congruence|]; lia).
Qed.

(** [updateConsumer] sends no update to a consumer whose reported
    configuration conforms to the desired entry, whatever the stream-info
    call answers. *)
Theorem updateConsumer_leaves_conforming_alone {B} (nats : Nats B)
  (cluster : option string) (streamName consumerName : string)
  (desired : NatsConsumerConfig.t) (info : ConsumerInfo.t)
  (w : World B) (b1 : B) :
  (forall b, info_cluster nats b = cluster) ->
  respond nats (ConsumersInfo streamName consumerName) (broker w)
  = (Return (Some info), b1) ->
  conforms desired cluster (ConsumerInfo.config info) ->
  consumer_updates
    (broker_calls (trace (updateConsumer nats streamName consumerName
                                         desired w).2))
  = consumer_updates (broker_calls (trace w)).
Proof.
  apply conforming_gets_no_update.
Qed.

Lemma updateConsumer_sends_conforming_witness :
  let reported :=
    ConsumerConfig.mk "C" "_INBOX.0" "C" 60 1 "T" "Q" AckExplicit DeliverLast in
  let stream := StreamConfig.mk (Some "S") 200 [Some "T"] 3 in
  conforms (NatsConsumerConfig.mk 30 3) (Some "c1")
    (ConsumerConfig.mk "C" "_INBOX.0" "C" 30 3 "T" "Q" AckExplicit DeliverLast).
Proof.
  intros reported stream.
  apply (updateConsumer_sends_conforming
           (fixed_broker (Some stream) (Some reported) (Some "c1"))
           (Some "c1") "S" "C" (NatsConsumerConfig.mk 30 3)
           (ConsumerInfo.mk reported) (mkWorld tt ∅ []) tt).
  - reflexivity.
  - reflexivity.
  - vm_compute. set_solver.
  - vm_compute. set_solver.
Defined.

Lemma updateConsumer_leaves_conforming_alone_witness :
  let reported :=
    ConsumerConfig.mk "C" "_INBOX.0" "C" 30 1 "T" "Q" AckExplicit DeliverLast in
  let stream := StreamConfig.mk (Some "S") 200 [Some "T"] 1 in
  consumer_updates
    (broker_calls
       (trace (updateConsumer (fixed_broker (Some stream) (Some reported) None)
                 "S" "C" (NatsConsumerConfig.mk 30 2) (mkWorld tt ∅ [])).2))
  = consumer_updates (broker_calls []).
Proof.
  intros reported stream.
  apply (updateConsumer_leaves_conforming_alone
           (fixed_broker (Some stream) (Some reported) None)
           None "S" "C" (NatsConsumerConfig.mk 30 2)
           (ConsumerInfo.mk reported) (mkWorld tt ∅ []) tt).
  - reflexivity.
  - reflexivity.
  - split; cbn; intros; [reflexivity | split; [lia | reflexivity]].
Defined.

(** Reconciling a consumer twice: when the broker reports on the second
    run the configuration the first run sent, and the cluster information
    has not changed, the second run sends no update. *)
Theorem updateConsumer_second_run_sends_no_update {B} (nats : Nats B)
  (cluster : option string) (streamName consumerName : string)
  (desired : NatsConsumerConfig.t) (info : ConsumerInfo.t)
  (sent : ConsumerConfig.t) (w1 w2 : World B) (b1 b2 : B) :
  (forall b, info_cluster nats b = cluster) ->
  respond nats (ConsumersInfo streamName consumerName) (broker w1)
  = (Return (Some info), b1) ->
  ConsumersUpdate streamName consumerName sent
  ∈ broker_calls (trace (updateConsumer nats streamName consumerName
                                        desired w1).2) ->
  ConsumersUpdate streamName consumerName sent ∉ broker_calls (trace w1) ->
  respond nats (ConsumersInfo streamName consumerName) (broker w2)
  = (Return (Some (ConsumerInfo.mk sent)), b2) ->
  consumer_updates
    (broker_calls (trace (updateConsumer nats streamName consumerName
                                         desired w2).2))
  = consumer_updates (broker_calls (trace w2)).
Proof.
  intros Hcluster Hinfo1 Hsent Hfresh Hinfo2.
  apply (conforming_gets_no_update nats cluster streamName consumerName
           desired (ConsumerInfo.mk sent) w2 b2 Hcluster Hinfo2).
  exact (sent_update_conforms nats cluster streamName consumerName
           desired info w1 b1 sent Hcluster Hinfo1 Hsent Hfresh).
Qed.

Lemma updateConsumer_second_run_sends_no_update_witness :
  let reported :=
    ConsumerConfig.mk "C" "_INBOX.0" "C" 60 1 "T" "Q" AckExplicit DeliverLast in
  let stream := StreamConfig.mk (Some "S") 200 [Some "T"] 3 in
  let desired := NatsConsumerConfig.mk 30 3 in
  let nats := consumer_store stream (Some "c1") in
  let w1 := mkWorld reported ∅ [] in
  let w2 := (updateConsumer nats "S" "C" desired w1).2 in
  consumer_updates
    (broker_calls (trace (updateConsumer nats "S" "C" desired w2).2))
  = consumer_updates (broker_calls (trace w2)).
Proof.
  intros reported stream desired nats w1 w2.
  pose (sent := ConsumerConfig.mk "C" "_INBOX.0" "C" 30 3 "T" "Q"
                                  AckExplicit DeliverLast).
  apply (updateConsumer_second_run_sends_no_update nats (Some "c1") "S" "C"
           desired (ConsumerInfo.mk reported) sent w1 w2 reported sent).
  - reflexivity.
  - reflexivity.
  - vm_compute. set_solver.
  - vm_compute. set_solver.
  - reflexivity.
Defined.

(** Where the guard does not stand in the way (the desired replica count
    is 1, or the connection reports cluster information), a positive
    desired replica count that differs from the reported one is sent to the
    broker in the update, together with the [ack_wait] patch if there is
    one; the run returns [false] when the update goes through. *)
Theorem updateConsumer_applies_replicas {B} (nats : Nats B)
  (streamName consumerName : string) (desired : NatsConsumerConfig.t)
  (info : ConsumerInfo.t) (streamInfo : option StreamInfo.t)
  (w : World B) (b1 b2 : B) :
  respond nats (ConsumersInfo streamName consumerName) (broker w)
  = (Return (Some info), b1) ->
  respond nats (StreamsInfo streamName) b1 = (Return streamInfo, b2) ->
  NatsConsumerConfig.num_replicas desired > 0 ->
  ConsumerConfig.num_replicas (ConsumerInfo.config info)
  <> NatsConsumerConfig.num_replicas desired ->
  ~ (NatsConsumerConfig.num_replicas desired > 1
     /\ info_cluster nats b2 = None) ->
  let reported := ConsumerInfo.config info in
  let ack_patched :=
    if (NatsConsumerConfig.ack_wait desired >? 0)
       && negb (ConsumerConfig.ack_wait reported
                =? NatsConsumerConfig.ack_wait desired)
    then ConsumerConfig.set_ack_wait (NatsConsumerConfig.ack_wait desired)
                                     reported
    else reported in
  let update :=
    ConsumersUpdate streamName consumerName
      (ConsumerConfig.set_num_replicas
         (NatsConsumerConfig.num_replicas desired) ack_patched) in
  let '(r, w') := updateConsumer nats streamName consumerName desired w in
  broker_calls (trace w')
  = broker_calls (trace w) ++
    [ConsumersInfo streamName consumerName; StreamsInfo streamName; update]
  /\ (is_Return (respond nats update b2).1 = true -> r = Return false).
Proof.
  intros Hinfo Hstream Hpos Hdiffers Hguard reported ack_patched update.
  subst update ack_patched reported.
  assert (Hgt0 : (NatsConsumerConfig.num_replicas desired >? 0) = true)
    by (apply Z.gtb_lt; lia).
  assert (Hne0 : (NatsConsumerConfig.num_replicas desired =? 0) = false)
    by (apply Z.eqb_neq; lia).
  assert (Hne : (ConsumerConfig.num_replicas (ConsumerInfo.config info)
                 =? NatsConsumerConfig.num_replicas desired) = false)
    by (apply Z.eqb_neq; exact Hdiffers).
  assert (Hfree : (NatsConsumerConfig.num_replicas desired >? 1)
                  && bool_decide (info_cluster nats b2 = None) = false).
  { apply andb_false_iff.
    destruct (Z.gtb_spec (NatsConsumerConfig.num_replicas desired) 1);
      [|left; reflexivity].
    right. apply bool_decide_eq_false. intros Hnone. apply Hguard.
    split; [lia | exact Hnone]. }
  unfold_run. rewrite Hinfo. cbn [broker trace NatsConsumerWiseConfigMapping].
  destruct ((NatsConsumerConfig.ack_wait desired >? 0) && _) eqn:Hack;
    cbn [broker trace NatsConsumerWiseConfigMapping];
    rewrite Hstream, Hne0; cbn; rewrite Hgt0, Hne; cbn; rewrite Hfree; cbn;
    destruct (respond nats (ConsumersUpdate _ _ _) b2)
      as [[[]|[[code|]| |m]] b3]; cbn; try destruct (code =? 10014); cbn;
    (split; [calls_of_trace; reflexivity | intros; try discriminate; reflexivity]).
Qed.

Lemma updateConsumer_applies_replicas_witness :
  let reported :=
    ConsumerConfig.mk "C" "_INBOX.0" "C" 60 1 "T" "Q" AckExplicit DeliverLast in
  let stream := StreamConfig.mk (Some "S") 200 [Some "T"] 3 in
  let nats := fixed_broker (Some stream) (Some reported) (Some "c1") in
  let update :=
    ConsumersUpdate "S" "C"
      (ConsumerConfig.mk "C" "_INBOX.0" "C" 30 3 "T" "Q"
                         AckExplicit DeliverLast) in
  let '(r, w') :=
    updateConsumer nats "S" "C" (NatsConsumerConfig.mk 30 3)
                   (mkWorld tt ∅ []) in
  broker_calls (trace w')
  = [] ++ [ConsumersInfo "S" "C"; StreamsInfo "S"; update]
  /\ (is_Return (respond nats update tt).1 = true -> r = Return false).
Proof.
  intros reported stream nats update.
  apply (updateConsumer_applies_replicas nats "S" "C"
           (NatsConsumerConfig.mk 30 3) (ConsumerInfo.mk reported)
           (Some (StreamInfo.mk stream)) (mkWorld tt ∅ []) tt tt
           eq_refl eq_refl).
  - cbn. lia.
  - cbn. lia.
  - intros [_ [=]].
Defined.

(** ** One attempt *)

Lemma addOrUpdateStream_throws_TypeError {B} (nats : Nats B)
  (streamName : string) (streamConfig : StreamConfig.t) (w : World B)
  (e : JsError) :
  (addOrUpdateStream nats streamName streamConfig w).1 = Throw e ->
  e = TypeError.
Proof.
  assert (H : let '(r, _) := addOrUpdateStream nats streamName streamConfig w in
              match r with Throw e' => e' = TypeError | Return _ => True end).
  { unfold_run. run_cases; cbn; reflexivity || exact I. }
  destruct (addOrUpdateStream nats streamName streamConfig w) as [[[]|e'] w'];
    cbn; intros [=]; congruence.
Qed.

Lemma updateConsumer_throws_TypeError {B} (nats : Nats B)
  (streamName consumerName : string) (desired : NatsConsumerConfig.t)
  (w : World B) (e : JsError) :
  (updateConsumer nats streamName consumerName desired w).1 = Throw e ->
  e = TypeError.
Proof.
  assert (H : let '(r, _) :=
                updateConsumer nats streamName consumerName desired w in
              match r with Throw e' => e' = TypeError | Return _ => True end).
  { unfold_run. run_cases; cbn; reflexivity || exact I. }
  destruct (updateConsumer nats streamName consumerName desired w)
    as [[b|e'] w']; cbn; intros [=]; congruence.
Qed.

Lemma createConsumer_returns {B} (nats : Nats B) (topic : string)
  (binding : NatsTopic.t) (inbox : string) (w : World B) :
  (createConsumer nats topic binding inbox w).1 = Return tt.
Proof.
  unfold createConsumer, try_catch, logger_error, record.
  destruct (bind _ _ w) as [[[]|e] w1]; reflexivity.
Qed.

Lemma subscribe_is_last_call {B} (nats : Nats B) (topic : string)
  (opts : ConsumerOpts.t) (w : World B) :
  last (broker_calls
          (trace (bind (call nats (JsSubscribe topic opts))
                       (fun _ => logger_info "subscribed to nats successfully")
                       w).2))
  = Some (JsSubscribe topic opts).
Proof.
  unfold bind, call, logger_info, record.
  destruct (respond nats (JsSubscribe topic opts) (broker w)) as [[[]|e] b];
    cbn; calls_of_trace; apply last_snoc.
Qed.

(** An attempt gets to the subscribe call unless reconciliation ended in a
    [TypeError]: a consumer that could not be created, or an update or a
    stream creation that failed, does not keep the attempt from
    subscribing. Either the attempt threw a [TypeError], or the last call
    it made to the broker is the subscribe call. *)
Theorem attempt_reaches_subscribe {B} (nats : Nats B) (topic : string)
  (binding : NatsTopic.t) (inbox : string)
  (streamConfigParsed : StreamConfig.t) (consumerOptsDetails : ConsumerOpts.t)
  (w : World B) :
  let '(r, w') :=
    attempt nats topic binding inbox streamConfigParsed consumerOptsDetails w in
  r = Throw TypeError
  \/ last (broker_calls (trace w')) = Some (JsSubscribe topic consumerOptsDetails).
Proof.
  unfold attempt.
  unfold bind at 1.
  pose proof (addOrUpdateStream_throws_TypeError nats
                (NatsTopic.streamName binding) streamConfigParsed w) as Hs.
  destruct (addOrUpdateStream _ _ _ w) as [[[]|e] w1];
    [|left; rewrite (Hs e eq_refl); reflexivity].
  unfold bind at 1. unfold consumerConfiguration at 1.
  destruct (_ !! _) as [desired|]; [|left; reflexivity].
  unfold bind at 1.
  pose proof (updateConsumer_throws_TypeError nats
                (NatsTopic.streamName binding) (NatsTopic.consumerName binding)
                desired w1) as Hu.
  destruct (updateConsumer _ _ _ _ w1) as [[create|e] w3];
    [|left; rewrite (Hu e eq_refl); reflexivity].
  unfold bind at 1.
  destruct create.
  - pose proof (createConsumer_returns nats topic binding inbox w3) as Hc.
    destruct (createConsumer _ _ _ _ w3) as [r w4]. cbn in Hc. subst r.
    pose proof (subscribe_is_last_call nats topic consumerOptsDetails w4) as Hl.
    destruct (bind _ _ w4) as [r w5]. right. exact Hl.
  - cbn [ret].
    pose proof (subscribe_is_last_call nats topic consumerOptsDetails w3) as Hl.
    destruct (bind _ _ w3) as [r w5]. right. exact Hl.
Qed.

(** ** The whole of [Subscribe] *)

Lemma attempt_success_logged_last {B} (nats : Nats B) (topic : string)
  (binding : NatsTopic.t) (inbox : string)
  (streamConfigParsed : StreamConfig.t) (consumerOptsDetails : ConsumerOpts.t)
  (w w' : World B) :
  attempt nats topic binding inbox streamConfigParsed consumerOptsDetails w
  = (Return tt, w') ->
  last (trace w') = Some (Log LInfo "subscribed to nats successfully" None).
Proof.
  unfold attempt.
  unfold bind at 1.
  destruct (addOrUpdateStream _ _ _ w) as [[[]|e] w1]; [|discriminate].
  unfold bind at 1.
  destruct (consumerConfiguration _ w1) as [[desired|e] w2]; [|discriminate].
  unfold bind at 1.
  destruct (updateConsumer _ _ _ _ w2) as [[create|e] w3]; [|discriminate].
  unfold bind at 1.
  assert (Hend : forall w4,
             bind (call nats (JsSubscribe topic consumerOptsDetails))
                  (fun _ => logger_info "subscribed to nats successfully") w4
             = (Return tt, w') ->
             last (trace w')
             = Some (Log LInfo "subscribed to nats successfully" None)).
  { intros w4. unfold bind, call, logger_info, record.
    destruct (respond nats _ (broker w4)) as [[[]|e] b5]; [|discriminate].
    intros [= <-]. apply last_snoc. }
  destruct create.
  - destruct (createConsumer _ _ _ _ w3) as [[[]|e] w4]; [|discriminate].
    apply Hend.
  - cbn [ret]. apply Hend.
Qed.

Section RetryLoop.

Context {B : Type} (nats : Nats B).
Variable numberOfRetries : nat.
Variables (topic : string) (binding : NatsTopic.t) (inbox : string).
Variables (streamConfigParsed : StreamConfig.t)
          (consumerOptsDetails : ConsumerOpts.t).

(** The loop from [attempts] on, whatever the broker does: it returns,
    either after all the attempts that were left have failed, or after
    fewer failures, each followed by the sleep, and a successful attempt. *)
Lemma Subscribe_loop_bounded (left : nat) :
  forall (attempts : nat) (w : World B),
    (maxAttempts numberOfRetries - attempts)%nat = left ->
    exists w' k,
      Subscribe_loop nats numberOfRetries topic binding inbox
                     streamConfigParsed consumerOptsDetails attempts w
      = (Return tt, w')
      /\ ((k = left
           /\ retry_steps (trace w')
              = retry_steps (trace w) ++ failed_attempts left)
          \/ ((k < left)%nat
              /\ retry_steps (trace w') = retry_steps (trace w) ++ retried k
              /\ last (trace w')
                 = Some (Log LInfo "subscribed to nats successfully" None))).
Proof.
  induction left as [|left IH]; intros attempts w Hleft;
    rewrite Subscribe_loop_equation_1;
    destruct (lt_dec attempts (maxAttempts numberOfRetries)) as [Hlt|Hge];
    try lia.
  - exists w, 0%nat. split; [reflexivity|]. left.
    split; [reflexivity|]. cbn. rewrite app_nil_r. reflexivity.
  - rewrite Subscribe_loop_clause_1_equation_1.
    unfold try_catch.
    pose proof (quiet_attempt nats topic binding inbox streamConfigParsed
                              consumerOptsDetails w) as Hquiet.
    pose proof (attempt_success_logged_last nats topic binding inbox
                  streamConfigParsed consumerOptsDetails w) as Hlast.
    destruct (attempt _ _ _ _ _ _ w) as [[[]|e] w1]; cbn [snd] in Hquiet.
    { exists w1, 0%nat. split; [reflexivity|]. right.
      split; [lia|]. split; [|apply Hlast; reflexivity].
      cbn. rewrite app_nil_r. exact Hquiet. }
    clear Hlast.
    unfold bind, logger_error, sleep, record.
    cbn [broker trace NatsConsumerWiseConfigMapping].
    destruct (S attempts =? maxAttempts numberOfRetries)%nat eqn:Hend;
      cbn [broker trace NatsConsumerWiseConfigMapping].
    + apply Nat.eqb_eq in Hend.
      edestruct (IH (S attempts)) as (w' & k & Hrun & Hsteps);
        [lia | rewrite Hrun].
      assert (left = 0%nat) as -> by lia.
      destruct Hsteps as [[-> Hsteps]|[Hlt0 _]]; [|lia].
      exists w', 1%nat. split; [reflexivity|]. left.
      split; [reflexivity|].
      rewrite Hsteps. cbn [trace]. unfold retry_steps.
      rewrite !omap_app. fold (retry_steps (trace w1)). rewrite Hquiet.
      cbn. rewrite <- !app_assoc. reflexivity.
    + apply Nat.eqb_neq in Hend.
      edestruct (IH (S attempts)) as (w' & k & Hrun & Hsteps);
        [lia | rewrite Hrun].
      destruct left as [|left]; [lia|].
      destruct Hsteps as [[-> Hsteps]|(Hlt' & Hsteps & Hlast)].
      * exists w', (S (S left)). split; [reflexivity|]. left.
        split; [reflexivity|].
        rewrite Hsteps. cbn [trace]. unfold retry_steps.
        rewrite !omap_app. fold (retry_steps (trace w1)). rewrite Hquiet.
        rewrite failed_attempts_step. cbn.
        rewrite <- !app_assoc. reflexivity.
      * exists w', (S k). split; [reflexivity|]. right.
        split; [lia|]. split; [|exact Hlast].
        rewrite Hsteps. cbn [trace]. unfold retry_steps.
        rewrite !omap_app. fold (retry_steps (trace w1)). rewrite Hquiet.
        cbn. rewrite <- !app_assoc. reflexivity.
Qed.

End RetryLoop.

(** For a topic whose three table entries are there, [Subscribe] returns
    without throwing whatever the broker does, after [numberOfRetries]
    attempts at most: either all of them failed, or [k] of them failed,
    with [k < numberOfRetries], each followed by the sleep of 5000 ms, and
    the next one subscribed, its success line being the last event of the
    run. *)
Theorem Subscribe_returns_within_bound {B} (nats : Nats B)
  (NatsTopicMapping : gmap string NatsTopic.t)
  (NatsStreamWiseConfigMapping : gmap string NatsStreamConfig.t)
  (GetStreamSubjects : string -> list string) (numberOfRetries : nat)
  (decode : list Byte.byte -> Res string)
  (topic : string) (callback : string -> Res unit) (w : World B)
  (binding : NatsTopic.t) (desired : NatsConsumerConfig.t)
  (streamConfiguration : NatsStreamConfig.t) :
  NatsTopicMapping !! topic = Some binding ->
  NatsConsumerWiseConfigMapping w !! NatsTopic.consumerName binding
  = Some desired ->
  NatsStreamWiseConfigMapping !! NatsTopic.streamName binding
  = Some streamConfiguration ->
  exists w' k,
    Subscribe nats NatsTopicMapping NatsStreamWiseConfigMapping
              GetStreamSubjects numberOfRetries decode topic callback w
    = (Return tt, w')
    /\ ((k = numberOfRetries
         /\ retry_steps (trace w')
            = retry_steps (trace w) ++ failed_attempts numberOfRetries)
        \/ ((k < numberOfRetries)%nat
            /\ retry_steps (trace w') = retry_steps (trace w) ++ retried k
            /\ last (trace w')
               = Some (Log LInfo "subscribed to nats successfully" None))).
Proof.
  intros Htopic Hconsumer Hstream.
  unfold Subscribe. rewrite Htopic.
  unfold bind at 1. unfold createInbox at 1.
  destruct (nextInbox nats (broker w)) as [inbox b0].
  unfold bind at 1. unfold consumerConfiguration at 1.
  cbn [broker trace NatsConsumerWiseConfigMapping].
  rewrite Hconsumer, Hstream.
  edestruct (Subscribe_loop_bounded nats numberOfRetries topic binding inbox)
    as (w' & k & Hrun & Hsteps); [| rewrite Hrun].
  { unfold maxAttempts. rewrite Nat.sub_0_r. reflexivity. }
  exists w', k. split; [reflexivity | exact Hsteps].
Qed.

Lemma Subscribe_returns_within_bound_witness :
  exists w' k,
    Subscribe (fixed_broker None None None) topics_ex streams_ex
              (fun _ => ["T"]) 3 decode_ascii "T" (fun _ => Return tt)
              (mkWorld tt (consumers_ex 30 0) [])
    = (Return tt, w')
    /\ ((k = 3%nat
         /\ retry_steps (trace w') = retry_steps [] ++ failed_attempts 3)
        \/ ((k < 3)%nat
            /\ retry_steps (trace w') = retry_steps [] ++ retried k
            /\ last (trace w')
               = Some (Log LInfo "subscribed to nats successfully" None))).
Proof.
  apply (Subscribe_returns_within_bound (fixed_broker None None None)
           topics_ex streams_ex (fun _ => ["T"]) 3 decode_ascii "T"
           (fun _ => Return tt) (mkWorld tt (consumers_ex 30 0) [])
           (NatsTopic.mk "S" "Q" "C") (NatsConsumerConfig.mk 30 0)
           (NatsStreamConfig.mk 200 1)); reflexivity.
Defined.

(** For a topic of the topic mapping whose consumer or stream has no entry
    in its table, [Subscribe] throws a [TypeError] before the retry loop:
    an inbox name has been drawn, and the trace and the consumer table are
    as they were. *)
Theorem Subscribe_missing_entry_throws {B} (nats : Nats B)
  (NatsTopicMapping : gmap string NatsTopic.t)
  (NatsStreamWiseConfigMapping : gmap string NatsStreamConfig.t)
  (GetStreamSubjects : string -> list string) (numberOfRetries : nat)
  (decode : list Byte.byte -> Res string)
  (topic : string) (callback : string -> Res unit) (w : World B)
  (binding : NatsTopic.t) :
  NatsTopicMapping !! topic = Some binding ->
  NatsConsumerWiseConfigMapping w !! NatsTopic.consumerName binding = None
  \/ NatsStreamWiseConfigMapping !! NatsTopic.streamName binding = None ->
  Subscribe nats NatsTopicMapping NatsStreamWiseConfigMapping
            GetStreamSubjects numberOfRetries decode topic callback w
  = (Throw TypeError,
     mkWorld (nextInbox nats (broker w)).2 (NatsConsumerWiseConfigMapping w)
             (trace w)).
Proof.
  intros Htopic Hmissing.
  unfold Subscribe. rewrite Htopic.
  unfold bind, createInbox, consumerConfiguration, throw.
  destruct (nextInbox nats (broker w)) as [inbox b0].
  cbn [broker trace NatsConsumerWiseConfigMapping snd].
  destruct (NatsConsumerWiseConfigMapping w !! _) as [desired|] eqn:Hconsumer;
    [|reflexivity].
  destruct Hmissing as [Hnone|Hnone]; [discriminate Hnone|].
  rewrite Hnone. reflexivity.
Qed.

Lemma Subscribe_missing_entry_throws_witness :
  Subscribe (fixed_broker None None None) topics_ex streams_ex
            (fun _ => ["T"]) 3 decode_ascii "T" (fun _ => Return tt)
            (mkWorld tt ∅ [])
  = (Throw TypeError, mkWorld tt ∅ []).
Proof.
  apply (Subscribe_missing_entry_throws (fixed_broker None None None)
           topics_ex streams_ex (fun _ => ["T"]) 3 decode_ascii "T"
           (fun _ => Return tt) (mkWorld tt ∅ []) (NatsTopic.mk "S" "Q" "C")).
  - reflexivity.
  - left. reflexivity.
Defined.

(** ** What [Subscribe] does to the shared table *)

Section Keeps.

Context {B : Type} (nats : Nats B).
Context (R : relation (gmap string NatsConsumerConfig.t)).
Context `{!Reflexive R} `{!Transitive R}.

Lemma keeps_ret {A} (a : A) : keeps (B:=B) R (ret a).
Proof. intros w. reflexivity. Qed.

Lemma keeps_throw {A} (e : JsError) : keeps (B:=B) (A:=A) R (throw e).
Proof. intros w. reflexivity. Qed.

Lemma keeps_bind {A A'} (m : M (World B) A) (k : A -> M (World B) A') :
  keeps R m -> (forall a, keeps R (k a)) -> keeps R (bind m k).
Proof.
  intros Hm Hk w. unfold bind. specialize (Hm w).
  destruct (m w) as [[a|e] w1]; cbn in *; [|exact Hm].
  etransitivity; [exact Hm | apply Hk].
Qed.

Lemma keeps_try_catch {A} (m : M (World B) A) (h : JsError -> M (World B) A) :
  keeps R m -> (forall e, keeps R (h e)) -> keeps R (try_catch m h).
Proof.
  intros Hm Hh w. unfold try_catch. specialize (Hm w).
  destruct (m w) as [[a|e] w1]; cbn in *; [exact Hm|].
  etransitivity; [exact Hm | apply Hh].
Qed.

Lemma keeps_record (e : Event) : keeps (B:=B) R (record e).
Proof. intros w. reflexivity. Qed.

Lemma keeps_call (c : BrokerCall) : keeps R (call nats c).
Proof.
  intros w. unfold call.
  destruct (respond nats c (broker w)) as [r b]. reflexivity.
Qed.

Lemma keeps_nc_info_cluster : keeps R (nc_info_cluster nats).
Proof. intros w. reflexivity. Qed.

Lemma keeps_createInbox : keeps R (createInbox nats).
Proof.
  intros w. unfold createInbox.
  destruct (nextInbox nats (broker w)) as [inbox b]. reflexivity.
Qed.

Lemma keeps_consumerConfiguration (consumerName : string) :
  keeps (B:=B) R (consumerConfiguration consumerName).
Proof.
  intros w. unfold consumerConfiguration.
  destruct (_ !! _); reflexivity.
Qed.

Ltac keeps_step :=
  first
    [ apply keeps_ret
    | apply keeps_throw
    | apply keeps_call
    | apply keeps_nc_info_cluster
    | apply keeps_consumerConfiguration
    | apply keeps_record
    | apply keeps_bind; [|intros ?]
    | apply keeps_try_catch; [|intros ?]
    | match goal with
      | |- keeps _ (if ?c then _ else _) => destruct c
      | |- keeps _ (match ?x with _ => _ end) => destruct x
      | |- keeps _ (let '(_, _) := ?x in _) => destruct x
      end ].

Lemma keeps_addOrUpdateStream (streamName : string)
  (streamConfig : StreamConfig.t) :
  keeps R (addOrUpdateStream nats streamName streamConfig).
Proof.
  unfold addOrUpdateStream, logger_info, logger_error. repeat keeps_step.
Qed.

Lemma keeps_updateConsumer (streamName consumerName : string)
  (desired : NatsConsumerConfig.t) :
  keeps R (updateConsumer nats streamName consumerName desired).
Proof.
  unfold updateConsumer, logger_info, logger_warn, logger_error.
  repeat keeps_step.
Qed.

Variables (numberOfRetries : nat) (topic : string) (binding : NatsTopic.t).

(** The creation block is the one place that writes into the table. *)
Hypothesis keeps_createConsumer :
  forall inbox, keeps R (createConsumer nats topic binding inbox).

Lemma keeps_attempt (inbox : string) (streamConfigParsed : StreamConfig.t)
  (consumerOptsDetails : ConsumerOpts.t) :
  keeps R (attempt nats topic binding inbox streamConfigParsed
                   consumerOptsDetails).
Proof.
  unfold attempt, logger_info.
  repeat first [ apply keeps_addOrUpdateStream | apply keeps_updateConsumer
               | apply keeps_createConsumer | keeps_step ].
Qed.

Lemma keeps_Subscribe_loop (inbox : string)
  (streamConfigParsed : StreamConfig.t) (consumerOptsDetails : ConsumerOpts.t)
  (left : nat) :
  forall attempts,
    (maxAttempts numberOfRetries - attempts)%nat = left ->
    keeps R (Subscribe_loop nats numberOfRetries topic binding inbox
                            streamConfigParsed consumerOptsDetails attempts).
Proof.
  induction left as [|left IH]; intros attempts Hleft;
    rewrite Subscribe_loop_equation_1;
    destruct (lt_dec attempts (maxAttempts numberOfRetries)) as [Hlt|Hge];
    try lia.
  - apply keeps_ret.
  - rewrite Subscribe_loop_clause_1_equation_1.
    apply keeps_try_catch; [apply keeps_attempt|]. intros e.
    unfold logger_error, sleep.
    apply keeps_bind; [apply keeps_record|]. intros _. cbv zeta.
    apply keeps_bind; [destruct (_ =? _)%nat; apply keeps_record|].
    intros _. apply IH. lia.
Qed.

End Keeps.

Lemma keeps_Subscribe {B} (nats : Nats B)
  (R : relation (gmap string NatsConsumerConfig.t))
  `{!Reflexive R} `{!Transitive R}
  (NatsTopicMapping : gmap string NatsTopic.t)
  (NatsStreamWiseConfigMapping : gmap string NatsStreamConfig.t)
  (GetStreamSubjects : string -> list string) (numberOfRetries : nat)
  (decode : list Byte.byte -> Res string)
  (topic : string) (callback : string -> Res unit) :
  (forall binding inbox,
      NatsTopicMapping !! topic = Some binding ->
      keeps R (createConsumer nats topic binding inbox)) ->
  keeps R (Subscribe nats NatsTopicMapping NatsStreamWiseConfigMapping
                     GetStreamSubjects numberOfRetries decode topic callback).
Proof.
  intros Hcreate. unfold Subscribe.
  destruct (NatsTopicMapping !! topic) as [binding|] eqn:Htopic;
    [|apply keeps_throw; assumption].
  apply keeps_bind; [assumption | apply keeps_createInbox; assumption |].
  intros inbox.
  apply keeps_bind;
    [assumption | apply keeps_consumerConfiguration; assumption |].
  intros desired. cbv zeta.
  destruct (NatsStreamWiseConfigMapping !! _) as [streamConfiguration|];
    [|apply keeps_throw; assumption].
  eapply keeps_Subscribe_loop; try assumption; [|reflexivity].
  intros inbox'. apply Hcreate. reflexivity.
Qed.

#[local] Instance same_but_replicas_of_reflexive (consumerName : string) :
  Reflexive (same_but_replicas_of consumerName).
Proof. intros table name. split; reflexivity. Qed.

#[local] Instance same_but_replicas_of_transitive (consumerName : string) :
  Transitive (same_but_replicas_of consumerName).
Proof.
  intros t1 t2 t3 H12 H23 name.
  destruct (H12 name) as [Hne12 Hack12], (H23 name) as [Hne23 Hack23].
  split; [intros Hne; rewrite Hne23, Hne12 by exact Hne; reflexivity|].
  rewrite Hack23. exact Hack12.
Qed.

Lemma createConsumer_writes_replicas_only {B} (nats : Nats B) (topic : string)
  (binding : NatsTopic.t) (inbox : string) :
  keeps (same_but_replicas_of (NatsTopic.consumerName binding))
        (createConsumer nats topic binding inbox).
Proof.
  assert (Hwrite : forall v,
             keeps (B:=B) (same_but_replicas_of (NatsTopic.consumerName binding))
                   (set_consumerConfiguration_num_replicas
                      (NatsTopic.consumerName binding) v)).
  { intros v w name. cbn. split.
    - intros Hne. apply lookup_alter_ne. congruence.
    - destruct (decide (name = NatsTopic.consumerName binding)) as [->|Hne].
      + rewrite lookup_alter_eq.
        destruct (_ !! _) as [[]|]; reflexivity.
      + rewrite lookup_alter_ne by congruence. reflexivity. }
  unfold createConsumer, logger_info, logger_warn, logger_error.
  repeat first
    [ apply Hwrite
    | apply keeps_ret; apply _
    | apply keeps_call; apply _
    | apply keeps_nc_info_cluster; apply _
    | apply keeps_consumerConfiguration; apply _
    | apply keeps_record; apply _
    | apply keeps_bind; [apply _ | | intros ?]
    | apply keeps_try_catch; [apply _ | | intros ?]
    | match goal with
      | |- keeps _ (if ?c then _ else _) => destruct c
      | |- keeps _ (match ?x with _ => _ end) => destruct x
      end ].
Qed.

(** Whatever the broker does and however the run ends, [Subscribe] leaves
    the shared table of desired consumer entries as it was, but for the
    [num_replicas] of the entry of the topic's own consumer: no entry is
    added or removed, every [ack_wait] is kept, and the entries of the
    other consumers are untouched. *)
Theorem Subscribe_writes_replicas_of_its_consumer_only {B} (nats : Nats B)
  (NatsTopicMapping : gmap string NatsTopic.t)
  (NatsStreamWiseConfigMapping : gmap string NatsStreamConfig.t)
  (GetStreamSubjects : string -> list string) (numberOfRetries : nat)
  (decode : list Byte.byte -> Res string)
  (topic : string) (callback : string -> Res unit) (w : World B)
  (name : string) :
  let table := NatsConsumerWiseConfigMapping w in
  let table' :=
    NatsConsumerWiseConfigMapping
      (Subscribe nats NatsTopicMapping NatsStreamWiseConfigMapping
                 GetStreamSubjects numberOfRetries decode topic callback w).2 in
  NatsConsumerConfig.ack_wait <$> table' !! name
  = NatsConsumerConfig.ack_wait <$> table !! name
  /\ (NatsTopic.consumerName <$> NatsTopicMapping !! topic <> Some name ->
      table' !! name = table !! name).
Proof.
  intros table table'. subst table table'.
  destruct (NatsTopicMapping !! topic) as [binding|] eqn:Htopic.
  - pose proof (keeps_Subscribe nats
                  (same_but_replicas_of (NatsTopic.consumerName binding))
                  NatsTopicMapping NatsStreamWiseConfigMapping
                  GetStreamSubjects numberOfRetries decode topic callback)
      as Hkeeps.
    destruct (Hkeeps
                ltac:(intros binding' inbox Hb;
                      assert (binding' = binding) as -> by congruence;
                      apply createConsumer_writes_replicas_only)
                w name) as [Hother Hack].
    split; [exact Hack|].
    intros Hne. apply Hother. cbn in Hne. congruence.
  - unfold Subscribe. rewrite Htopic. split; reflexivity.
Qed.

Lemma createConsumer_clustered_keeps_table {B} (nats : Nats B) (topic : string)
  (binding : NatsTopic.t) (inbox : string) :
  (forall b, info_cluster nats b <> None) ->
  keeps eq (createConsumer nats topic binding inbox).
Proof.
  intros Hclustered w.
  unfold createConsumer, try_catch, bind, call, ret, throw, nc_info_cluster,
    consumerConfiguration, set_consumerConfiguration_num_replicas,
    logger_info, logger_warn, logger_error, record.
  destruct (NatsConsumerWiseConfigMapping w !! _) as [desired|] eqn:Hdesired;
    [|reflexivity].
  cbn [broker trace NatsConsumerWiseConfigMapping].
  rewrite (bool_decide_eq_false_2 _ (Hclustered (broker w))), andb_false_r.
  cbn. rewrite Hdesired. cbn.
  destruct (respond nats (ConsumersAdd _ _) (broker w)) as [[[]|e] b1];
    reflexivity.
Qed.

(** On a connection that reports cluster information throughout,
    [Subscribe] does not write into the shared table at all. *)
Theorem Subscribe_clustered_keeps_table {B} (nats : Nats B)
  (NatsTopicMapping : gmap string NatsTopic.t)
  (NatsStreamWiseConfigMapping : gmap string NatsStreamConfig.t)
  (GetStreamSubjects : string -> list string) (numberOfRetries : nat)
  (decode : list Byte.byte -> Res string)
  (topic : string) (callback : string -> Res unit) (w : World B) :
  (forall b, info_cluster nats b <> None) ->
  NatsConsumerWiseConfigMapping
    (Subscribe nats NatsTopicMapping NatsStreamWiseConfigMapping
               GetStreamSubjects numberOfRetries decode topic callback w).2
  = NatsConsumerWiseConfigMapping w.
Proof.
  intros Hclustered. symmetry.
  apply (keeps_Subscribe nats eq NatsTopicMapping NatsStreamWiseConfigMapping
           GetStreamSubjects numberOfRetries decode topic callback).
  intros binding inbox _.
  apply createConsumer_clustered_keeps_table. exact Hclustered.
Qed.

Lemma Subscribe_clustered_keeps_table_witness :
  NatsConsumerWiseConfigMapping
    (Subscribe (fixed_broker None None (Some "c1")) topics_ex streams_ex
               (fun _ => ["T"]) 3 decode_ascii "T" (fun _ => Return tt)
               (mkWorld tt (consumers_ex 30 2) [])).2
  = consumers_ex 30 2.
Proof.
  apply (Subscribe_clustered_keeps_table (fixed_broker None None (Some "c1"))
           topics_ex streams_ex (fun _ => ["T"]) 3 decode_ascii "T"
           (fun _ => Return tt) (mkWorld tt (consumers_ex 30 2) [])).
  intros b. discriminate.
Defined.

(** ** The delivery callbacks *)


(** The callback of [src/pubSub/pubSub.ts] returns in every case, and
    acknowledges exactly when decoding and the handler both succeeded: one
    [ack] then, and no message operation at all otherwise. *)
Theorem PubSubTs_deliveryCallback_acks_on_success_only
  (decode : list Byte.byte -> Res string) (callback : string -> Res unit)
  (msg : Msg.t) (log : list DeliveryEvent) :
  exists events,
    PubSubTs.deliveryCallback decode callback msg log
    = (Return tt, log ++ events)
    /\ msg_ops events
       = match decode (Msg.data msg) with
         | Return text =>
             match callback (JSON_stringify text) with
             | Return _ => [MsgAck]
             | Throw _ => []
             end
         | Throw _ => []
         end.
Proof.
  unfold PubSubTs.deliveryCallback, try_catch, bind, lift, emit, getJsonString.
  destruct (decode (Msg.data msg)) as [text|e]; simpl.
  - destruct (callback (JSON_stringify text)) as [[]|e]; simpl.
    + exists [CallbackInvoked (JSON_stringify text); MsgAck].
      rewrite <- !app_assoc. split; reflexivity.
    + exists [CallbackInvoked (JSON_stringify text);
              LoggedError (Msg.data msg) e].
      rewrite <- !app_assoc. split; reflexivity.
  - exists [LoggedError (Msg.data msg) e]. split; reflexivity.
Qed.

Lemma json_unescape_escape (c : ascii) (t : string) :
  json_unescape (json_escape c +:+ t) = String c (json_unescape t).
Proof.
  destruct c as [[] [] [] [] [] [] [] []]; reflexivity.
Qed.

Lemma string_app_assoc (s1 s2 s3 : string) :
  (s1 +:+ s2) +:+ s3 = s1 +:+ (s2 +:+ s3).
Proof.
  induction s1 as [|c s1 IH]; [reflexivity|].
  change (String c ((s1 +:+ s2) +:+ s3) = String c (s1 +:+ (s2 +:+ s3))).
  rewrite IH. reflexivity.
Qed.

Lemma json_unescape_escape_all (s t : string) :
  json_unescape (json_escape_all s +:+ t) = s +:+ json_unescape t.
Proof.
  induction s as [|c s IH]; [reflexivity|].
  change (json_escape_all (String c s))
    with (json_escape c +:+ json_escape_all s).
  rewrite string_app_assoc, json_unescape_escape, IH. reflexivity.
Qed.

Lemma string_snoc_inj (s1 s2 : string) (c : ascii) :
  s1 +:+ String c EmptyString = s2 +:+ String c EmptyString -> s1 = s2.
Proof.
  revert s2. induction s1 as [|a s1 IH]; intros [|a' s2] Heq.
  - reflexivity.
  - change (String c EmptyString = String a' (s2 +:+ String c EmptyString))
      in Heq.
    injection Heq as _ Heq. destruct s2; discriminate Heq.
  - change (String a (s1 +:+ String c EmptyString) = String c EmptyString)
      in Heq.
    injection Heq as _ Heq. destruct s1; discriminate Heq.
  - change (String a (s1 +:+ String c EmptyString)
            = String a' (s2 +:+ String c EmptyString)) in Heq.
    injection Heq as -> Heq. rewrite (IH s2 Heq). reflexivity.
Qed.

Lemma JSON_stringify_inj (s1 s2 : string) :
  JSON_stringify s1 = JSON_stringify s2 -> s1 = s2.
Proof.
  unfold JSON_stringify. intros [= Heq].
  apply (f_equal json_unescape) in Heq.
  rewrite !json_unescape_escape_all in Heq.
  apply (string_snoc_inj s1 s2 quote). exact Heq.
Qed.

(** [getJsonString] loses nothing of the decoded text: two payloads for
    which it gives the same string decode to the same text. *)
Theorem getJsonString_inj (decode : list Byte.byte -> Res string)
  (bytes1 bytes2 : list Byte.byte) (msgString : string) :
  getJsonString decode bytes1 = Return msgString ->
  getJsonString decode bytes2 = Return msgString ->
  decode bytes1 = decode bytes2.
Proof.
  unfold getJsonString.
  destruct (decode bytes1) as [text1|e1]; [|discriminate].
  destruct (decode bytes2) as [text2|e2]; [|discriminate].
  intros [= H1] [= H2]. f_equal.
  apply JSON_stringify_inj. congruence.
Qed.

Lemma getJsonString_inj_witness :
  decode_ascii [Byte.x61; Byte.x22] = decode_ascii [Byte.x61; Byte.x22].
Proof.
  apply (getJsonString_inj decode_ascii [Byte.x61; Byte.x22]
           [Byte.x61; Byte.x22]
           (String quote ("a\" +:+ String quote (String quote EmptyString))));
    reflexivity.
Defined.

(** ** The service of [src/pubSub/pubSub.ts] *)

(** The two files part on a failed stream update. When the stream is
    reported, differs from the desired configuration, and the update
    throws the API error 10059, [addOrUpdateStream] of [pubSub.ts] goes on
    to add the stream with the desired configuration, the error having
    reached its outer [catch]; the one above stops at the update. *)
Theorem PubSubTs_failed_update_falls_to_creation {B} (nats : Nats B)
  (streamName : string) (streamConfig : StreamConfig.t)
  (Info : StreamInfo.t) (w : World B) (b1 b2 : B) :
  respond nats (StreamsInfo streamName) (broker w) = (Return (Some Info), b1) ->
  (checkConfigChangeReqd (StreamInfo.config Info) streamConfig).1 = true ->
  let patched := (checkConfigChangeReqd (StreamInfo.config Info) streamConfig).2 in
  respond nats (StreamsUpdate streamName patched) b1
  = (Throw (NatsError (Some 10059)), b2) ->
  broker_calls
    (trace (PubSubTsService.addOrUpdateStream nats streamName streamConfig w).2)
  = broker_calls (trace w) ++
    [StreamsInfo streamName; StreamsUpdate streamName patched;
     StreamsAdd (StreamConfig.set_name (Some streamName) streamConfig)]
  /\ broker_calls (trace (addOrUpdateStream nats streamName streamConfig w).2)
     = broker_calls (trace w) ++
       [StreamsInfo streamName; StreamsUpdate streamName patched].
Proof.
  intros Hinfo Hchanged patched Hupdate. subst patched.
  unfold PubSubTsService.addOrUpdateStream, addOrUpdateStream, try_catch, bind,
    call, ret, throw, logger_info, logger_error, record.
  rewrite Hinfo. cbn.
  destruct (checkConfigChangeReqd _ _) as [changed config].
  cbn in Hchanged, Hupdate. subst changed. cbn. rewrite Hupdate. cbn.
  split; [|calls_of_trace; reflexivity].
  destruct (respond nats (StreamsAdd _) b2) as [[[]|e] b3]; cbn;
    calls_of_trace; reflexivity.
Qed.

Lemma PubSubTs_failed_update_falls_to_creation_witness :
  let existing := StreamConfig.mk (Some "S") 100 [Some "a"] 1 in
  let desired := StreamConfig.mk None 200 [Some "b"] 0 in
  let patched := StreamConfig.mk (Some "S") 200 [Some "a"; Some "b"] 1 in
  let nats :=
    mkNats unit
      (fun c b =>
         match c return Res (reply c) * unit with
         | StreamsInfo _ => (Return (Some (StreamInfo.mk existing)), b)
         | StreamsUpdate _ _ => (Throw (NatsError (Some 10059)), b)
         | c' => respond (fixed_broker None None None) c' b
         end)
      (fun _ => None) (fun b => ("_INBOX.1", b)) in
  let w := mkWorld tt ∅ [] in
  broker_calls (trace (PubSubTsService.addOrUpdateStream nats "S" desired w).2)
  = [] ++
    [StreamsInfo "S"; StreamsUpdate "S" patched;
     StreamsAdd (StreamConfig.mk (Some "S") 200 [Some "b"] 0)]
  /\ broker_calls (trace (addOrUpdateStream nats "S" desired w).2)
     = [] ++ [StreamsInfo "S"; StreamsUpdate "S" patched].
Proof.
  intros existing desired patched nats w.
  exact (PubSubTs_failed_update_falls_to_creation nats "S" desired
           (StreamInfo.mk existing) w tt tt eq_refl eq_refl eq_refl).
Defined.

(** [updateConsumer] of [pubSub.ts] reconciles [ack_wait] and nothing else:
    on a reported consumer it makes no stream-info call, and the one update
    it can send, when the desired [ack_wait] is positive and differs, is
    the reported configuration with the desired [ack_wait]; the replica
    count of the table entry plays no part. *)
Theorem PubSubTs_updateConsumer_reconciles_ack_wait_only {B} (nats : Nats B)
  (streamName consumerName : string) (desired : NatsConsumerConfig.t)
  (info : ConsumerInfo.t) (w : World B) (b1 : B) :
  respond nats (ConsumersInfo streamName consumerName) (broker w)
  = (Return (Some info), b1) ->
  let reported := ConsumerInfo.config info in
  broker_calls
    (trace (PubSubTsService.updateConsumer nats streamName consumerName
                                           (Some desired) w).2)
  = broker_calls (trace w) ++
    ConsumersInfo streamName consumerName ::
    if (NatsConsumerConfig.ack_wait desired >? 0)
       && negb (ConsumerConfig.ack_wait reported
                =? NatsConsumerConfig.ack_wait desired)
    then [ConsumersUpdate streamName consumerName
            (ConsumerConfig.set_ack_wait
               (NatsConsumerConfig.ack_wait desired) reported)]
    else [].
Proof.
  intros Hinfo reported. subst reported.
  unfold PubSubTsService.updateConsumer, try_catch, bind, call, ret, throw,
    logger_info, logger_error, record.
  rewrite Hinfo. cbn.
  destruct (_ && _); cbn.
  - destruct (respond nats (ConsumersUpdate _ _ _) b1)
      as [[[]|[[code|]| |m]] b2]; cbn; try destruct (code =? 10014); cbn;
      calls_of_trace; reflexivity.
  - calls_of_trace. reflexivity.
Qed.

Lemma PubSubTs_updateConsumer_reconciles_ack_wait_only_witness :
  let reported :=
    ConsumerConfig.mk "C" "_INBOX.0" "C" 60 1 "T" "Q" AckExplicit DeliverLast in
  let stream := StreamConfig.mk (Some "S") 200 [Some "T"] 3 in
  broker_calls
    (trace (PubSubTsService.updateConsumer
              (fixed_broker (Some stream) (Some reported) (Some "c1"))
              "S" "C" (Some (NatsConsumerConfig.mk 30 3)) (mkWorld tt ∅ [])).2)
  = [] ++
    [ConsumersInfo "S" "C";
     ConsumersUpdate "S" "C"
       (ConsumerConfig.mk "C" "_INBOX.0" "C" 30 1 "T" "Q"
                          AckExplicit DeliverLast)].
Proof.
  intros reported stream.
  exact (PubSubTs_updateConsumer_reconciles_ack_wait_only
           (fixed_broker (Some stream) (Some reported) (Some "c1"))
           "S" "C" (NatsConsumerConfig.mk 30 3) (ConsumerInfo.mk reported)
           (mkWorld tt ∅ []) tt eq_refl).
Defined.

(** ** The SES handler *)

Lemma not_set_insert (map : gmap string bool) (key key' : string) :
  SesHandler.not_set (<[key := true]> map) key'
  = if decide (key = key') then false else SesHandler.not_set map key'.
Proof.
  unfold SesHandler.not_set. rewrite lookup_insert.
  destruct (decide (key = key')); reflexivity.
Qed.

Lemma configKey_inj (p q : SesHandler.Provider.t) :
  SesHandler.Provider.dest p = SesHandler.Provider.dest q ->
  SesHandler.configKey p = SesHandler.configKey q ->
  SesHandler.Provider.configId p = SesHandler.Provider.configId q.
Proof.
  unfold SesHandler.configKey. intros -> Heq.
  apply (inj (String.app _)) in Heq.
  apply (inj (String.app _)) in Heq.
  apply (inj pretty) in Heq. exact Heq.
Qed.

Section Dispatch.

Context {R : Type}.

(** The body of the [forEach] of [getDefaultConfig]. *)
Let choose (p : SesHandler.Provider.t) : M (SesHandler.World R) unit :=
  if String.eqb (SesHandler.Provider.dest p) "ses"
  then
    let userId := SesHandler.Provider.configId p in
    do fresh <- SesHandler.configsMap_not_set (SesHandler.configKey p);
    if fresh
    then
      do _ <- SesHandler.processNotification userId p;
      SesHandler.configsMap_set (SesHandler.configKey p) true
    else ret tt
  else ret tt.

(** A provider the loop has to notify: it is for SES and its key is not
    set in the map. *)
Let due (map : gmap string bool) (p : SesHandler.Provider.t) : Prop :=
  SesHandler.Provider.dest p = "ses"
  /\ SesHandler.not_set map (SesHandler.configKey p) = true.

Lemma dispatch_loop (providers : list SesHandler.Provider.t) :
  forall w : SesHandler.World R,
  exists (ids : list Z) (w' : SesHandler.World R),
    SesHandler.forEach choose providers w = (Return tt, w')
    /\ SesHandler.repo w' = SesHandler.repo w
    /\ SesHandler.sesConfig w' = SesHandler.sesConfig w
    /\ SesHandler.emailMap w' = SesHandler.emailMap w
    /\ SesHandler.lookups (SesHandler.trace w')
       = SesHandler.lookups (SesHandler.trace w) ++ ids
    /\ NoDup ids
    /\ (forall id,
           id ∈ ids
           <-> exists p, p ∈ providers
                         /\ due (SesHandler.configsMap w) p
                         /\ SesHandler.Provider.configId p = id)
    /\ (forall key,
           SesHandler.not_set (SesHandler.configsMap w') key = false
           <-> SesHandler.not_set (SesHandler.configsMap w) key = false
               \/ exists p, p ∈ providers
                            /\ SesHandler.Provider.dest p = "ses"
                            /\ key = SesHandler.configKey p).
Proof.
  induction providers as [|p providers IH]; intros w.
  - exists [], w. cbn. rewrite app_nil_r.
    repeat split; try reflexivity; try apply NoDup_nil_2.
    + intros Hin. apply elem_of_nil in Hin. contradiction.
    + intros (q & Hq & _). apply elem_of_nil in Hq. contradiction.
    + intros H. left. exact H.
    + intros [H|(q & Hq & _)]; [exact H|].
      apply elem_of_nil in Hq. contradiction.
  - cbn [SesHandler.forEach]. unfold bind at 1. unfold choose at 1.
    destruct (String.eqb_spec (SesHandler.Provider.dest p) "ses")
      as [Hses|Hother].
    + (* a provider for SES *)
      unfold bind at 1. unfold SesHandler.configsMap_not_set at 1.
      destruct (SesHandler.not_set (SesHandler.configsMap w)
                                   (SesHandler.configKey p)) eqn:Hfresh.
      * (* not notified yet: the lookup is started and the key is set *)
        cbn.
        set (w1 := SesHandler.mkWorld _ _ _ _ _ _ _).
        destruct (IH w1) as (ids & w' & Hrun & Hrepo & Hcfg & Hemail
                             & Hlook & Hnodup & Hids & Hmap).
        exists (SesHandler.Provider.configId p :: ids), w'.
        split; [exact Hrun|]. repeat split; try assumption.
        -- rewrite Hlook. subst w1. cbn. unfold SesHandler.lookups.
           rewrite omap_app. cbn. rewrite <- app_assoc. reflexivity.
        -- apply NoDup_cons. split; [|exact Hnodup].
           intros Hin. apply Hids in Hin as (q & _ & [Hq Hfreshq] & Hid).
           subst w1. cbn in Hfreshq. rewrite not_set_insert in Hfreshq.
           destruct (decide _) as [_|Hne]; [discriminate|].
           apply Hne. unfold SesHandler.configKey. congruence.
        -- intros Hin. apply elem_of_cons in Hin as [->|Hin].
           ++ exists p. split; [left|]. split; [split; assumption|reflexivity].
           ++ apply Hids in Hin as (q & Hq & [Hsesq Hfreshq] & Hid).
              exists q. split; [right; exact Hq|].
              split; [|exact Hid]. split; [exact Hsesq|].
              subst w1. cbn in Hfreshq. rewrite not_set_insert in Hfreshq.
              destruct (decide _); [discriminate | exact Hfreshq].
        -- intros (q & Hq & [Hsesq Hfreshq] & Hid).
           destruct (decide (SesHandler.Provider.configId q
                             = SesHandler.Provider.configId p)) as [Heq|Hne].
           ++ subst id. rewrite Heq. left.
           ++ right. apply Hids.
              apply elem_of_cons in Hq as [->|Hq]; [contradiction|].
              exists q. split; [exact Hq|]. split; [|exact Hid].
              split; [exact Hsesq|].
              subst w1. cbn. rewrite not_set_insert.
              destruct (decide _) as [Hkey|_]; [|exact Hfreshq].
              exfalso. apply Hne. symmetry.
              apply configKey_inj; [congruence | exact Hkey].
        -- intros Hset. apply Hmap in Hset as [Hset|(q & Hq & Hsesq & ->)].
           ++ subst w1. cbn in Hset. rewrite not_set_insert in Hset.
              destruct (decide _) as [<-|_].
              ** right. exists p. split; [left|]. split; [exact Hses|reflexivity].
              ** left. exact Hset.
           ++ right. exists q. split; [right; exact Hq|].
              split; [exact Hsesq|reflexivity].
        -- intros Hset. apply Hmap.
           destruct Hset as [Hset|(q & Hq & Hsesq & ->)].
           ++ left. subst w1. cbn. rewrite not_set_insert.
              destruct (decide _); [reflexivity | exact Hset].
           ++ apply elem_of_cons in Hq as [->|Hq].
              ** left. subst w1. cbn. rewrite not_set_insert.
                 destruct (decide _) as [_|Hne]; [reflexivity|].
                 contradiction Hne. reflexivity.
              ** right. exists q. split; [exact Hq|].
                 split; [exact Hsesq|reflexivity].
      * (* notified before: skipped *)
        cbn [ret].
        destruct (IH w) as (ids & w' & Hrun & Hrepo & Hcfg & Hemail
                            & Hlook & Hnodup & Hids & Hmap).
        exists ids, w'. split; [exact Hrun|]. repeat split; try assumption.
        -- intros Hin. apply Hids in Hin as (q & Hq & Hdue & Hid).
           exists q. split; [right; exact Hq|]. split; assumption.
        -- intros (q & Hq & [Hsesq Hfreshq] & Hid). apply Hids.
           apply elem_of_cons in Hq as [->|Hq]; [congruence|].
           exists q. split; [exact Hq|]. split; [split|]; assumption.
        -- intros Hset. apply Hmap in Hset as [Hset|(q & Hq & Hsesq & ->)];
             [left; exact Hset|].
           right. exists q. split; [right; exact Hq|].
           split; [exact Hsesq|reflexivity].
        -- intros Hset. apply Hmap.
           destruct Hset as [Hset|(q & Hq & Hsesq & ->)]; [left; exact Hset|].
           apply elem_of_cons in Hq as [->|Hq]; [left; exact Hfresh|].
           right. exists q. split; [exact Hq|].
           split; [exact Hsesq|reflexivity].
    + (* a provider for another destination *)
      cbn [ret].
      destruct (IH w) as (ids & w' & Hrun & Hrepo & Hcfg & Hemail
                          & Hlook & Hnodup & Hids & Hmap).
      exists ids, w'. split; [exact Hrun|]. repeat split; try assumption.
      * intros Hin. apply Hids in Hin as (q & Hq & Hdue & Hid).
        exists q. split; [right; exact Hq|]. split; assumption.
      * intros (q & Hq & [Hsesq Hfreshq] & Hid). apply Hids.
        apply elem_of_cons in Hq as [->|Hq]; [contradiction|].
        exists q. split; [exact Hq|]. split; [split|]; assumption.
      * intros Hset. apply Hmap in Hset as [Hset|(q & Hq & Hsesq & ->)];
          [left; exact Hset|].
        right. exists q. split; [right; exact Hq|].
        split; [exact Hsesq|reflexivity].
      * intros Hset. apply Hmap.
        destruct Hset as [Hset|(q & Hq & Hsesq & ->)]; [left; exact Hset|].
        apply elem_of_cons in Hq as [->|Hq]; [contradiction|].
        right. exists q. split; [exact Hq|].
        split; [exact Hsesq|reflexivity].
Qed.

End Dispatch.

Lemma getDefaultConfig_run {R : Type}
  (findDefaultSESConfig : R -> Res (option SesHandler.SESConfig.t) * R)
  (providers : list SesHandler.Provider.t) (w : SesHandler.World R)
  (config : SesHandler.SESConfig.t) (repo' : R) :
  findDefaultSESConfig (SesHandler.repo w) = (Return (Some config), repo') ->
  SesHandler.truthy (SesHandler.SESConfig.from_email config) = true ->
  exists w' ids,
    SesHandler.getDefaultConfig findDefaultSESConfig providers w
    = (Return tt, w')
    /\ SesHandler.repo w' = repo'
    /\ SesHandler.emailMap w' = SesHandler.emailMap w
    /\ (forall p, p ∈ providers -> SesHandler.Provider.dest p = "ses" ->
                  SesHandler.not_set (SesHandler.configsMap w')
                                     (SesHandler.configKey p) = false)
    /\ SesHandler.lookups (SesHandler.trace w')
       = SesHandler.lookups (SesHandler.trace w) ++ ids
    /\ NoDup ids
    /\ forall id,
         id ∈ ids
         <-> exists p,
               p ∈ providers
               /\ SesHandler.Provider.dest p = "ses"
               /\ SesHandler.not_set (SesHandler.configsMap w)
                                     (SesHandler.configKey p) = true
               /\ SesHandler.Provider.configId p = id.
Proof.
  intros Hrepo Hsender.
  unfold SesHandler.getDefaultConfig, try_catch.
  unfold bind at 1. unfold SesHandler.await_findDefaultSESConfig at 1.
  rewrite Hrepo. unfold bind at 1. unfold SesHandler.set_sesConfig at 1.
  rewrite Hsender.
  match goal with
  | |- context [SesHandler.forEach ?body providers ?w1] =>
      destruct (dispatch_loop providers w1)
        as (ids & w' & Hrun & Hrepo' & _ & Hemail & Hlook & Hnodup & Hids
            & Hmap);
      change (SesHandler.forEach body providers w1 = (Return tt, w')) in Hrun;
      rewrite Hrun
  end.
  cbn in Hrepo', Hemail, Hlook, Hids, Hmap.
  exists w', ids.
  split; [reflexivity|]. split; [exact Hrepo'|]. split; [exact Hemail|]. split.
  - intros p Hp Hses. apply Hmap. right. exists p. auto.
  - split.
    + rewrite Hlook. unfold SesHandler.lookups. rewrite omap_app. cbn.
      rewrite app_nil_r. reflexivity.
    + split; [exact Hnodup|]. intros id. rewrite Hids.
      split; intros (p & Hp & H); exists p; (split; [exact Hp|]); tauto.
Qed.

Lemma getDefaultConfig_idle {R : Type}
  (findDefaultSESConfig : R -> Res (option SesHandler.SESConfig.t) * R)
  (providers : list SesHandler.Provider.t) (w : SesHandler.World R) :
  (forall config repo',
      findDefaultSESConfig (SesHandler.repo w) = (Return (Some config), repo') ->
      SesHandler.truthy (SesHandler.SESConfig.from_email config) = false) ->
  let '(r, w') :=
    SesHandler.getDefaultConfig findDefaultSESConfig providers w in
  SesHandler.lookups (SesHandler.trace w')
  = SesHandler.lookups (SesHandler.trace w)
  /\ SesHandler.configsMap w' = SesHandler.configsMap w
  /\ SesHandler.emailMap w' = SesHandler.emailMap w
  /\ match (findDefaultSESConfig (SesHandler.repo w)).1 with
     | Return (Some config) =>
         r = Return tt /\ SesHandler.sesConfig w' = Some config
     | _ =>
         r = Throw (OtherError "Unable to get default SES config")
         /\ SesHandler.sesConfig w' = SesHandler.sesConfig w
     end.
Proof.
  intros Hsender.
  unfold SesHandler.getDefaultConfig, try_catch, bind, throw, ret,
    SesHandler.await_findDefaultSESConfig, SesHandler.set_sesConfig,
    SesHandler.emit.
  destruct (findDefaultSESConfig (SesHandler.repo w))
    as [[[config|]|e] repo'] eqn:Hrepo; cbn.
  - rewrite (Hsender config repo' eq_refl). cbn.
    unfold SesHandler.lookups. rewrite omap_app. cbn. rewrite app_nil_r.
    destruct config. repeat split; reflexivity.
  - unfold SesHandler.lookups. rewrite !omap_app. cbn. rewrite !app_nil_r.
    repeat split; reflexivity.
  - unfold SesHandler.lookups. rewrite !omap_app. cbn. rewrite !app_nil_r.
    repeat split; reflexivity.
Qed.

(** With a default SES configuration that has a sender address,
    [getDefaultConfig] returns, and the user lookups it starts are one for
    each configuration id of an SES provider whose key was not yet set in
    [configsMap], none twice and none for another destination; afterwards
    the key of every SES provider is set, and [emailMap] is as before. *)
Theorem SES_getDefaultConfig_notifies_each_config_once {R : Type}
  (findDefaultSESConfig : R -> Res (option SesHandler.SESConfig.t) * R)
  (providers : list SesHandler.Provider.t) (w : SesHandler.World R)
  (config : SesHandler.SESConfig.t) (repo' : R) :
  findDefaultSESConfig (SesHandler.repo w) = (Return (Some config), repo') ->
  SesHandler.truthy (SesHandler.SESConfig.from_email config) = true ->
  let '(r, w') :=
    SesHandler.getDefaultConfig findDefaultSESConfig providers w in
  r = Return tt
  /\ SesHandler.emailMap w' = SesHandler.emailMap w
  /\ (forall p, p ∈ providers -> SesHandler.Provider.dest p = "ses" ->
                SesHandler.not_set (SesHandler.configsMap w')
                                   (SesHandler.configKey p) = false)
  /\ exists ids,
       SesHandler.lookups (SesHandler.trace w')
       = SesHandler.lookups (SesHandler.trace w) ++ ids
       /\ NoDup ids
       /\ forall id,
            id ∈ ids
            <-> exists p,
                  p ∈ providers
                  /\ SesHandler.Provider.dest p = "ses"
                  /\ SesHandler.not_set (SesHandler.configsMap w)
                                        (SesHandler.configKey p) = true
                  /\ SesHandler.Provider.configId p = id.
Proof.
  intros Hrepo Hsender.
  destruct (getDefaultConfig_run findDefaultSESConfig providers w config repo'
              Hrepo Hsender)
    as (w' & ids & -> & _ & Hemail & Hset & Hlook & Hnodup & Hids).
  split; [reflexivity|]. split; [exact Hemail|]. split; [exact Hset|].
  exists ids. auto.
Qed.

Lemma SES_getDefaultConfig_notifies_each_config_once_witness :
  let providers :=
    [SesHandler.Provider.mk "ses" 7 (Some None);
     SesHandler.Provider.mk "slack" 8 (Some None);
     SesHandler.Provider.mk "ses" 7 (Some None);
     SesHandler.Provider.mk "ses" 9 (Some None)] in
  let config :=
    SesHandler.SESConfig.mk (Some "eu") (Some "k") (Some "s") (Some "a@b.c") in
  let w := SesHandler.mkWorld tt None {[ "ses-9" := true ]} ∅ None None [] in
  let '(r, w') :=
    SesHandler.getDefaultConfig (fun r => (Return (Some config), r))
                                providers w in
  r = Return tt
  /\ SesHandler.lookups (SesHandler.trace w') = [7].
Proof.
  intros providers config w.
  pose proof (SES_getDefaultConfig_notifies_each_config_once
                (fun r => (Return (Some config), r)) providers w config tt
                eq_refl eq_refl) as Hrun.
  destruct (SesHandler.getDefaultConfig _ providers w) as [r w'] eqn:Hw'.
  destruct Hrun as (Hr & _).
  split; [exact Hr|].
  vm_compute in Hw'. injection Hw' as _ <-. reflexivity.
Defined.

(** A second [getDefaultConfig] that is handed the [configsMap] the first
    one left starts no user lookup: every SES provider of the first run is
    skipped. *)
Theorem SES_getDefaultConfig_second_run_notifies_nobody {R : Type}
  (findDefaultSESConfig : R -> Res (option SesHandler.SESConfig.t) * R)
  (providers : list SesHandler.Provider.t) (w : SesHandler.World R)
  (config1 config2 : SesHandler.SESConfig.t) (repo1 repo2 : R) :
  findDefaultSESConfig (SesHandler.repo w) = (Return (Some config1), repo1) ->
  findDefaultSESConfig repo1 = (Return (Some config2), repo2) ->
  SesHandler.truthy (SesHandler.SESConfig.from_email config1) = true ->
  let w1 := (SesHandler.getDefaultConfig findDefaultSESConfig providers w).2 in
  let w2 := (SesHandler.getDefaultConfig findDefaultSESConfig providers w1).2 in
  SesHandler.lookups (SesHandler.trace w2)
  = SesHandler.lookups (SesHandler.trace w1).
Proof.
  intros Hrepo1 Hrepo2 Hsender1 w1 w2. subst w2 w1.
  destruct (getDefaultConfig_run findDefaultSESConfig providers w config1 repo1
              Hrepo1 Hsender1)
    as (w1 & ids1 & -> & Hrepo & _ & Hset & _). cbn [snd].
  rewrite <- Hrepo in Hrepo2.
  destruct (SesHandler.truthy (SesHandler.SESConfig.from_email config2))
    eqn:Hsender2.
  - destruct (getDefaultConfig_run findDefaultSESConfig providers w1 config2
                repo2 Hrepo2 Hsender2)
      as (w2 & ids2 & -> & _ & _ & _ & Hlook & _ & Hids). cbn [snd].
    rewrite Hlook.
    assert (ids2 = []) as ->; [|apply app_nil_r].
    destruct ids2 as [|id ids2]; [reflexivity|]. exfalso.
    destruct (proj1 (Hids id)) as (p & Hp & Hses & Hfresh & _); [left|].
    rewrite (Hset p Hp Hses) in Hfresh. discriminate.
  - pose proof (getDefaultConfig_idle findDefaultSESConfig providers w1)
      as Hidle.
    destruct (SesHandler.getDefaultConfig _ providers w1) as [r2 w2].
    apply Hidle. intros config repo' Hrepo'. congruence.
Qed.

Lemma SES_getDefaultConfig_second_run_notifies_nobody_witness :
  let providers :=
    [SesHandler.Provider.mk "ses" 7 (Some None);
     SesHandler.Provider.mk "ses" 9 (Some None)] in
  let config :=
    SesHandler.SESConfig.mk (Some "eu") (Some "k") (Some "s") (Some "a@b.c") in
  let find := fun r : unit => (Return (Some config), r) in
  let w := SesHandler.mkWorld tt None ∅ ∅ None None [] in
  let w1 := (SesHandler.getDefaultConfig find providers w).2 in
  let w2 := (SesHandler.getDefaultConfig find providers w1).2 in
  SesHandler.lookups (SesHandler.trace w2)
  = SesHandler.lookups (SesHandler.trace w1).
Proof.
  intros providers config find w.
  exact (SES_getDefaultConfig_second_run_notifies_nobody find providers w
           config config tt tt eq_refl eq_refl eq_refl).
Defined.

(** Without a usable default configuration (the repository throws, or
    finds nothing, or the row has no sender address), [getDefaultConfig]
    starts no user lookup and leaves both maps alone. In the first two
    cases it throws the error ['Unable to get default SES config'] and
    leaves [sesConfig] as it was; in the third it returns, [sesConfig]
    holding the row. *)
Theorem SES_getDefaultConfig_without_sender {R : Type}
  (findDefaultSESConfig : R -> Res (option SesHandler.SESConfig.t) * R)
  (providers : list SesHandler.Provider.t) (w : SesHandler.World R) :
  (forall config repo',
      findDefaultSESConfig (SesHandler.repo w) = (Return (Some config), repo') ->
      SesHandler.truthy (SesHandler.SESConfig.from_email config) = false) ->
  let '(r, w') :=
    SesHandler.getDefaultConfig findDefaultSESConfig providers w in
  SesHandler.lookups (SesHandler.trace w')
  = SesHandler.lookups (SesHandler.trace w)
  /\ SesHandler.configsMap w' = SesHandler.configsMap w
  /\ SesHandler.emailMap w' = SesHandler.emailMap w
  /\ match (findDefaultSESConfig (SesHandler.repo w)).1 with
     | Return (Some config) =>
         r = Return tt /\ SesHandler.sesConfig w' = Some config
     | _ =>
         r = Throw (OtherError "Unable to get default SES config")
         /\ SesHandler.sesConfig w' = SesHandler.sesConfig w
     end.
Proof. apply getDefaultConfig_idle. Qed.

Lemma SES_getDefaultConfig_without_sender_witness :
  let providers := [SesHandler.Provider.mk "ses" 7 (Some None)] in
  let w := SesHandler.mkWorld tt None ∅ ∅ None None [] in
  let '(r, w') :=
    SesHandler.getDefaultConfig (fun r : unit => (Return None, r))
                                providers w in
  SesHandler.lookups (SesHandler.trace w') = []
  /\ SesHandler.configsMap w' = ∅
  /\ SesHandler.emailMap w' = ∅
  /\ r = Throw (OtherError "Unable to get default SES config")
     /\ SesHandler.sesConfig w' = None.
Proof.
  intros providers w.
  apply (SES_getDefaultConfig_without_sender
           (fun r : unit => (Return None, r)) providers w).
  intros config repo' [=].
Defined.

Section Callbacks.

Context {R : Type}.
Variable addRule : string -> Res unit.
Variables (correlationId template : string).

Lemma pending_app (tr new : list SesHandler.SesEvent) :
  SesHandler.pending (tr ++ new)
  = fold_left (fun n e =>
                 match e with
                 | SesHandler.EngineRun _ => S n
                 | SesHandler.EngineResolved => Nat.pred n
                 | _ => n
                 end) new (SesHandler.pending tr).
Proof. unfold SesHandler.pending. apply fold_left_app. Qed.

Lemma recipients_app (tr new : list SesHandler.SesEvent) :
  SesHandler.recipients (tr ++ new)
  = SesHandler.recipients tr ++ SesHandler.recipients new.
Proof. unfold SesHandler.recipients. apply omap_app. Qed.

Lemma run_app (steps1 steps2 : list SesHandler.Step) (w : SesHandler.World R) :
  SesHandler.run addRule correlationId template (steps1 ++ steps2) w
  = SesHandler.run addRule correlationId template steps2
      (SesHandler.run addRule correlationId template steps1 w).
Proof.
  revert w. induction steps1 as [|s steps1 IH]; intros w; [reflexivity|].
  cbn. apply IH.
Qed.

(** One step. It claims one address at most: the one of the user a lookup
    has found, when that address is not set in [emailMap]; it then sets the
    address and writes it into the payload. The mails it renders are
    rendered from the payload as the step leaves it, and each one is paid
    for by the claim of the step or by an engine run that was pending. *)
Lemma step_effect (s : SesHandler.Step) (w : SesHandler.World R) :
  let w1 := (SesHandler.step addRule correlationId template s w).2 in
  exists (claimed : list string) (new : list SesHandler.SesEvent),
    SesHandler.trace w1 = SesHandler.trace w ++ new
    /\ SesHandler.configsMap w1 = SesHandler.configsMap w
    /\ (claimed = []
        /\ SesHandler.emailMap w1 = SesHandler.emailMap w
        /\ SesHandler.toEmail w1 = SesHandler.toEmail w
        /\ (forall p u,
               s = SesHandler.UserResolved p (Some u) ->
               SesHandler.not_set (SesHandler.emailMap w)
                                  (SesHandler.User.email_id u) = false)
        \/ exists p u,
             s = SesHandler.UserResolved p (Some u)
             /\ claimed = [SesHandler.User.email_id u]
             /\ SesHandler.not_set (SesHandler.emailMap w)
                                   (SesHandler.User.email_id u) = true
             /\ SesHandler.emailMap w1
                = <[SesHandler.User.email_id u := true]> (SesHandler.emailMap w)
             /\ SesHandler.toEmail w1 = Some (SesHandler.User.email_id u))
    /\ (length (SesHandler.recipients new) + SesHandler.pending (SesHandler.trace w1)
        <= SesHandler.pending (SesHandler.trace w) + length claimed)%nat
    /\ (forall r, r ∈ SesHandler.recipients new -> r = SesHandler.toEmail w1).
Proof.
  destruct s as [p [u|]| |config]; cbn zeta.
  - (* a user is found *)
    unfold SesHandler.step, SesHandler.processNotification_then,
      SesHandler.preparePaylodAndSend, SesHandler.sendNotification,
      bind, ret, throw, lift, SesHandler.emit, SesHandler.emailMap_not_set,
      SesHandler.emailMap_set, SesHandler.set_toEmail, SesHandler.set_fromEmail,
      SesHandler.get_sesConfig, SesHandler.payload_emails.
    destruct (SesHandler.not_set (SesHandler.emailMap w)
                                 (SesHandler.User.email_id u)) eqn:Hfresh; cbn -[SesHandler.pending].
    + exists [SesHandler.User.email_id u].
      destruct (SesHandler.sesConfig w) as [config|]; cbn -[SesHandler.pending].
      * destruct (SesHandler.Provider.rule p) as [conditions|]; cbn -[SesHandler.pending].
        -- destruct (SesHandler.truthy conditions); cbn -[SesHandler.pending].
           ++ destruct (addRule (default EmptyString conditions)) as [[]|e]; cbn -[SesHandler.pending].
              ** eexists. split; [reflexivity|]. split; [reflexivity|].
                 split; [right; exists p, u; repeat split; exact Hfresh|].
                 rewrite pending_app. cbn [fold_left app]. split; [cbn [length SesHandler.recipients omap list_omap]; lia|].
                 intros r Hr. apply elem_of_nil in Hr. contradiction.
              ** exists []. rewrite app_nil_r.
                 split; [reflexivity|]. split; [reflexivity|].
                 split; [right; exists p, u; repeat split; exact Hfresh|].
                 cbn -[SesHandler.pending]. split; [lia|].
                 intros r Hr. apply elem_of_nil in Hr. contradiction.
           ++ eexists. split; [reflexivity|]. split; [reflexivity|].
              split; [right; exists p, u; repeat split; exact Hfresh|].
              rewrite pending_app. cbn [fold_left app]. split; [cbn [length SesHandler.recipients omap list_omap]; lia|].
              intros r Hr. apply list_elem_of_singleton in Hr. exact Hr.
        -- exists []. rewrite app_nil_r.
           split; [reflexivity|]. split; [reflexivity|].
           split; [right; exists p, u; repeat split; exact Hfresh|].
           cbn -[SesHandler.pending]. split; [lia|].
           intros r Hr. apply elem_of_nil in Hr. contradiction.
      * exists []. rewrite app_nil_r.
        split; [reflexivity|]. split; [reflexivity|].
        split; [right; exists p, u; repeat split; exact Hfresh|].
        cbn -[SesHandler.pending]. split; [lia|].
        intros r Hr. apply elem_of_nil in Hr. contradiction.
    + exists [], [SesHandler.LogInfo "duplicate email filtered out"].
      split; [reflexivity|]. split; [reflexivity|].
      split.
      { left. repeat split. intros p0 u0 [= _ <-]. exact Hfresh. }
      rewrite pending_app. cbn [fold_left app]. split; [cbn [length SesHandler.recipients omap list_omap]; lia|].
      intros r Hr. apply elem_of_nil in Hr. contradiction.
  - (* no user is found *)
    exists [], [SesHandler.LogInfo "no user found for id";
                SesHandler.LogInfo correlationId].
    cbn -[SesHandler.pending]. rewrite <- app_assoc.
    split; [reflexivity|]. split; [reflexivity|].
    split.
    { left. repeat split. intros p0 u0 [=]. }
    rewrite pending_app. cbn [fold_left app]. split; [cbn [length SesHandler.recipients omap list_omap]; lia|].
    intros r Hr. apply elem_of_nil in Hr. contradiction.
  - (* an engine run resolves *)
    unfold SesHandler.step.
    destruct (0 <? SesHandler.pending (SesHandler.trace w))%nat eqn:Hpending.
    + apply Nat.ltb_lt in Hpending.
      exists [], [SesHandler.EngineResolved;
                  SesHandler.Render template (SesHandler.toEmail w)
                                    (SesHandler.fromEmail w)].
      cbn -[SesHandler.pending]. rewrite <- app_assoc.
      split; [reflexivity|]. split; [reflexivity|].
      split.
      { left. repeat split. intros p0 u0 [=]. }
      rewrite pending_app. cbn [fold_left app]. split; [cbn [length SesHandler.recipients omap list_omap]; lia|].
      intros r Hr. apply list_elem_of_singleton in Hr. exact Hr.
    + exists [], []. cbn -[SesHandler.pending]. rewrite app_nil_r.
      split; [reflexivity|]. split; [reflexivity|].
      split.
      { left. repeat split. intros p0 u0 [=]. }
      split; [lia|].
      intros r Hr. apply elem_of_nil in Hr. contradiction.
  - (* the shared configuration is written *)
    exists [], []. cbn -[SesHandler.pending]. rewrite app_nil_r.
    split; [reflexivity|]. split; [reflexivity|].
    split.
    { left. repeat split. intros p0 u0 [=]. }
    split; [lia|].
    intros r Hr. apply elem_of_nil in Hr. contradiction.
Qed.

(** A schedule. The addresses it claims are those of the users found that
    were not set in [emailMap]; each is claimed once and ends up set. The
    mails rendered are paid for by the claims and by the engine runs that
    were pending, and each is rendered from a payload whose [toEmail] is a
    claimed address or the one the payload had. *)
Lemma run_effect (steps : list SesHandler.Step) :
  forall w : SesHandler.World R,
    let w' := SesHandler.run addRule correlationId template steps w in
    exists (claimed : list string) (new : list SesHandler.SesEvent),
      SesHandler.trace w' = SesHandler.trace w ++ new
      /\ SesHandler.configsMap w' = SesHandler.configsMap w
      /\ NoDup claimed
      /\ (forall a,
             a ∈ claimed
             <-> SesHandler.not_set (SesHandler.emailMap w) a = true
                 /\ exists p u,
                      SesHandler.UserResolved p (Some u) ∈ steps
                      /\ a = SesHandler.User.email_id u)
      /\ (forall key,
             SesHandler.not_set (SesHandler.emailMap w') key = false
             <-> SesHandler.not_set (SesHandler.emailMap w) key = false
                 \/ key ∈ claimed)
      /\ (length (SesHandler.recipients new)
          + SesHandler.pending (SesHandler.trace w')
          <= SesHandler.pending (SesHandler.trace w) + length claimed)%nat
      /\ (forall r,
             r ∈ SesHandler.recipients new ->
             r = SesHandler.toEmail w
             \/ exists a, a ∈ claimed /\ r = Some a)
      /\ (SesHandler.toEmail w' = SesHandler.toEmail w
          \/ exists a, a ∈ claimed /\ SesHandler.toEmail w' = Some a).
Proof.
  induction steps as [|s steps IH]; intros w; cbn zeta.
  - exists [], []. cbn [SesHandler.run]. rewrite app_nil_r.
    split; [reflexivity|]. split; [reflexivity|].
    split; [apply NoDup_nil_2|].
    split.
    { intros a. split.
      - intros Hin. apply elem_of_nil in Hin. contradiction.
      - intros (_ & p & u & Hin & _). apply elem_of_nil in Hin. contradiction. }
    split.
    { intros key. split; [intros H; left; exact H|].
      intros [H|Hin]; [exact H|]. apply elem_of_nil in Hin. contradiction. }
    split; [cbn; lia|].
    split; [|left; reflexivity].
    intros r Hr. apply elem_of_nil in Hr. contradiction.
  - cbn [SesHandler.run].
    pose proof (step_effect s w) as Hstep. cbn zeta in Hstep.
    remember (SesHandler.step addRule correlationId template s w).2
      as w1 eqn:Hw1.
    clear Hw1.
    destruct Hstep as (c1 & new1 & Htr1 & Hcfg1 & Hclaim & Hcount1 & Hrec1).
    destruct (IH w1)
      as (c2 & new2 & Htr2 & Hcfg2 & Hnodup2 & Hin2 & Hmap2 & Hcount2
          & Hrec2 & Hto2).
    cbn zeta in *.
    exists (c1 ++ c2), (new1 ++ new2).
    split; [rewrite Htr2, Htr1, app_assoc; reflexivity|].
    split; [congruence|].
    destruct Hclaim
      as [(-> & Hmap1 & Hto1 & Hnone)
         |(p & u & -> & -> & Hfresh & Hmap1 & Hto1)].
    + (* the step claims nothing *)
      cbn [app]. rewrite Hmap1 in Hin2, Hmap2. rewrite Hto1 in Hrec1, Hrec2, Hto2.
      split; [exact Hnodup2|].
      split.
      { intros a. rewrite Hin2. split.
        - intros (Hfresh & p & u & Hin & ->).
          split; [exact Hfresh|]. exists p, u. split; [right; exact Hin|reflexivity].
        - intros (Hfresh & p & u & Hin & ->).
          split; [exact Hfresh|].
          apply elem_of_cons in Hin as [Heq|Hin].
          + rewrite (Hnone p u (eq_sym Heq)) in Hfresh. discriminate Hfresh.
          + exists p, u. split; [exact Hin|reflexivity]. }
      split; [exact Hmap2|].
      split.
      { rewrite recipients_app, length_app. cbn [length] in Hcount1. lia. }
      split; [|exact Hto2].
      intros r Hr. rewrite recipients_app in Hr.
      apply elem_of_app in Hr as [Hr|Hr].
      * left. apply Hrec1. exact Hr.
      * apply Hrec2. exact Hr.
    + (* the step claims the address of [u] *)
      cbn [app].
      assert (Hset1 : forall key,
                 SesHandler.not_set (SesHandler.emailMap w1) key = false
                 <-> SesHandler.not_set (SesHandler.emailMap w) key = false
                     \/ key = SesHandler.User.email_id u).
      { intros key. rewrite Hmap1, not_set_insert.
        destruct (decide (SesHandler.User.email_id u = key)) as [<-|Hne].
        - split; [intros _; right; reflexivity | reflexivity].
        - split; [intros H; left; exact H|].
          intros [H| ->]; [exact H | contradiction]. }
      split.
      { apply NoDup_cons. split; [|exact Hnodup2].
        intros Hin. apply Hin2 in Hin as [Hnot _].
        assert (SesHandler.not_set (SesHandler.emailMap w1)
                                   (SesHandler.User.email_id u) = false)
          by (apply Hset1; right; reflexivity).
        congruence. }
      split.
      { intros a. rewrite elem_of_cons, Hin2. split.
        - intros [-> |(Hnot & q & v & Hin & ->)].
          + split; [exact Hfresh|]. exists p, u. split; [left|reflexivity].
          + split.
            * destruct (SesHandler.not_set (SesHandler.emailMap w)
                                           (SesHandler.User.email_id v))
                eqn:Hw; [reflexivity|].
              assert (SesHandler.not_set (SesHandler.emailMap w1)
                                         (SesHandler.User.email_id v) = false)
                by (apply Hset1; left; exact Hw).
              congruence.
            * exists q, v. split; [right; exact Hin|reflexivity].
        - intros (Hnot & q & v & Hin & ->).
          destruct (decide (SesHandler.User.email_id v
                            = SesHandler.User.email_id u)) as [Heq|Hne];
            [left; exact Heq|].
          right. split.
          + destruct (SesHandler.not_set (SesHandler.emailMap w1)
                                         (SesHandler.User.email_id v))
              eqn:Hw1; [reflexivity|].
            apply Hset1 in Hw1 as [Hw|Heq]; [congruence|contradiction].
          + apply elem_of_cons in Hin as [[= -> ->]|Hin]; [contradiction|].
            exists q, v. split; [exact Hin|reflexivity]. }
      split.
      { intros key. rewrite Hmap2, Hset1, elem_of_cons. tauto. }
      split.
      { rewrite recipients_app, length_app. cbn [length] in *. lia. }
      split.
      * intros r Hr. rewrite recipients_app in Hr.
        apply elem_of_app in Hr as [Hr|Hr].
        -- right. exists (SesHandler.User.email_id u).
           split; [left|]. rewrite (Hrec1 r Hr). exact Hto1.
        -- apply Hrec2 in Hr as [-> |(a & Ha & ->)].
           ++ right. exists (SesHandler.User.email_id u).
              split; [left | exact Hto1].
           ++ right. exists a. split; [right; exact Ha | reflexivity].
      * right. destruct Hto2 as [Hto2|(a & Ha & Hto2)].
        -- exists (SesHandler.User.email_id u).
           split; [left | rewrite Hto2; exact Hto1].
        -- exists a. split; [right; exact Ha | exact Hto2].
Qed.

(** The callback of a lookup that has found a user whose address is not
    set, while [sesConfig] is set, for a provider whose rule has conditions
    that the engine accepts: the address is claimed and the engine run
    started; no mail is rendered yet. *)
Lemma callback_starts_engine (p : SesHandler.Provider.t)
  (u : SesHandler.User.t) (w : SesHandler.World R)
  (config : SesHandler.SESConfig.t) (conditions : option string) :
  SesHandler.sesConfig w = Some config ->
  SesHandler.Provider.rule p = Some conditions ->
  SesHandler.truthy conditions = true ->
  addRule (default EmptyString conditions) = Return tt ->
  SesHandler.not_set (SesHandler.emailMap w) (SesHandler.User.email_id u)
  = true ->
  (SesHandler.step addRule correlationId template
                   (SesHandler.UserResolved p (Some u)) w).2
  = SesHandler.mkWorld (SesHandler.repo w) (Some config)
      (SesHandler.configsMap w)
      (<[SesHandler.User.email_id u := true]> (SesHandler.emailMap w))
      (Some (SesHandler.User.email_id u))
      (SesHandler.SESConfig.from_email config)
      (SesHandler.trace w ++ [SesHandler.EngineRun (default EmptyString conditions)]).
Proof.
  intros Hconfig Hrule Htruthy Haccepted Hfresh.
  unfold SesHandler.step, SesHandler.processNotification_then,
    SesHandler.preparePaylodAndSend, bind, SesHandler.emailMap_not_set,
    SesHandler.emailMap_set, SesHandler.set_toEmail, SesHandler.set_fromEmail,
    SesHandler.get_sesConfig, lift, SesHandler.emit.
  rewrite Hfresh. cbn. rewrite Hconfig, Hrule. cbn.
  rewrite Htruthy, Haccepted. reflexivity.
Qed.

(** The same for a provider whose rule has no conditions: the mail is
    rendered at once, from the payload that holds the address just
    claimed. *)
Lemma callback_renders_at_once (p : SesHandler.Provider.t)
  (u : SesHandler.User.t) (w : SesHandler.World R)
  (config : SesHandler.SESConfig.t) (conditions : option string) :
  SesHandler.sesConfig w = Some config ->
  SesHandler.Provider.rule p = Some conditions ->
  SesHandler.truthy conditions = false ->
  SesHandler.not_set (SesHandler.emailMap w) (SesHandler.User.email_id u)
  = true ->
  (SesHandler.step addRule correlationId template
                   (SesHandler.UserResolved p (Some u)) w).2
  = SesHandler.mkWorld (SesHandler.repo w) (Some config)
      (SesHandler.configsMap w)
      (<[SesHandler.User.email_id u := true]> (SesHandler.emailMap w))
      (Some (SesHandler.User.email_id u))
      (SesHandler.SESConfig.from_email config)
      (SesHandler.trace w ++
       [SesHandler.Render template (Some (SesHandler.User.email_id u))
                          (SesHandler.SESConfig.from_email config)]).
Proof.
  intros Hconfig Hrule Hfalsy Hfresh.
  unfold SesHandler.step, SesHandler.processNotification_then,
    SesHandler.preparePaylodAndSend, SesHandler.sendNotification, bind,
    SesHandler.emailMap_not_set, SesHandler.emailMap_set,
    SesHandler.set_toEmail, SesHandler.set_fromEmail,
    SesHandler.get_sesConfig, SesHandler.payload_emails, lift, SesHandler.emit.
  rewrite Hfresh. cbn. rewrite Hconfig, Hrule. cbn.
  rewrite Hfalsy. reflexivity.
Qed.

(** Engine runs resolving one after the other: each one that was pending
    renders a mail from the payload as it is now. *)
Lemma engine_phase (n : nat) :
  forall w : SesHandler.World R,
    let w' :=
      SesHandler.run addRule correlationId template
        (replicate n SesHandler.EngineRunResolved) w in
    SesHandler.recipients (SesHandler.trace w')
    = SesHandler.recipients (SesHandler.trace w)
      ++ replicate (n `min` SesHandler.pending (SesHandler.trace w))
                   (SesHandler.toEmail w)
    /\ SesHandler.emailMap w' = SesHandler.emailMap w.
Proof.
  induction n as [|n IH]; intros w; cbn zeta.
  - cbn. rewrite app_nil_r. split; reflexivity.
  - cbn [replicate SesHandler.run SesHandler.step].
    destruct (0 <? SesHandler.pending (SesHandler.trace w))%nat eqn:Hpending.
    + apply Nat.ltb_lt in Hpending.
      destruct (IH ((do _ <- SesHandler.emit SesHandler.EngineResolved;
                     SesHandler.engine_run_then template) w).2)
        as [Hrec Hmap].
      cbn zeta in Hrec, Hmap. rewrite Hrec, Hmap.
      cbn -[SesHandler.pending replicate Nat.min].
      rewrite <- app_assoc, pending_app, recipients_app.
      cbn [fold_left app SesHandler.recipients omap list_omap].
      split; [|reflexivity].
      rewrite <- app_assoc. f_equal.
      destruct (SesHandler.pending (SesHandler.trace w)) as [|m]; [lia|].
      cbn [Nat.pred]. rewrite <- Nat.succ_min_distr. reflexivity.
    + apply Nat.ltb_ge in Hpending.
      destruct (IH w) as [Hrec Hmap]. cbn zeta in Hrec, Hmap.
      cbn [snd]. rewrite Hrec, Hmap. split; [|reflexivity].
      replace (SesHandler.pending (SesHandler.trace w)) with 0%nat by lia.
      rewrite !Nat.min_0_r. reflexivity.
Qed.

(** Lookups that resolve one after the other, each with a user whose
    address is new, for providers whose rules have conditions the engine
    accepts: every address is claimed and one engine run is started for
    each; the payload is left holding the address claimed last. *)
Lemma lookup_phase (found : list (SesHandler.Provider.t * SesHandler.User.t))
  (config : SesHandler.SESConfig.t) :
  forall w : SesHandler.World R,
    SesHandler.sesConfig w = Some config ->
    (forall p u,
        (p, u) ∈ found ->
        exists conditions,
          SesHandler.Provider.rule p = Some conditions
          /\ SesHandler.truthy conditions = true
          /\ addRule (default EmptyString conditions) = Return tt) ->
    NoDup ((fun pu => SesHandler.User.email_id pu.2) <$> found) ->
    (forall p u,
        (p, u) ∈ found ->
        SesHandler.not_set (SesHandler.emailMap w) (SesHandler.User.email_id u)
        = true) ->
    let w1 :=
      SesHandler.run addRule correlationId template
        ((fun pu => SesHandler.UserResolved pu.1 (Some pu.2)) <$> found) w in
    SesHandler.recipients (SesHandler.trace w1)
    = SesHandler.recipients (SesHandler.trace w)
    /\ SesHandler.pending (SesHandler.trace w1)
       = (SesHandler.pending (SesHandler.trace w) + length found)%nat
    /\ SesHandler.toEmail w1
       = fold_left (fun _ pu => Some (SesHandler.User.email_id pu.2)) found
                   (SesHandler.toEmail w)
    /\ (forall key,
           SesHandler.not_set (SesHandler.emailMap w1) key = false
           <-> SesHandler.not_set (SesHandler.emailMap w) key = false
               \/ exists p u, (p, u) ∈ found
                              /\ key = SesHandler.User.email_id u).
Proof.
  induction found as [|[p u] found IH]; intros w Hconfig Hrules Hnodup Hfresh;
    cbn zeta.
  - cbn. split; [reflexivity|]. split; [lia|]. split; [reflexivity|].
    intros key. split; [intros H; left; exact H|].
    intros [H|(p & u & Hin & _)]; [exact H|].
    apply elem_of_nil in Hin. contradiction.
  - cbn [fmap list_fmap SesHandler.run fst snd].
    destruct (Hrules p u) as (conditions & Hrule & Htruthy & Haccepted);
      [left|].
    rewrite (callback_starts_engine p u w config conditions Hconfig Hrule
               Htruthy Haccepted (Hfresh p u ltac:(left))).
    cbn [fmap list_fmap] in Hnodup. apply NoDup_cons in Hnodup as [Hnew Hnodup].
    edestruct (IH (SesHandler.mkWorld (SesHandler.repo w) (Some config)
                     (SesHandler.configsMap w)
                     (<[SesHandler.User.email_id u := true]>
                        (SesHandler.emailMap w))
                     (Some (SesHandler.User.email_id u))
                     (SesHandler.SESConfig.from_email config)
                     (SesHandler.trace w ++
                      [SesHandler.EngineRun (default EmptyString conditions)])))
      as (Hrec & Hpending & Hto & Hmap).
    + reflexivity.
    + intros q v Hin. apply (Hrules q v). right. exact Hin.
    + exact Hnodup.
    + intros q v Hin. cbn [SesHandler.emailMap]. rewrite not_set_insert.
      destruct (decide _) as [Heq|_]; [|apply (Hfresh q v); right; exact Hin].
      exfalso. apply Hnew. cbn [snd]. rewrite Heq.
      apply (list_elem_of_fmap_2 (fun pu => SesHandler.User.email_id pu.2)
                                 found (q, v)). exact Hin.
    + cbn zeta in Hrec, Hpending, Hto, Hmap.
      rewrite Hrec, Hpending, Hto.
      cbn [SesHandler.trace SesHandler.toEmail SesHandler.emailMap] in *.
      rewrite recipients_app, pending_app.
      cbn [fold_left SesHandler.recipients omap list_omap length snd].
      rewrite app_nil_r.
      split; [reflexivity|]. split; [lia|]. split; [reflexivity|].
      intros key. rewrite Hmap, not_set_insert.
      destruct (decide (SesHandler.User.email_id u = key)) as [<-|Hne].
      * split; [|intros _; left; reflexivity].
        intros _. right. exists p, u. split; [left|reflexivity].
      * split.
        -- intros [H|(q & v & Hin & ->)]; [left; exact H|].
           right. exists q, v. split; [right; exact Hin|reflexivity].
        -- intros [H|(q & v & Hin & ->)]; [left; exact H|].
           apply elem_of_cons in Hin as [[= -> ->]|Hin]; [contradiction|].
           right. exists q, v. split; [exact Hin|reflexivity].
Qed.

(** Lookups that resolve one after the other while [sesConfig] is set, for
    providers whose rules have no conditions: each address that is claimed
    has its mail rendered at once, from a payload that holds it. *)
Lemma unconditional_phase
  (looked_up : list (SesHandler.Provider.t * option SesHandler.User.t))
  (config : SesHandler.SESConfig.t) :
  forall w : SesHandler.World R,
    SesHandler.sesConfig w = Some config ->
    (forall p user,
        (p, user) ∈ looked_up ->
        exists conditions,
          SesHandler.Provider.rule p = Some conditions
          /\ SesHandler.truthy conditions = false) ->
    let w' :=
      SesHandler.run addRule correlationId template
        ((fun pu => SesHandler.UserResolved pu.1 pu.2) <$> looked_up) w in
    exists claimed,
      SesHandler.recipients (SesHandler.trace w')
      = SesHandler.recipients (SesHandler.trace w) ++ (Some <$> claimed)
      /\ NoDup claimed
      /\ (forall a,
             a ∈ claimed
             <-> SesHandler.not_set (SesHandler.emailMap w) a = true
                 /\ exists p u, (p, Some u) ∈ looked_up
                                /\ a = SesHandler.User.email_id u)
      /\ (forall key,
             SesHandler.not_set (SesHandler.emailMap w') key = false
             <-> SesHandler.not_set (SesHandler.emailMap w) key = false
                 \/ key ∈ claimed).
Proof.
  induction looked_up as [|[p user] looked_up IH]; intros w Hconfig Hrules;
    cbn zeta.
  - exists []. cbn. rewrite app_nil_r. split; [reflexivity|].
    split; [apply NoDup_nil_2|].
    split.
    + intros a. split.
      * intros Hin. apply elem_of_nil in Hin. contradiction.
      * intros (_ & p & u & Hin & _). apply elem_of_nil in Hin. contradiction.
    + intros key. split; [intros H; left; exact H|].
      intros [H|Hin]; [exact H|]. apply elem_of_nil in Hin. contradiction.
  - cbn [fmap list_fmap SesHandler.run fst snd].
    assert (Hrules' : forall q user',
               (q, user') ∈ looked_up ->
               exists conditions,
                 SesHandler.Provider.rule q = Some conditions
                 /\ SesHandler.truthy conditions = false)
      by (intros q user' Hin; apply (Hrules q user'); right; exact Hin).
    destruct user as [u|].
    + destruct (SesHandler.not_set (SesHandler.emailMap w)
                                   (SesHandler.User.email_id u)) eqn:Hfresh.
      * (* a new address: claimed and rendered *)
        destruct (Hrules p (Some u)) as (conditions & Hrule & Hfalsy); [left|].
        rewrite (callback_renders_at_once p u w config conditions Hconfig
                   Hrule Hfalsy Hfresh).
        edestruct (IH (SesHandler.mkWorld (SesHandler.repo w) (Some config)
                         (SesHandler.configsMap w)
                         (<[SesHandler.User.email_id u := true]>
                            (SesHandler.emailMap w))
                         (Some (SesHandler.User.email_id u))
                         (SesHandler.SESConfig.from_email config)
                         (SesHandler.trace w ++
                          [SesHandler.Render template
                             (Some (SesHandler.User.email_id u))
                             (SesHandler.SESConfig.from_email config)])))
          as (claimed & Hrec & Hnodup & Hin & Hmap);
          [reflexivity | exact Hrules' |].
        cbn zeta in Hrec, Hin, Hmap.
        cbn [SesHandler.trace SesHandler.emailMap] in Hrec, Hin, Hmap.
        exists (SesHandler.User.email_id u :: claimed).
        split.
        { rewrite Hrec, recipients_app, <- app_assoc. reflexivity. }
        assert (Hset : forall key,
                   SesHandler.not_set
                     (<[SesHandler.User.email_id u := true]>
                        (SesHandler.emailMap w)) key = true
                   <-> SesHandler.not_set (SesHandler.emailMap w) key = true
                       /\ key <> SesHandler.User.email_id u).
        { intros key. rewrite not_set_insert.
          destruct (decide (SesHandler.User.email_id u = key)) as [<-|Hne].
          - split; [discriminate | intros [_ Hne]; contradiction].
          - split; [intros H; split; [exact H | congruence] | intros [H _]; exact H]. }
        split.
        { apply NoDup_cons. split; [|exact Hnodup].
          intros Hu. apply Hin in Hu as [Hu _]. apply Hset in Hu as [_ Hu].
          contradiction. }
        split.
        { intros a. rewrite elem_of_cons, Hin, Hset. split.
          - intros [-> |((Hnot & Hne) & q & v & Hv & ->)].
            + split; [exact Hfresh|]. exists p, u. split; [left|reflexivity].
            + split; [exact Hnot|]. exists q, v. split; [right; exact Hv|reflexivity].
          - intros (Hnot & q & v & Hv & ->).
            destruct (decide (SesHandler.User.email_id v
                              = SesHandler.User.email_id u)) as [Heq|Hne];
              [left; exact Heq|].
            right. split; [split; [exact Hnot | exact Hne]|].
            apply elem_of_cons in Hv as [[= -> ->]|Hv]; [contradiction|].
            exists q, v. split; [exact Hv|reflexivity]. }
        intros key. rewrite Hmap, not_set_insert, elem_of_cons.
        destruct (decide (SesHandler.User.email_id u = key)) as [<-|Hne].
        -- split; [intros _; right; left; reflexivity | intros _; left; reflexivity].
        -- split.
           ++ intros [H|H]; [left; exact H | right; right; exact H].
           ++ intros [H|[->|H]]; [left; exact H | contradiction | right; exact H].
      * (* an address already set: filtered out *)
        assert (Hstep : (SesHandler.step addRule correlationId template
                           (SesHandler.UserResolved p (Some u)) w).2
                        = SesHandler.mkWorld (SesHandler.repo w)
                            (SesHandler.sesConfig w) (SesHandler.configsMap w)
                            (SesHandler.emailMap w) (SesHandler.toEmail w)
                            (SesHandler.fromEmail w)
                            (SesHandler.trace w ++
                             [SesHandler.LogInfo "duplicate email filtered out"])).
        { unfold SesHandler.step, SesHandler.processNotification_then, bind,
            SesHandler.emailMap_not_set. rewrite Hfresh. reflexivity. }
        rewrite Hstep.
        edestruct (IH (SesHandler.mkWorld (SesHandler.repo w)
                         (SesHandler.sesConfig w) (SesHandler.configsMap w)
                         (SesHandler.emailMap w) (SesHandler.toEmail w)
                         (SesHandler.fromEmail w)
                         (SesHandler.trace w ++
                          [SesHandler.LogInfo "duplicate email filtered out"])))
          as (claimed & Hrec & Hnodup & Hin & Hmap);
          [exact Hconfig | exact Hrules' |].
        cbn zeta in Hrec, Hin, Hmap.
        cbn [SesHandler.trace SesHandler.emailMap] in Hrec, Hin, Hmap.
        exists claimed.
        split.
        { rewrite Hrec, recipients_app. cbn. rewrite app_nil_r. reflexivity. }
        split; [exact Hnodup|]. split; [|exact Hmap].
        intros a. rewrite Hin. split.
        -- intros (Hnot & q & v & Hv & ->).
           split; [exact Hnot|]. exists q, v. split; [right; exact Hv|reflexivity].
        -- intros (Hnot & q & v & Hv & ->).
           split; [exact Hnot|].
           apply elem_of_cons in Hv as [[= -> ->]|Hv]; [congruence|].
           exists q, v. split; [exact Hv|reflexivity].
    + (* no user *)
      edestruct (IH (SesHandler.step addRule correlationId template
                       (SesHandler.UserResolved p None) w).2)
        as (claimed & Hrec & Hnodup & Hin & Hmap);
        [exact Hconfig | exact Hrules' |].
      cbn zeta in Hrec, Hin, Hmap.
      exists claimed.
      split.
      { rewrite Hrec. cbn. rewrite <- app_assoc, recipients_app. cbn.
        rewrite app_nil_r. reflexivity. }
      split; [exact Hnodup|]. split; [|exact Hmap].
      intros a. rewrite Hin. cbn. split.
      * intros (Hnot & q & v & Hv & ->).
        split; [exact Hnot|]. exists q, v. split; [right; exact Hv|reflexivity].
      * intros (Hnot & q & v & Hv & ->).
        split; [exact Hnot|].
        apply elem_of_cons in Hv as [[=]|Hv].
        exists q, v. split; [exact Hv|reflexivity].
Qed.

End Callbacks.

(** The callbacks of one event in any schedule: lookups and engine runs
    resolving in any order, [sesConfig] rewritten in between by the
    handling of other events, the engine refusing rules. The addresses
    claimed are those of the users found that were not set in [emailMap];
    each is claimed once and is set in the end, together with what was set
    before. The mails rendered are at most one for each claimed address and
    one for each engine run that was pending at the start, and each is
    rendered from a payload whose [toEmail] is a claimed address or the one
    the payload held at the start. [configsMap] is not written. Which of
    the claimed addresses a mail is rendered for is not fixed by this. *)
Theorem SES_callbacks_claim_each_address_once {R : Type}
  (addRule : string -> Res unit) (correlationId template : string)
  (steps : list SesHandler.Step) (w : SesHandler.World R) :
  let w' := SesHandler.run addRule correlationId template steps w in
  exists (claimed : list string) (new : list SesHandler.SesEvent),
    SesHandler.trace w' = SesHandler.trace w ++ new
    /\ NoDup claimed
    /\ (forall a,
           a ∈ claimed
           <-> SesHandler.not_set (SesHandler.emailMap w) a = true
               /\ exists p u,
                    SesHandler.UserResolved p (Some u) ∈ steps
                    /\ a = SesHandler.User.email_id u)
    /\ (forall key,
           SesHandler.not_set (SesHandler.emailMap w') key = false
           <-> SesHandler.not_set (SesHandler.emailMap w) key = false
               \/ key ∈ claimed)
    /\ (length (SesHandler.recipients new)
        <= SesHandler.pending (SesHandler.trace w) + length claimed)%nat
    /\ (forall r,
           r ∈ SesHandler.recipients new ->
           r = SesHandler.toEmail w \/ exists a, a ∈ claimed /\ r = Some a)
    /\ SesHandler.configsMap w' = SesHandler.configsMap w.
Proof.
  intros w'.
  destruct (run_effect addRule correlationId template steps w)
    as (claimed & new & Htrace & Hcfg & Hnodup & Hin & Hmap & Hcount & Hrec & _).
  exists claimed, new.
  split; [exact Htrace|]. split; [exact Hnodup|]. split; [exact Hin|].
  split; [exact Hmap|]. split; [cbn zeta in Hcount; lia|].
  split; [exact Hrec | exact Hcfg].
Qed.

(** When the lookups of an event all resolve before its engine runs do,
    every mail is rendered for the address claimed last. The lookups find
    users with distinct addresses that are not set in [emailMap], for
    providers whose rules have conditions the engine accepts, while
    [sesConfig] is set: each callback writes its address into the one
    payload of the event and starts an engine run, and each engine run that
    resolves afterwards renders its mail from that payload. All the
    addresses are set in [emailMap] all the same. *)
Theorem SES_rule_mails_rendered_for_last_address {R : Type}
  (addRule : string -> Res unit) (correlationId template : string)
  (found : list (SesHandler.Provider.t * SesHandler.User.t))
  (p_last : SesHandler.Provider.t) (u_last : SesHandler.User.t) (n : nat)
  (config : SesHandler.SESConfig.t) (w : SesHandler.World R) :
  let all_found := found ++ [(p_last, u_last)] in
  SesHandler.sesConfig w = Some config ->
  (forall p u,
      (p, u) ∈ all_found ->
      exists conditions,
        SesHandler.Provider.rule p = Some conditions
        /\ SesHandler.truthy conditions = true
        /\ addRule (default EmptyString conditions) = Return tt) ->
  NoDup ((fun pu => SesHandler.User.email_id pu.2) <$> all_found) ->
  (forall p u,
      (p, u) ∈ all_found ->
      SesHandler.not_set (SesHandler.emailMap w) (SesHandler.User.email_id u)
      = true) ->
  let schedule :=
    ((fun pu => SesHandler.UserResolved pu.1 (Some pu.2)) <$> all_found)
    ++ replicate n SesHandler.EngineRunResolved in
  let w' := SesHandler.run addRule correlationId template schedule w in
  SesHandler.recipients (SesHandler.trace w')
  = SesHandler.recipients (SesHandler.trace w)
    ++ replicate
         (n `min` (SesHandler.pending (SesHandler.trace w) + S (length found)))
         (Some (SesHandler.User.email_id u_last))
  /\ forall p u,
       (p, u) ∈ all_found ->
       SesHandler.not_set (SesHandler.emailMap w') (SesHandler.User.email_id u)
       = false.
Proof.
  intros all_found Hconfig Hrules Hnodup Hfresh schedule w'.
  subst w' schedule. rewrite run_app.
  destruct (lookup_phase addRule correlationId template all_found config w
              Hconfig Hrules Hnodup Hfresh)
    as (Hrec & Hpending & Hto & Hmap).
  cbn zeta in Hrec, Hpending, Hto, Hmap.
  destruct (engine_phase addRule correlationId template n
              (SesHandler.run addRule correlationId template
                 ((fun pu => SesHandler.UserResolved pu.1 (Some pu.2))
                    <$> all_found) w))
    as [Hrec' Hmap'].
  cbn zeta in Hrec', Hmap'.
  split.
  - rewrite Hrec', Hrec, Hpending, Hto.
    unfold all_found. rewrite fold_left_app, length_app. cbn [fold_left length snd].
    replace (length found + 1)%nat with (S (length found)) by lia.
    reflexivity.
  - intros p u Hin. rewrite Hmap'. apply Hmap.
    right. exists p, u. split; [exact Hin|reflexivity].
Qed.

Lemma SES_rule_mails_rendered_for_last_address_witness :
  let rule := Some (Some "all") in
  let config :=
    SesHandler.SESConfig.mk (Some "eu") (Some "k") (Some "s") (Some "from@x") in
  let w := SesHandler.mkWorld tt (Some config) ∅ ∅ None None [] in
  let schedule :=
    [SesHandler.UserResolved (SesHandler.Provider.mk "ses" 1 rule)
                             (Some (SesHandler.User.mk "u1@x"));
     SesHandler.UserResolved (SesHandler.Provider.mk "ses" 9 rule)
                             (Some (SesHandler.User.mk "u9@x"));
     SesHandler.EngineRunResolved; SesHandler.EngineRunResolved] in
  let w' := SesHandler.run (fun _ => Return tt) "c" "t" schedule w in
  SesHandler.recipients (SesHandler.trace w')
  = [] ++ [Some "u9@x"; Some "u9@x"]
  /\ forall p u,
       (p, u) ∈ [(SesHandler.Provider.mk "ses" 1 rule, SesHandler.User.mk "u1@x");
                 (SesHandler.Provider.mk "ses" 9 rule, SesHandler.User.mk "u9@x")] ->
       SesHandler.not_set (SesHandler.emailMap w') (SesHandler.User.email_id u)
       = false.
Proof.
  intros rule config w schedule w'.
  apply (SES_rule_mails_rendered_for_last_address (fun _ => Return tt) "c" "t"
           [(SesHandler.Provider.mk "ses" 1 rule, SesHandler.User.mk "u1@x")]
           (SesHandler.Provider.mk "ses" 9 rule) (SesHandler.User.mk "u9@x")
           2 config w).
  - reflexivity.
  - intros p u Hin. exists (Some "all").
    apply elem_of_cons in Hin as [[= -> ->]|Hin];
      [|apply list_elem_of_singleton in Hin as [= -> ->]];
      repeat split.
  - cbn. apply NoDup_cons. split.
    + intros Hin. apply list_elem_of_singleton in Hin. discriminate Hin.
    + apply NoDup_singleton.
  - intros p u Hin.
    apply elem_of_cons in Hin as [[= -> ->]|Hin];
      [|apply list_elem_of_singleton in Hin as [= -> ->]];
      reflexivity.
Defined.

(** For providers whose rules have no conditions, while [sesConfig] is
    set, the mails are rendered by the callbacks of the lookups themselves:
    whatever the order in which the lookups resolve, exactly one mail is
    rendered for each address of a user found that was not set in
    [emailMap], from a payload that holds that address, and these addresses
    are set in the end. *)
Theorem SES_mails_without_conditions_one_per_address {R : Type}
  (addRule : string -> Res unit) (correlationId template : string)
  (looked_up : list (SesHandler.Provider.t * option SesHandler.User.t))
  (config : SesHandler.SESConfig.t) (w : SesHandler.World R) :
  SesHandler.sesConfig w = Some config ->
  (forall p user,
      (p, user) ∈ looked_up ->
      exists conditions,
        SesHandler.Provider.rule p = Some conditions
        /\ SesHandler.truthy conditions = false) ->
  let schedule :=
    (fun pu => SesHandler.UserResolved pu.1 pu.2) <$> looked_up in
  let w' := SesHandler.run addRule correlationId template schedule w in
  exists claimed,
    SesHandler.recipients (SesHandler.trace w')
    = SesHandler.recipients (SesHandler.trace w) ++ (Some <$> claimed)
    /\ NoDup claimed
    /\ (forall a,
           a ∈ claimed
           <-> SesHandler.not_set (SesHandler.emailMap w) a = true
               /\ exists p u, (p, Some u) ∈ looked_up
                              /\ a = SesHandler.User.email_id u)
    /\ (forall a,
           a ∈ claimed ->
           SesHandler.not_set (SesHandler.emailMap w') a = false).
Proof.
  intros Hconfig Hrules schedule w'.
  destruct (unconditional_phase addRule correlationId template looked_up
              config w Hconfig Hrules)
    as (claimed & Hrec & Hnodup & Hin & Hmap).
  exists claimed.
  split; [exact Hrec|]. split; [exact Hnodup|]. split; [exact Hin|].
  intros a Ha. apply Hmap. right. exact Ha.
Qed.

Lemma SES_mails_without_conditions_one_per_address_witness :
  let p id := SesHandler.Provider.mk "ses" id (Some None) in
  let config :=
    SesHandler.SESConfig.mk (Some "eu") (Some "k") (Some "s") (Some "from@x") in
  let w := SesHandler.mkWorld tt (Some config) ∅ ∅ None None [] in
  let schedule :=
    [SesHandler.UserResolved (p 1) (Some (SesHandler.User.mk "u1@x"));
     SesHandler.UserResolved (p 2) None;
     SesHandler.UserResolved (p 3) (Some (SesHandler.User.mk "u1@x"));
     SesHandler.UserResolved (p 9) (Some (SesHandler.User.mk "u9@x"))] in
  let w' := SesHandler.run (fun _ => Return tt) "c" "t" schedule w in
  exists claimed,
    SesHandler.recipients (SesHandler.trace w') = [] ++ (Some <$> claimed)
    /\ NoDup claimed
    /\ (forall a,
           a ∈ claimed
           <-> SesHandler.not_set ∅ a = true
               /\ exists q u,
                    (q, Some u)
                    ∈ [(p 1, Some (SesHandler.User.mk "u1@x")); (p 2, None);
                       (p 3, Some (SesHandler.User.mk "u1@x"));
                       (p 9, Some (SesHandler.User.mk "u9@x"))]
                    /\ a = SesHandler.User.email_id u)
    /\ (forall a,
           a ∈ claimed ->
           SesHandler.not_set (SesHandler.emailMap w') a = false).
Proof.
  intros p config w schedule w'.
  apply (SES_mails_without_conditions_one_per_address (fun _ => Return tt)
           "c" "t"
           [(p 1, Some (SesHandler.User.mk "u1@x")); (p 2, None);
            (p 3, Some (SesHandler.User.mk "u1@x"));
            (p 9, Some (SesHandler.User.mk "u9@x"))] config w).
  - reflexivity.
  - intros q user Hin. exists None.
    repeat (apply elem_of_cons in Hin as [[= -> ->]|Hin];
            [split; reflexivity|]).
    apply elem_of_nil in Hin. contradiction.
Defined.

(** The two schedules of the same two lookups, with rules: when each engine
    run resolves before the next lookup does, each user gets the mail; when
    both lookups resolve first, both mails are rendered for the second
    address. *)
Example SES_two_schedules :
  let rule := Some (Some "all") in
  let config :=
    SesHandler.SESConfig.mk (Some "eu") (Some "k") (Some "s") (Some "from@x") in
  let w := SesHandler.mkWorld tt (Some config) ∅ ∅ None None [] in
  let first :=
    SesHandler.UserResolved (SesHandler.Provider.mk "ses" 1 rule)
                            (Some (SesHandler.User.mk "u1@x")) in
  let second :=
    SesHandler.UserResolved (SesHandler.Provider.mk "ses" 9 rule)
                            (Some (SesHandler.User.mk "u9@x")) in
  let engine := SesHandler.EngineRunResolved in
  let run steps :=
    SesHandler.recipients
      (SesHandler.trace (SesHandler.run (fun _ => Return tt) "c" "t" steps w)) in
  run [first; engine; second; engine] = [Some "u1@x"; Some "u9@x"]
  /\ run [first; second; engine; engine] = [Some "u9@x"; Some "u9@x"]
  /\ run [first; second; engine; engine; engine] = [Some "u9@x"; Some "u9@x"].
Proof. repeat split. Qed.

(** ** What [Subscribe] asks the broker *)

Section Emits.

Context {B : Type} (nats : Nats B) (P : Event -> Prop).

Lemma emits_ret {A} (a : A) : emits (B:=B) P (ret a).
Proof.
  intros w. exists []. rewrite app_nil_r. split; [reflexivity|constructor].
Qed.

Lemma emits_throw {A} (e : JsError) : emits (B:=B) (A:=A) P (throw e).
Proof.
  intros w. exists []. rewrite app_nil_r. split; [reflexivity|constructor].
Qed.

Lemma emits_bind {A A'} (m : M (World B) A) (k : A -> M (World B) A') :
  emits P m -> (forall a, emits P (k a)) -> emits P (bind m k).
Proof.
  intros Hm Hk w. unfold bind. destruct (Hm w) as (new & Htrace & Hnew).
  destruct (m w) as [[a|e] w1]; cbn in *; [|exists new; auto].
  destruct (Hk a w1) as (new' & Htrace' & Hnew').
  exists (new ++ new'). rewrite Htrace', Htrace, app_assoc.
  split; [reflexivity | apply Forall_app; auto].
Qed.

Lemma emits_try_catch {A} (m : M (World B) A) (h : JsError -> M (World B) A) :
  emits P m -> (forall e, emits P (h e)) -> emits P (try_catch m h).
Proof.
  intros Hm Hh w. unfold try_catch. destruct (Hm w) as (new & Htrace & Hnew).
  destruct (m w) as [[a|e] w1]; cbn in *; [exists new; auto|].
  destruct (Hh e w1) as (new' & Htrace' & Hnew').
  exists (new ++ new'). rewrite Htrace', Htrace, app_assoc.
  split; [reflexivity | apply Forall_app; auto].
Qed.

Lemma emits_record (e : Event) : P e -> emits (B:=B) P (record e).
Proof.
  intros He w. exists [e]. split; [reflexivity|].
  constructor; [exact He|constructor].
Qed.

Lemma emits_call (c : BrokerCall) : P (Broker c) -> emits P (call nats c).
Proof.
  intros Hc w. unfold call.
  destruct (respond nats c (broker w)) as [r b].
  exists [Broker c]. split; [reflexivity|].
  constructor; [exact Hc|constructor].
Qed.

Lemma emits_silent {A} (m : M (World B) A) :
  (forall w, trace (m w).2 = trace w) -> emits P m.
Proof.
  intros Hm w. exists []. rewrite app_nil_r. split; [apply Hm|constructor].
Qed.

Lemma emits_nc_info_cluster : emits P (nc_info_cluster nats).
Proof. apply emits_silent. reflexivity. Qed.

Lemma emits_consumerConfiguration (consumerName : string) :
  emits (B:=B) P (consumerConfiguration consumerName).
Proof.
  apply emits_silent. intros w. unfold consumerConfiguration.
  destruct (_ !! _); reflexivity.
Qed.

Lemma emits_set_consumerConfiguration_num_replicas (consumerName : string)
  (v : Z) :
  emits (B:=B) P (set_consumerConfiguration_num_replicas consumerName v).
Proof. apply emits_silent. reflexivity. Qed.

End Emits.

Ltac emits_step :=
  first
    [ apply emits_ret
    | apply emits_throw
    | apply emits_nc_info_cluster
    | apply emits_consumerConfiguration
    | apply emits_set_consumerConfiguration_num_replicas
    | apply emits_record; exact I
    | apply emits_call; cbn; auto; fail
    | apply emits_bind; [|intros ?]
    | apply emits_try_catch; [|intros ?]
    | match goal with
      | |- emits _ (if ?c then _ else _) => destruct c
      | |- emits _ (match ?x with _ => _ end) => destruct x
      | |- emits _ (let '(_, _) := ?x in _) => destruct x
      end ].

Section Addresses.

Context {B : Type} (nats : Nats B).
Variables (numberOfRetries : nat) (topic : string) (binding : NatsTopic.t).
Variables (inbox : string) (streamConfigParsed : StreamConfig.t).
Variable consumerOptsDetails : ConsumerOpts.t.

Hypothesis options_inbox :
  ConsumerConfig.deliver_subject (ConsumerOpts.config consumerOptsDetails)
  = inbox.

Let P := addresses topic binding consumerOptsDetails.

Lemma addresses_addOrUpdateStream :
  emits P (addOrUpdateStream nats (NatsTopic.streamName binding)
                             streamConfigParsed).
Proof.
  unfold addOrUpdateStream, logger_info, logger_error. repeat emits_step.
Qed.

Lemma addresses_updateConsumer (desired : NatsConsumerConfig.t) :
  emits P (updateConsumer nats (NatsTopic.streamName binding)
                          (NatsTopic.consumerName binding) desired).
Proof.
  unfold updateConsumer, logger_info, logger_warn, logger_error.
  repeat emits_step.
Qed.

Lemma addresses_createConsumer :
  emits P (createConsumer nats topic binding inbox).
Proof.
  unfold createConsumer, logger_info, logger_warn, logger_error.
  repeat first
    [ apply emits_call; cbn; rewrite options_inbox; repeat split; fail
    | emits_step ].
Qed.

Lemma addresses_attempt :
  emits P (attempt nats topic binding inbox streamConfigParsed
                   consumerOptsDetails).
Proof.
  unfold attempt, logger_info.
  repeat first [ apply addresses_addOrUpdateStream
               | apply addresses_updateConsumer
               | apply addresses_createConsumer | emits_step ].
Qed.

Lemma addresses_Subscribe_loop (left : nat) :
  forall attempts,
    (maxAttempts numberOfRetries - attempts)%nat = left ->
    emits P (Subscribe_loop nats numberOfRetries topic binding inbox
                            streamConfigParsed consumerOptsDetails attempts).
Proof.
  induction left as [|left IH]; intros attempts Hleft;
    rewrite Subscribe_loop_equation_1;
    destruct (lt_dec attempts (maxAttempts numberOfRetries)) as [Hlt|Hge];
    try lia.
  - apply emits_ret.
  - rewrite Subscribe_loop_clause_1_equation_1.
    apply emits_try_catch; [apply addresses_attempt|]. intros e.
    unfold logger_error, sleep.
    apply emits_bind; [apply emits_record; exact I|]. intros _. cbv zeta.
    apply emits_bind;
      [destruct (_ =? _)%nat; apply emits_record; exact I|].
    intros _. apply IH. lia.
Qed.

End Addresses.

(** Every call a run of [Subscribe] makes to the broker is about the
    stream and the consumer of the topic's binding: stream calls name its
    stream, consumer calls its stream and consumer, a creation call carries
    the inbox of the run, the topic as filter subject and the queue group
    of the binding, and every subscribe call, whichever attempt makes it,
    is for the topic and carries the very options built before the loop,
    from the desired entry as it was then. *)
Theorem Subscribe_calls_address_binding {B} (nats : Nats B)
  (NatsTopicMapping : gmap string NatsTopic.t)
  (NatsStreamWiseConfigMapping : gmap string NatsStreamConfig.t)
  (GetStreamSubjects : string -> list string) (numberOfRetries : nat)
  (decode : list Byte.byte -> Res string)
  (topic : string) (callback : string -> Res unit) (w : World B)
  (binding : NatsTopic.t) (desired : NatsConsumerConfig.t) :
  NatsTopicMapping !! topic = Some binding ->
  NatsConsumerWiseConfigMapping w !! NatsTopic.consumerName binding
  = Some desired ->
  let inbox := (nextInbox nats (broker w)).1 in
  let opts :=
    ConsumerOpts.mk
      (consumerObject topic inbox (NatsTopic.consumerName binding)
                      (NatsTopic.queueName binding) desired)
      (NatsTopic.streamName binding) (deliveryCallback decode callback)
      (NatsTopic.queueName binding) in
  exists new,
    trace (Subscribe nats NatsTopicMapping NatsStreamWiseConfigMapping
                     GetStreamSubjects numberOfRetries decode topic callback
                     w).2
    = trace w ++ new
    /\ Forall (addresses topic binding opts) new.
Proof.
  intros Htopic Hdesired inbox opts. subst opts inbox.
  unfold Subscribe. rewrite Htopic.
  unfold bind at 1. unfold createInbox at 1.
  destruct (nextInbox nats (broker w)) as [inbox b0]. cbn [fst].
  unfold bind at 1. unfold consumerConfiguration at 1.
  cbn [broker trace NatsConsumerWiseConfigMapping].
  rewrite Hdesired.
  destruct (NatsStreamWiseConfigMapping !! _) as [streamConfiguration|].
  - match goal with
    | |- context [Subscribe_loop _ _ _ _ ?i ?c ?o 0%nat ?w0] =>
        destruct (addresses_Subscribe_loop nats numberOfRetries topic binding
                    i c o eq_refl (maxAttempts numberOfRetries) 0%nat
                    ltac:(lia) w0) as (new & Htrace & Hnew)
    end.
    exists new. split; [exact Htrace | exact Hnew].
  - exists []. cbn. rewrite app_nil_r. split; [reflexivity|constructor].
Qed.

Lemma Subscribe_calls_address_binding_witness :
  let binding := NatsTopic.mk "S" "Q" "C" in
  let opts :=
    ConsumerOpts.mk
      (consumerObject "T" "_INBOX.1" "C" "Q" (NatsConsumerConfig.mk 30 2))
      "S" (deliveryCallback decode_ascii (fun _ => Return tt)) "Q" in
  exists new,
    trace (Subscribe (fixed_broker None None None) topics_ex streams_ex
                     (fun _ => ["T"]) 3 decode_ascii "T" (fun _ => Return tt)
                     (mkWorld tt (consumers_ex 30 2) [])).2
    = [] ++ new
    /\ Forall (addresses "T" binding opts) new.
Proof.
  intros binding opts.
  apply (Subscribe_calls_address_binding (fixed_broker None None None)
           topics_ex streams_ex (fun _ => ["T"]) 3 decode_ascii "T"
           (fun _ => Return tt) (mkWorld tt (consumers_ex 30 2) [])
           binding (NatsConsumerConfig.mk 30 2)); reflexivity.
Defined.

Lemma updateConsumer_zero_replicas_update_witness :
  let reported :=
    ConsumerConfig.mk "C" "_INBOX.0" "C" 60 1 "T" "Q" AckExplicit DeliverLast in
  let stream := StreamConfig.mk (Some "S") 200 [Some "T"] 3 in
  ConsumerConfig.num_replicas
    (ConsumerConfig.mk "C" "_INBOX.0" "C" 30 3 "T" "Q" AckExplicit DeliverLast)
  = StreamConfig.num_replicas stream.
Proof.
  intros reported stream.
  apply (updateConsumer_zero_replicas_update
           (fixed_broker (Some stream) (Some reported) None) "S" "C"
           (NatsConsumerConfig.mk 30 0) (ConsumerInfo.mk reported)
           (StreamInfo.mk stream) (mkWorld tt ∅ []) tt tt).
  - reflexivity.
  - reflexivity.
  - reflexivity.
  - vm_compute. set_solver.
  - vm_compute. set_solver.
Defined.
